(** * rdma-cdi: device validation, CDI spec files and diagnostics

    A shallow embedding of the core of the rdma-cdi tool
    (packages [types], [rdma], [cdi] and [doctor]) together with the
    properties its specification states about it.

    Go strings are modelled as [string] (a sequence of bytes), the host
    file system as a finite map from path names to nodes, and the Go
    library functions the packages call ([strings], [path/filepath], [os])
    as executable functions written after their documentation. *)

From Stdlib Require Import Ascii String DecimalString.
From stdpp Require Import strings gmap list.

Local Open Scope string_scope.
Arguments String.append : simpl nomatch.

(** ** Package [strings] of the Go library (byte level) *)

Module Str.

Definition HasPrefix (s pre : string) : bool := String.prefix pre s.

(** [strings.Contains]: [substr] occurs somewhere within [s]. *)
Fixpoint Contains (s substr : string) : bool :=
  String.prefix substr s
  || match s with
     | "" => false
     | String _ s' => Contains s' substr
     end.

(** Left-to-right scan replacing non-overlapping occurrences of a
    non-empty [old]; [skip] counts the bytes of a match still to drop. *)
Fixpoint replace_go (old new : string) (skip : nat) (s : string) : string :=
  match s with
  | "" => ""
  | String c s' =>
      match skip with
      | S k => replace_go old new k s'
      | O =>
          if String.prefix old s
          then new +:+ replace_go old new (String.length old - 1) s'
          else String c (replace_go old new 0 s')
      end
  end.

Fixpoint intersperse (new s : string) : string :=
  match s with
  | "" => new
  | String c s' => new +:+ String c (intersperse new s')
  end.

(** [strings.ReplaceAll]: with an empty [old] the replacement is
    inserted before every byte and at the end. *)
Definition ReplaceAll (s old new : string) : string :=
  if decide (old = "") then intersperse new s else replace_go old new 0 s.

Definition lower (c : ascii) : ascii :=
  let n := nat_of_ascii c in
  if (65 <=? n)%nat && (n <=? 90)%nat then ascii_of_nat (n + 32) else c.

Fixpoint ToLower (s : string) : string :=
  match s with
  | "" => ""
  | String c s' => String (lower c) (ToLower s')
  end.

Fixpoint trim_left (s : string) : string :=
  match s with
  | "" => ""
  | String c s' => if Ascii.is_space c then trim_left s' else s
  end.

Fixpoint trim_right (s : string) : string :=
  match s with
  | "" => ""
  | String c s' =>
      match trim_right s' with
      | "" => if Ascii.is_space c then "" else String c ""
      | r => String c r
      end
  end.

Definition TrimSpace (s : string) : string := trim_right (trim_left s).

Definition TrimPrefix (s pre : string) : string :=
  if String.prefix pre s
  then String.substring (String.length pre) (String.length s - String.length pre) s
  else s.

Definition Join (elems : list string) (sep : string) : string :=
  String.concat sep elems.

(** Number of occurrences of the byte [c]. *)
Fixpoint count (c : ascii) (s : string) : nat :=
  match s with
  | "" => 0
  | String d s' => (if decide (d = c) then 1 else 0) + count c s'
  end.

(** Number of positions at which two strings of one length differ. *)
Fixpoint diff (s t : string) : nat :=
  match s, t with
  | String c s', String d t' => (if decide (c = d) then 0 else 1) + diff s' t'
  | _, _ => 0
  end.

(** Bytewise image of a string. *)
Fixpoint map (f : ascii → ascii) (s : string) : string :=
  match s with
  | "" => ""
  | String c s' => String (f c) (map f s')
  end.

End Str.

(** ** Package [fmt]: the verbs the packages use *)

Module Fmt.

(** [%d] of a non-negative integer. *)
Definition itoa (n : nat) : string := NilZero.string_of_uint (Nat.to_uint n).

(** [%d] of a Go [int]. *)
Definition itoaZ (z : Z) : string :=
  match z with
  | Zneg p => "-" +:+ itoa (Pos.to_nat p)
  | _ => itoa (Z.to_nat z)
  end.

Definition dquote : ascii := ascii_of_nat 34.
Definition backslash : ascii := ascii_of_nat 92.

Definition hex_digit (n : nat) : ascii :=
  if (n <? 10)%nat then ascii_of_nat (48 + n) else ascii_of_nat (87 + n).

(** One byte of [strconv.Quote] on ASCII text. *)
Definition quote_byte (c : ascii) : string :=
  let n := nat_of_ascii c in
  if decide (c = dquote) then String backslash (String dquote "")
  else if decide (c = backslash) then String backslash (String backslash "")
  else if decide (n = 7) then String backslash "a"
  else if decide (n = 8) then String backslash "b"
  else if decide (n = 12) then String backslash "f"
  else if decide (n = 10) then String backslash "n"
  else if decide (n = 13) then String backslash "r"
  else if decide (n = 9) then String backslash "t"
  else if decide (n = 11) then String backslash "v"
  else if (32 <=? n)%nat && (n <? 127)%nat then String c ""
  else String backslash
         (String "x" (String (hex_digit (n / 16)) (String (hex_digit (n mod 16)) ""))).

Fixpoint quote_body (s : string) : string :=
  match s with
  | "" => ""
  | String c s' => quote_byte c +:+ quote_body s'
  end.

(** [%q]: the string as a double-quoted Go literal. *)
Definition Quote (s : string) : string :=
  String dquote (quote_body s +:+ String dquote "").

End Fmt.

(** ** Go errors and package [os]

    A Go [error] is modelled by its message; [nil] is [None]. *)

Definition error := string.

Inductive result (A : Type) :=
| Ok (a : A)
| Err (msg : error).
Arguments Ok {A} a.
Arguments Err {A} msg.

Module OS.

Inductive errno := ENOENT | ENOTDIR | EISDIR | EACCES.

Definition errno_text (e : errno) : string :=
  match e with
  | ENOENT => "no such file or directory"
  | ENOTDIR => "not a directory"
  | EISDIR => "is a directory"
  | EACCES => "permission denied"
  end.

(** The message of an [*os.PathError]. *)
Definition PathError (op path : string) (e : errno) : error :=
  op +:+ " " +:+ path +:+ ": " +:+ errno_text e.

(** The outcome of a system call: a value or an error number. *)
Inductive outcome (A : Type) :=
| Done (a : A)
| Failed (e : errno).
Arguments Done {A} a.
Arguments Failed {A} e.

Definition IsNotExist {A} (r : outcome A) : bool :=
  match r with
  | Failed ENOENT => true
  | _ => false
  end.

Inductive node :=
| Dir
| File (data : string).

(** The file system: the nodes that exist, by path name, and the path
    names the system refuses to change (missing permission, a directory
    that is not empty, ...).  Path names are taken as they are written:
    the parent directories of a name are not tracked. *)
Record FS := mkFS {
  nodes : gmap string node;
  locked : gset string
}.

Definition Stat (fs : FS) (name : string) : outcome node :=
  match nodes fs !! name with
  | Some n => Done n
  | None => Failed ENOENT
  end.

Definition Remove (fs : FS) (name : string) : outcome FS :=
  match nodes fs !! name with
  | None => Failed ENOENT
  | Some _ =>
      if decide (name ∈ locked fs) then Failed EACCES
      else Done (mkFS (delete name (nodes fs)) (locked fs))
  end.

Definition MkdirAll (fs : FS) (path : string) : outcome FS :=
  match nodes fs !! path with
  | Some Dir => Done fs
  | Some (File _) => Failed ENOTDIR
  | None =>
      if decide (path = "") then Failed ENOENT
      else if decide (path ∈ locked fs) then Failed EACCES
      else Done (mkFS (<[path := Dir]> (nodes fs)) (locked fs))
  end.

Definition WriteFile (fs : FS) (name : string) (data : string) : outcome FS :=
  match nodes fs !! name with
  | Some Dir => Failed EISDIR
  | _ =>
      if decide (name ∈ locked fs) then Failed EACCES
      else Done (mkFS (<[name := File data]> (nodes fs)) (locked fs))
  end.

(** The path names that exist, in the order the system lists them. *)
Definition names (fs : FS) : list string := (map_to_list (nodes fs)).*1.

(** A regular file exists under this name. *)
Definition is_file (fs : FS) (name : string) : Prop :=
  ∃ data, nodes fs !! name = Some (File data).

End OS.

(** ** Package [path/filepath] of the Go library (Unix) *)

Module Filepath.

Definition Separator : ascii := "/"%char.

(** The elements of a path: the pieces between separators. *)
Fixpoint split (s : string) : list string :=
  match s with
  | "" => [""]
  | String c s' =>
      if decide (c = Separator) then "" :: split s'
      else match split s' with
           | x :: xs => String c x :: xs
           | [] => [String c ""]
           end
  end.

(** The text after the final separator. *)
Definition last_elem (s : string) : string := default "" (last (split s)).

Definition rooted (s : string) : bool :=
  match s with
  | String c _ => bool_decide (c = Separator)
  | "" => false
  end.

(** One element of the lexical clean-up; the elements kept so far are
    a stack with the most recent one at the head. *)
Definition clean_step (root : bool) (st : list string) (c : string) : list string :=
  if decide (c = "") then st
  else if decide (c = ".") then st
  else if decide (c = "..") then
    match st with
    | top :: st' => if decide (top = "..") then c :: st else st'
    | [] => if root then [] else [c]
    end
  else c :: st.

(** [filepath.Clean]: empty and [.] elements are dropped, an inner [..]
    cancels the element before it, a [..] at the root is dropped, and
    the empty result is [.]. *)
Definition Clean (path : string) : string :=
  let root := rooted path in
  let st := foldl (clean_step root) [] (split path) in
  match root, st with
  | false, [] => "."
  | _, _ => (if root then "/" else "") +:+ String.concat "/" (rev st)
  end.

(** [filepath.Join]: leading empty elements are ignored, the rest are
    joined by the separator and cleaned. *)
Fixpoint Join (elem : list string) : string :=
  match elem with
  | [] => ""
  | e :: rest =>
      if decide (e = "") then Join rest else Clean (String.concat "/" elem)
  end.

Fixpoint strip_trailing (s : string) : string :=
  match s with
  | "" => ""
  | String c s' =>
      match strip_trailing s' with
      | "" => if decide (c = Separator) then "" else String c ""
      | r => String c r
      end
  end.

(** [filepath.Base]: the last element of the path, trailing separators
    removed first. *)
Definition Base (path : string) : string :=
  if decide (path = "") then "."
  else
    let b := last_elem (strip_trailing path) in
    if decide (b = "") then "/" else b.

(** The suffix that starts at the final dot, empty without a dot. *)
Fixpoint from_last_dot (s : string) : string :=
  match s with
  | "" => ""
  | String c s' =>
      match from_last_dot s' with
      | "" => if decide (c = "."%char) then s else ""
      | r => r
      end
  end.

(** [filepath.Ext]: the extension of the last element. *)
Definition Ext (path : string) : string := from_last_dot (last_elem path).

(** *** Shell patterns ([filepath.Match])

    pattern: { term };  term: [*] | [?] | [[ [^] ranges ]] | c | [\c]. *)

Inductive term :=
| Star
| Any
| Lit (c : ascii)
| Class (negated : bool) (ranges : list (ascii * ascii)).

(** States of the pattern scanner.  Inside a character class the
    scanner is before a range ([CStart], with the number of ranges read
    so far being positive or not), after a backslash, after the low end
    of a range, or after its dash. *)
Inductive cstate :=
| CStart (some : bool)
| CLoEsc
| CAfterLo (lo : ascii)
| CHi (lo : ascii)
| CHiEsc (lo : ascii).

Inductive state :=
| SNormal
| SEsc
| SOpen
| SClass (negated : bool) (cs : cstate) (acc : list (ascii * ascii)).

#[global] Instance cstate_eq_dec : EqDecision cstate.
Proof. solve_decision. Defined.

#[global] Instance state_eq_dec : EqDecision state.
Proof. solve_decision. Defined.

Definition bslash : ascii := ascii_of_nat 92.

Definition cons_term (t : term) (r : option (list term)) : option (list term) :=
  match r with
  | Some ts => Some (t :: ts)
  | None => None
  end.

(** The terms of a pattern, [None] for a malformed one
    ([ErrBadPattern]): a backslash at the end, a class that is empty
    or not closed, a range without an end. *)
Fixpoint scan (st : state) (s : string) : option (list term) :=
  match s with
  | "" => match st with SNormal => Some [] | _ => None end
  | String c r =>
      match st with
      | SNormal =>
          if decide (c = "*"%char) then cons_term Star (scan SNormal r)
          else if decide (c = "?"%char) then cons_term Any (scan SNormal r)
          else if decide (c = bslash) then scan SEsc r
          else if decide (c = "["%char) then scan SOpen r
          else cons_term (Lit c) (scan SNormal r)
      | SEsc => cons_term (Lit c) (scan SNormal r)
      | SOpen =>
          if decide (c = "^"%char) then scan (SClass true (CStart false) []) r
          else if decide (c = "]"%char) then None
          else if decide (c = "-"%char) then None
          else if decide (c = bslash) then scan (SClass false CLoEsc []) r
          else scan (SClass false (CAfterLo c) []) r
      | SClass neg (CStart some) acc =>
          if decide (c = "]"%char) then
            if some then cons_term (Class neg (rev acc)) (scan SNormal r) else None
          else if decide (c = "-"%char) then None
          else if decide (c = bslash) then scan (SClass neg CLoEsc acc) r
          else scan (SClass neg (CAfterLo c) acc) r
      | SClass neg CLoEsc acc => scan (SClass neg (CAfterLo c) acc) r
      | SClass neg (CAfterLo lo) acc =>
          if decide (c = "-"%char) then scan (SClass neg (CHi lo) acc) r
          else if decide (c = "]"%char) then
            cons_term (Class neg (rev ((lo, lo) :: acc))) (scan SNormal r)
          else if decide (c = bslash) then scan (SClass neg CLoEsc ((lo, lo) :: acc)) r
          else scan (SClass neg (CAfterLo c) ((lo, lo) :: acc)) r
      | SClass neg (CHi lo) acc =>
          if decide (c = "-"%char) then None
          else if decide (c = "]"%char) then None
          else if decide (c = bslash) then scan (SClass neg (CHiEsc lo) acc) r
          else scan (SClass neg (CStart true) ((lo, c) :: acc)) r
      | SClass neg (CHiEsc lo) acc =>
          scan (SClass neg (CStart true) ((lo, c) :: acc)) r
      end
  end.

Definition in_range (c : ascii) (r : ascii * ascii) : bool :=
  (nat_of_ascii r.1 <=? nat_of_ascii c)%nat && (nat_of_ascii c <=? nat_of_ascii r.2)%nat.

(** A name matches a list of terms when the terms cover all of it;
    [*] and [?] never cover a separator. *)
Fixpoint matches (ts : list term) (s : string) : bool :=
  match ts with
  | [] => bool_decide (s = "")
  | Star :: ts' =>
      (fix star (s : string) : bool :=
         matches ts' s
         || match s with
            | String c s' => negb (bool_decide (c = Separator)) && star s'
            | "" => false
            end) s
  | Any :: ts' =>
      match s with
      | String c s' => negb (bool_decide (c = Separator)) && matches ts' s'
      | "" => false
      end
  | Lit d :: ts' =>
      match s with
      | String c s' => bool_decide (c = d) && matches ts' s'
      | "" => false
      end
  | Class neg rs :: ts' =>
      match s with
      | String c s' => xorb (existsb (in_range c) rs) neg && matches ts' s'
      | "" => false
      end
  end.

(** [hasMeta]: the text holds one of the magic bytes of a pattern. *)
Fixpoint hasMeta (s : string) : bool :=
  match s with
  | "" => false
  | String c s' =>
      bool_decide (c ∈ ["*"%char; "?"%char; "["%char; bslash]) || hasMeta s'
  end.

(** [filepath.Match]. *)
Definition Match (pattern name : string) : option bool :=
  match scan SNormal pattern with
  | Some ts => Some (matches ts name)
  | None => None
  end.

(** A pattern as [filepath.Glob] walks it: element by element. *)
Fixpoint compile (elems : list string) : option (list (list term)) :=
  match elems with
  | [] => Some []
  | e :: rest =>
      match scan SNormal e, compile rest with
      | Some ts, Some tss => Some (ts :: tss)
      | _, _ => None
      end
  end.

Fixpoint matches_elems (tss : list (list term)) (names : list string) : bool :=
  match tss, names with
  | [], [] => true
  | ts :: tss', n :: names' => matches ts n && matches_elems tss' names'
  | _, _ => false
  end.

(** [filepath.Glob]: the names of all existing files matching the
    pattern, or [None] for a malformed pattern.  The library walks the
    directories element by element, so every element of the pattern
    must be well formed on its own and is matched against the element
    of the name at its position. *)
Definition Glob (fs : OS.FS) (pattern : string) : option (list string) :=
  match compile (split pattern) with
  | Some tss => Some (filter (λ p, matches_elems tss (split p) = true) (OS.names fs))
  | None => None
  end.

End Filepath.

(** ** Package [types] *)

Module Types.

Record DeviceSpec := {
  HostPath : string;
  ContainerPath : string;
  Permissions : string
}.

Record RdmaDevice := {
  PciAddress : string;
  IfName : string;
  Vendor : string;
  DeviceID : string;
  Driver : string;
  LinkType : string;
  RdmaDevices : list string;
  DeviceSpecs : list DeviceSpec
}.

Definition RequiredRdmaDevices : list string := ["rdma_cm"; "umad"; "uverbs"].

Definition set_LinkType (dev : RdmaDevice) (lt : string) : RdmaDevice :=
  {| PciAddress := PciAddress dev; IfName := IfName dev; Vendor := Vendor dev;
     DeviceID := DeviceID dev; Driver := Driver dev; LinkType := lt;
     RdmaDevices := RdmaDevices dev; DeviceSpecs := DeviceSpecs dev |}.

End Types.

(** ** The host as the packages [rdma] and [doctor] see it

    The answers of the kernel and of the libraries [rdmamap] and
    [netlink]; the code only reads them. *)

Module Netlink.

Inductive LinkOperState :=
| OperUnknown | OperNotPresent | OperDown | OperLowerLayerDown
| OperTesting | OperDormant | OperUp.

Definition OperState_String (s : LinkOperState) : string :=
  match s with
  | OperUnknown => "unknown"
  | OperNotPresent => "not-present"
  | OperDown => "down"
  | OperLowerLayerDown => "lower-layer-down"
  | OperTesting => "testing"
  | OperDormant => "dormant"
  | OperUp => "up"
  end.

Record LinkAttrs := {
  EncapType : string;
  OperState : LinkOperState;
  MTU : Z
}.

End Netlink.

Record Host := {
  rdmamap_GetRdmaDevicesForPcidev : string → list string;
  rdmamap_GetRdmaCharDevices : string → list string;
  os_Stat : string → OS.outcome unit;
  os_Lstat : string → OS.outcome unit;
  os_ReadDir : string → OS.outcome (list string);
  os_Readlink : string → OS.outcome string;
  os_ReadFile : string → OS.outcome string;
  netlink_LinkByName : string → result Netlink.LinkAttrs
}.

(** ** Package [rdma] *)

Module Rdma.
Import Types.

Definition sysBusPci : string := "/sys/bus/pci/devices".

Definition GetNetNames (h : Host) (pciAddr : string) : result (list string) :=
  let netDir := Filepath.Join [sysBusPci; pciAddr; "net"] in
  match os_Lstat h netDir with
  | OS.Failed e =>
      Err ("no net directory under PCI device " +:+ pciAddr +:+ ": "
           +:+ OS.PathError "lstat" netDir e)
  | OS.Done _ =>
      match os_ReadDir h netDir with
      | OS.Failed e =>
          Err ("failed to read net directory " +:+ netDir +:+ ": "
               +:+ OS.PathError "open" netDir e)
      | OS.Done entries => Ok entries
      end
  end.

Definition GetPCIDevDriver (h : Host) (pciAddr : string) : result string :=
  let driverLink := Filepath.Join [sysBusPci; pciAddr; "driver"] in
  match os_Readlink h driverLink with
  | OS.Failed e =>
      Err ("cannot read driver symlink for PCI device " +:+ pciAddr +:+ ": "
           +:+ OS.PathError "readlink" driverLink e)
  | OS.Done driverInfo => Ok (Filepath.Base driverInfo)
  end.

Definition readSysfsAttr (h : Host) (path : string) : string :=
  match os_ReadFile h path with
  | OS.Failed _ => ""
  | OS.Done data => Str.TrimPrefix (Str.TrimSpace data) "0x"
  end.

Definition GetPCIVendor (h : Host) (pciAddr : string) : string :=
  readSysfsAttr h (Filepath.Join [sysBusPci; pciAddr; "vendor"]).

Definition GetPCIDeviceID (h : Host) (pciAddr : string) : string :=
  readSysfsAttr h (Filepath.Join [sysBusPci; pciAddr; "device"]).

Definition GetLinkType (h : Host) (ifName : string) : string :=
  if decide (ifName = "") then ""
  else match netlink_LinkByName h ifName with
       | Err _ => ""
       | Ok link => Netlink.EncapType link
       end.

Definition GetRdmaCharDevices (h : Host) (pciAddress : string) : list string :=
  concat (map (rdmamap_GetRdmaCharDevices h)
              (rdmamap_GetRdmaDevicesForPcidev h pciAddress)).

(** The inner loop of [VerifyRdmaDevices]: some path has the required
    token within its base name. *)
Fixpoint found_in (required : string) (charDevPaths : list string) : bool :=
  match charDevPaths with
  | [] => false
  | devPath :: rest =>
      if Str.Contains (Filepath.Base devPath) required then true
      else found_in required rest
  end.

Fixpoint verify_loop (requireds charDevPaths : list string) : option error :=
  match requireds with
  | [] => None
  | required :: rest =>
      if found_in required charDevPaths then verify_loop rest charDevPaths
      else Some ("required RDMA device type " +:+ Fmt.Quote required +:+ " not found")
  end.

Definition VerifyRdmaDevices (charDevPaths : list string) : option error :=
  verify_loop RequiredRdmaDevices charDevPaths.

Definition buildDeviceSpecs (charDevs : list string) : list DeviceSpec :=
  map (λ dev, {| HostPath := dev; ContainerPath := dev; Permissions := "rw" |}) charDevs.

Definition buildRdmaDevice (h : Host) (pciAddr : string) (charDevs : list string)
  : RdmaDevice :=
  let ifName :=
    match GetNetNames h pciAddr with
    | Ok (name :: _) => name
    | _ => ""
    end in
  let driver :=
    match GetPCIDevDriver h pciAddr with
    | Ok driver => driver
    | Err _ => ""
    end in
  {| PciAddress := pciAddr;
     IfName := ifName;
     Vendor := GetPCIVendor h pciAddr;
     DeviceID := GetPCIDeviceID h pciAddr;
     Driver := driver;
     LinkType := GetLinkType h ifName;
     RdmaDevices := charDevs;
     DeviceSpecs := buildDeviceSpecs charDevs |}.

Definition DiscoverByPCI (h : Host) (pciAddress : string) : result RdmaDevice :=
  let charDevs := GetRdmaCharDevices h pciAddress in
  if decide (length charDevs = 0) then
    Err ("no RDMA character devices found for PCI address " +:+ pciAddress)
  else
    match VerifyRdmaDevices charDevs with
    | Some err =>
        Err ("RDMA device verification failed for " +:+ pciAddress +:+ ": " +:+ err)
    | None => Ok (buildRdmaDevice h pciAddress charDevs)
    end.

(** *** The other discovery entry points *)

Definition sysNetDevices : string := "/sys/class/net".

(** A host together with the mode bit [os.ModeSymlink] of what [Lstat]
    reports for a path. *)
Record LinkHost := {
  host_of :> Host;
  lstat_isSymlink : string → bool
}.

Definition GetPciAddress (h : LinkHost) (ifName : string) : result string :=
  let ifaceDir := Filepath.Join [sysNetDevices; ifName; "device"] in
  match os_Lstat h ifaceDir with
  | OS.Failed e =>
      Err ("cannot stat device symlink for interface " +:+ Fmt.Quote ifName +:+ ": "
           +:+ OS.PathError "lstat" ifaceDir e)
  | OS.Done _ =>
      if negb (lstat_isSymlink h ifaceDir) then
        Err ("no symbolic link for interface " +:+ Fmt.Quote ifName)
      else
        match os_Readlink h ifaceDir with
        | OS.Failed e =>
            Err ("cannot read device symlink for interface " +:+ Fmt.Quote ifName +:+ ": "
                 +:+ OS.PathError "readlink" ifaceDir e)
        | OS.Done pciInfo => Ok (Filepath.Base pciInfo)
        end
  end.

Definition set_IfName (dev : RdmaDevice) (ifName : string) : RdmaDevice :=
  {| PciAddress := PciAddress dev; IfName := ifName; Vendor := Vendor dev;
     DeviceID := DeviceID dev; Driver := Driver dev; LinkType := LinkType dev;
     RdmaDevices := RdmaDevices dev; DeviceSpecs := DeviceSpecs dev |}.

Definition DiscoverByIfName (h : LinkHost) (ifName : string) : result RdmaDevice :=
  match GetPciAddress h ifName with
  | Err err =>
      Err ("cannot resolve PCI address for interface " +:+ Fmt.Quote ifName +:+ ": "
           +:+ err)
  | Ok pciAddr =>
      match DiscoverByPCI h pciAddr with
      | Err err => Err err
      | Ok dev => Ok (set_IfName dev ifName)
      end
  end.

(** The loop of [DiscoverAll] over the entries of the PCI bus directory. *)
Fixpoint discoverLoop (h : Host) (entries : list string) (devices : list RdmaDevice)
  : list RdmaDevice :=
  match entries with
  | [] => devices
  | pciAddr :: rest =>
      let charDevs := GetRdmaCharDevices h pciAddr in
      if decide (length charDevs = 0) then discoverLoop h rest devices
      else discoverLoop h rest (devices ++ [buildRdmaDevice h pciAddr charDevs])%list
  end.

Definition DiscoverAll (h : Host) : result (list RdmaDevice) :=
  match os_ReadDir h sysBusPci with
  | OS.Failed e =>
      Err ("cannot read PCI bus directory " +:+ sysBusPci +:+ ": "
           +:+ OS.PathError "open" sysBusPci e)
  | OS.Done entries =>
      let devices := discoverLoop h entries [] in
      if decide (length devices = 0) then Err "no RDMA devices found on the host"
      else Ok devices
  end.

Definition DiscoverDevice (h : Host) (pciAddress : string) : result RdmaDevice :=
  DiscoverByPCI h pciAddress.

Definition DiscoverDeviceByIfName (h : LinkHost) (ifName : string) : result RdmaDevice :=
  DiscoverByIfName h ifName.

End Rdma.

(** ** Package [doctor] *)

Module Doctor.
Import Types.

(** [type Severity string] and its three levels. *)
Definition Severity := string.
Definition Pass : Severity := "PASS".
Definition Warn : Severity := "WARN".
Definition Fail : Severity := "FAIL".

Definition requiredKernelModules : list string :=
  ["ib_core"; "ib_uverbs"; "ib_umad"; "rdma_cm"; "rdma_ucm"].

Record CheckResult := {
  Check : string;
  Sev : Severity;
  Message : string;
  Device : string
}.

Record Report := {
  Results : list CheckResult;
  HasWarn : bool;
  HasFail : bool
}.

(** The zero value [&Report{}]. *)
Definition empty : Report := {| Results := []; HasWarn := false; HasFail := false |}.

Definition add (r : Report) (cr : CheckResult) : Report :=
  let results := (Results r ++ [cr])%list in
  if decide (Sev cr = Warn) then
    {| Results := results; HasWarn := true; HasFail := HasFail r |}
  else if decide (Sev cr = Fail) then
    {| Results := results; HasWarn := HasWarn r; HasFail := true |}
  else {| Results := results; HasWarn := HasWarn r; HasFail := HasFail r |}.

Definition filtered (r : Report) (showPass : bool) : list CheckResult :=
  if showPass then Results r
  else filter (λ cr, Sev cr ≠ Pass) (Results r).

Definition checkKernelModules (h : Host) (report : Report) : Report :=
  let missing :=
    filter (λ mod_, OS.IsNotExist (os_Stat h ("/sys/module/" +:+ mod_)) = true)
           requiredKernelModules in
  if decide (0 < length missing) then
    add report {| Check := "kernel_modules"; Sev := Fail;
                  Message := "Missing kernel modules: " +:+ Str.Join missing ", ";
                  Device := "" |}
  else
    add report {| Check := "kernel_modules"; Sev := Pass;
                  Message := "All required kernel modules loaded: "
                             +:+ Str.Join requiredKernelModules ", ";
                  Device := "" |}.

Definition link_message (dev : RdmaDevice) (attrs : Netlink.LinkAttrs) : string :=
  "Link " +:+ IfName dev +:+ " is " +:+ Netlink.OperState_String (Netlink.OperState attrs)
  +:+ " (encap: " +:+ Netlink.EncapType attrs
  +:+ ", MTU: " +:+ Fmt.itoaZ (Netlink.MTU attrs) +:+ ")".

(** The device is passed by pointer: its link type is refreshed. *)
Definition checkLinkAttrs (h : Host) (report : Report) (dev : RdmaDevice)
  : Report * RdmaDevice :=
  match netlink_LinkByName h (IfName dev) with
  | Err err =>
      (add report {| Check := "link_attrs"; Sev := Warn;
                     Message := "Cannot query link " +:+ IfName dev +:+ ": " +:+ err;
                     Device := PciAddress dev |},
       dev)
  | Ok attrs =>
      let dev' := set_LinkType dev (Netlink.EncapType attrs) in
      match Netlink.OperState attrs with
      | Netlink.OperUp =>
          (add report {| Check := "link_state"; Sev := Pass;
                         Message := link_message dev attrs;
                         Device := PciAddress dev |}, dev')
      | _ =>
          (add report {| Check := "link_state"; Sev := Warn;
                         Message := link_message dev attrs;
                         Device := PciAddress dev |}, dev')
      end
  end.

Definition netns_mode_data (h : Host) : option string :=
  match os_ReadFile h "/sys/module/rdma_cm/parameters/net_ns_mode" with
  | OS.Done data => Some data
  | OS.Failed _ =>
      match os_ReadFile h "/sys/module/ib_core/parameters/netns_mode" with
      | OS.Done data => Some data
      | OS.Failed _ => None
      end
  end.

Definition checkRdmaNetnsMode (h : Host) (report : Report) (pciAddr : string) : Report :=
  match netns_mode_data h with
  | None =>
      add report {| Check := "rdma_netns_mode"; Sev := Warn;
                    Message := "Cannot read RDMA netns mode (sysfs path not available)";
                    Device := pciAddr |}
  | Some data =>
      let mode := Str.TrimSpace data in
      if bool_decide (mode ∈ ["exclusive"; "1"; "Y"]) then
        add report {| Check := "rdma_netns_mode"; Sev := Pass;
                      Message := "RDMA netns mode: exclusive (" +:+ mode +:+ ")";
                      Device := pciAddr |}
      else if bool_decide (mode ∈ ["shared"; "0"; "N"]) then
        add report {| Check := "rdma_netns_mode"; Sev := Warn;
                      Message := "RDMA netns mode: shared (" +:+ mode
                                 +:+ ") — containers may not isolate RDMA traffic";
                      Device := pciAddr |}
      else
        add report {| Check := "rdma_netns_mode"; Sev := Warn;
                      Message := "Unknown RDMA netns mode: " +:+ Fmt.Quote mode;
                      Device := pciAddr |}
  end.

(** Check 1 of [DiagnoseDevice]: presence and required types of the
    character devices. *)
Definition checkRdmaDevices (report : Report) (dev : RdmaDevice) : Report :=
  if decide (length (RdmaDevices dev) = 0) then
    add report {| Check := "rdma_devices"; Sev := Fail;
                  Message := "No RDMA character devices found";
                  Device := PciAddress dev |}
  else
    match Rdma.VerifyRdmaDevices (RdmaDevices dev) with
    | Some err =>
        add report {| Check := "rdma_devices"; Sev := Fail;
                      Message := "Found " +:+ Fmt.itoa (length (RdmaDevices dev))
                                 +:+ " device(s) but missing required types: " +:+ err;
                      Device := PciAddress dev |}
    | None =>
        add report {| Check := "rdma_devices"; Sev := Pass;
                      Message := "All required RDMA devices present ("
                                 +:+ Fmt.itoa (length (RdmaDevices dev)) +:+ "): "
                                 +:+ Str.Join (RdmaDevices dev) ", ";
                      Device := PciAddress dev |}
    end.

(** Checks 3: the network interface and, when there is one, its link. *)
Definition checkNetInterface (h : Host) (report : Report) (dev : RdmaDevice)
  : Report * RdmaDevice :=
  if decide (IfName dev ≠ "") then
    checkLinkAttrs h
      (add report {| Check := "net_interface"; Sev := Pass;
                     Message := "Interface: " +:+ IfName dev;
                     Device := PciAddress dev |})
      dev
  else
    (add report {| Check := "net_interface"; Sev := Warn;
                   Message := "No network interface associated";
                   Device := PciAddress dev |},
     dev).

(** [DiagnoseDevice] returns the report; the device it was given is
    returned with it, as the link check may have updated it. *)
Definition DiagnoseDevice (h : Host) (dev : RdmaDevice) : Report * RdmaDevice :=
  let report := empty in
  let report := checkRdmaDevices report dev in
  let report := checkKernelModules h report in
  let '(report, dev) := checkNetInterface h report dev in
  let report := checkRdmaNetnsMode h report (PciAddress dev) in
  (report, dev).

Definition MergeReports (reports : list Report) : Report :=
  foldl (λ merged r, foldl add merged (Results r)) empty reports.

Definition is_sev (s : Severity) (cr : CheckResult) : bool := bool_decide (Sev cr = s).

(** The summary flags agree with the results. *)
Definition flags_ok (r : Report) : Prop :=
  HasWarn r = existsb (is_sev Warn) (Results r)
  ∧ HasFail r = existsb (is_sev Fail) (Results r).

(** Some result of the report has the severity [s]. *)
Definition has_severity (s : Severity) (r : Report) : Prop :=
  ∃ cr, cr ∈ Results r ∧ Sev cr = s.

(** The invariant of a report. *)
Definition flags_inv (r : Report) : Prop :=
  (HasWarn r = true ↔ has_severity Warn r) ∧ (HasFail r = true ↔ has_severity Fail r).

(** The three outcomes of the character-device check. *)
Definition noDevicesResult (dev : RdmaDevice) : CheckResult :=
  {| Check := "rdma_devices"; Sev := Fail;
     Message := "No RDMA character devices found";
     Device := PciAddress dev |}.

Definition missingTypesResult (dev : RdmaDevice) (err : error) : CheckResult :=
  {| Check := "rdma_devices"; Sev := Fail;
     Message := "Found " +:+ Fmt.itoa (length (RdmaDevices dev))
                +:+ " device(s) but missing required types: " +:+ err;
     Device := PciAddress dev |}.

Definition allPresentResult (dev : RdmaDevice) : CheckResult :=
  {| Check := "rdma_devices"; Sev := Pass;
     Message := "All required RDMA devices present ("
                +:+ Fmt.itoa (length (RdmaDevices dev)) +:+ "): "
                +:+ Str.Join (RdmaDevices dev) ", ";
     Device := PciAddress dev |}.

(** *** Printing *)

(** What [PrintTable] writes: the one line for an empty table, or the
    header and the rows it hands to the table writer. *)
Inductive printed :=
| Line (text : string)
| Table (header : list string) (rows : list (list string)).

Definition marker (s : Severity) : string :=
  if decide (s = Warn) then "!"
  else if decide (s = Fail) then "✗"
  else "✓".

Definition tableRow (r : CheckResult) : list string :=
  let dev := if decide (Device r = "") then "(host)" else Device r in
  [marker (Sev r) +:+ " " +:+ Sev r; Check r; dev; Message r].

Definition PrintTable (report : Report) (showPass : bool) : printed :=
  let results := filtered report showPass in
  if decide (length results = 0) then Line "All checks passed."
  else Table ["STATUS"; "CHECK"; "DEVICE"; "MESSAGE"] (map tableRow results).

End Doctor.

(** ** The CDI specification document (package [specs-go]) *)

Module CdiSpecs.

Record DeviceNode := {
  Path : string;
  HostPath : string;
  Permissions : string
}.

Record ContainerEdits := { DeviceNodes : list DeviceNode }.

Record Device := {
  Name : string;
  Edits : ContainerEdits
}.

Record Spec := {
  Version : string;
  Kind : string;
  Devices : list Device
}.

End CdiSpecs.

(** ** Package [cdi] *)

Module Cdi.

Definition FilePrefix : string := "rdma-cdi".
Definition DefaultOutputDir : string := "/etc/cdi".
Definition DefaultPrefix : string := "rdma".

Definition SpecFileName (prefix name format : string) : string :=
  let safePrefix := Str.ReplaceAll prefix "/" "_" in
  FilePrefix +:+ "_" +:+ safePrefix +:+ "_" +:+ name +:+ "." +:+ format.

Definition validateSpec (spec : CdiSpecs.Spec) : option error :=
  if decide (CdiSpecs.Kind spec = "") then Some "spec kind must not be empty"
  else if decide (length (CdiSpecs.Devices spec) = 0)
       then Some "spec must contain at least one device"
       else None.

Definition deviceNode (spec : Types.DeviceSpec) : CdiSpecs.DeviceNode :=
  {| CdiSpecs.Path := Types.ContainerPath spec;
     CdiSpecs.HostPath := Types.HostPath spec;
     CdiSpecs.Permissions := Types.Permissions spec |}.

Definition cdiDevice (dev : Types.RdmaDevice) : CdiSpecs.Device :=
  {| CdiSpecs.Name := Types.PciAddress dev;
     CdiSpecs.Edits :=
       {| CdiSpecs.DeviceNodes := map deviceNode (Types.DeviceSpecs dev) |} |}.

(** The encoders of [encoding/json] and [sigs.k8s.io/yaml] and the
    version constant of the CDI library are left open. *)
Section Codec.

Variable CurrentVersion : string.
Variable json_MarshalIndent : CdiSpecs.Spec → result string.
Variable json_Marshal : CdiSpecs.Spec → result string.
Variable yaml_JSONToYAML : string → result string.

Definition marshalSpec (spec : CdiSpecs.Spec) (format : string) : result string :=
  let f := Str.ToLower format in
  if decide (f = "json") then json_MarshalIndent spec
  else if decide (f = "yaml") then
    match json_Marshal spec with
    | Err err => Err err
    | Ok jsonData => yaml_JSONToYAML jsonData
    end
  else Err ("unsupported format " +:+ Fmt.Quote format +:+ ": use json or yaml").

Definition buildSpec (resourcePrefix resourceName : string)
           (devices : list Types.RdmaDevice) : CdiSpecs.Spec :=
  {| CdiSpecs.Version := CurrentVersion;
     CdiSpecs.Kind := resourcePrefix +:+ "/" +:+ resourceName;
     CdiSpecs.Devices := map cdiDevice devices |}.

(** The file system after the call, and the error returned. *)
Definition CreateCDISpec (fs : OS.FS) (resourcePrefix resourceName : string)
           (devices : list Types.RdmaDevice) (outputDir format : string)
  : OS.FS * option error :=
  let spec := buildSpec resourcePrefix resourceName devices in
  let fileName := SpecFileName resourcePrefix resourceName format in
  let filePath := Filepath.Join [outputDir; fileName] in
  match OS.MkdirAll fs outputDir with
  | OS.Failed e =>
      (fs, Some ("cannot create output directory " +:+ outputDir +:+ ": "
                 +:+ OS.PathError "mkdir" outputDir e))
  | OS.Done fs1 =>
      match validateSpec spec with
      | Some err => (fs1, Some ("generated CDI spec is invalid: " +:+ err))
      | None =>
          match marshalSpec spec format with
          | Err err => (fs1, Some ("cannot marshal CDI spec: " +:+ err))
          | Ok data =>
              match OS.WriteFile fs1 filePath data with
              | OS.Failed e =>
                  (fs1, Some ("cannot write CDI spec file " +:+ filePath +:+ ": "
                              +:+ OS.PathError "open" filePath e))
              | OS.Done fs2 => (fs2, None)
              end
          end
      end
  end.

End Codec.

(** The loop of [cleanupFiles]; [removed] is the list built so far. *)
Fixpoint cleanupLoop (fs : OS.FS) (paths : list string) (dryRun : bool)
         (removed : list string) : OS.FS * list string * option error :=
  match paths with
  | [] => (fs, removed, None)
  | p :: rest =>
      if OS.IsNotExist (OS.Stat fs p) then cleanupLoop fs rest dryRun removed
      else if dryRun then cleanupLoop fs rest dryRun (removed ++ [p])%list
      else
        match OS.Remove fs p with
        | OS.Failed e =>
            (fs, removed,
             Some ("cannot remove " +:+ p +:+ ": " +:+ OS.PathError "remove" p e))
        | OS.Done fs' => cleanupLoop fs' rest dryRun (removed ++ [p])%list
        end
  end.

Definition cleanupFiles (fs : OS.FS) (paths : list string) (dryRun : bool)
  : OS.FS * list string * option error :=
  cleanupLoop fs paths dryRun [].

Definition globPattern (dir safePrefix ext : string) : string :=
  Filepath.Join [dir; FilePrefix +:+ "_" +:+ safePrefix +:+ "_*." +:+ ext].

(** The loop over the known extensions in [CleanupSpecs]. *)
Fixpoint globLoop (fs : OS.FS) (dir safePrefix : string) (exts : list string)
         (found : list string) : result (list string) :=
  match exts with
  | [] => Ok found
  | ext :: rest =>
      let pattern := globPattern dir safePrefix ext in
      match Filepath.Glob fs pattern with
      | None =>
          Err ("glob error for pattern " +:+ pattern +:+ ": syntax error in pattern")
      | Some m => globLoop fs dir safePrefix rest (found ++ m)%list
      end
  end.

(** The file system after the call, the list of removed paths, and the
    error returned. *)
Definition CleanupSpecs (fs : OS.FS) (dir prefix name : string) (dryRun : bool)
  : OS.FS * list string * option error :=
  let dir := if decide (dir = "") then DefaultOutputDir else dir in
  let safePrefix := Str.ReplaceAll prefix "/" "_" in
  if decide (name ≠ "") then
    let patternJSON :=
      Filepath.Join [dir; FilePrefix +:+ "_" +:+ safePrefix +:+ "_" +:+ name +:+ ".json"] in
    let patternYAML :=
      Filepath.Join [dir; FilePrefix +:+ "_" +:+ safePrefix +:+ "_" +:+ name +:+ ".yaml"] in
    cleanupFiles fs [patternJSON; patternYAML] dryRun
  else
    match globLoop fs dir safePrefix ["json"; "yaml"] [] with
    | Err err => (fs, [], Some err)
    | Ok found => cleanupFiles fs found dryRun
    end.

(** The names a call removed: present before, absent afterwards. *)
Definition removed_by (fs fs' : OS.FS) (p : string) : Prop :=
  is_Some (OS.nodes fs !! p) ∧ OS.nodes fs' !! p = None.

(** [parser.QualifiedName] of the CDI library. *)
Definition QualifiedName (vendor class name : string) : string :=
  vendor +:+ "/" +:+ class +:+ "=" +:+ name.

Definition CreateContainerAnnotations (devices : list Types.RdmaDevice)
           (resourcePrefix resourceKind : string) : result (gmap string string) :=
  if decide (length devices = 0) then Err "devices list is empty"
  else
    Ok (foldl (λ (annotations : gmap string string) dev,
                 let qn := QualifiedName resourcePrefix resourceKind
                             (Types.PciAddress dev) in
                 <[qn := qn]> annotations)
              ∅ devices).

End Cdi.

(** ** Package [utils] *)

Module Utils.

(** The first pair whose old text starts the string. *)
Fixpoint lookup_old (pairs : list (string * string)) (s : string)
  : option (string * string) :=
  match pairs with
  | [] => None
  | (old, new) :: rest =>
      if String.prefix old s then Some (old, new) else lookup_old rest s
  end.

(** [strings.NewReplacer(pairs...).Replace] for non-empty old texts:
    replacements are made in the order they appear in the string,
    without overlap, the pairs being compared in argument order;
    [skip] counts the bytes of a match still to drop. *)
Fixpoint replacer_go (pairs : list (string * string)) (skip : nat) (s : string)
  : string :=
  match s with
  | "" => ""
  | String c s' =>
      match skip with
      | S k => replacer_go pairs k s'
      | O =>
          match lookup_old pairs s with
          | Some (old, new) => new +:+ replacer_go pairs (String.length old - 1) s'
          | None => String c (replacer_go pairs 0 s')
          end
      end
  end.

Definition Replace (pairs : list (string * string)) (s : string) : string :=
  replacer_go pairs 0 s.

Definition SanitizeName (s : string) : string :=
  Replace [(":", "-"); ("/", "-"); (".", "-")] s.

End Utils.

(** ** The command line ([main]) *)

Module Main.
Import Types.

Definition exitOK : nat := 0.
Definition exitRuntimeError : nat := 1.

Definition deriveDefaultName (pci ifname : string) : string :=
  if decide (ifname ≠ "") then Utils.SanitizeName ifname
  else if decide (pci ≠ "") then Utils.SanitizeName ("pci-" +:+ pci)
  else "unknown".

(** The device selection shared by the [discover] and [doctor]
    commands; [what] is the text the command puts before an error. *)
Definition selectDevices (h : Rdma.LinkHost) (what pci ifname : string)
  : result (list RdmaDevice) :=
  if decide (pci ≠ "") then
    match Rdma.DiscoverByPCI (Rdma.host_of h) pci with
    | Err err => Err (what +:+ ": " +:+ err)
    | Ok dev => Ok [dev]
    end
  else if decide (ifname ≠ "") then
    match Rdma.DiscoverByIfName h ifname with
    | Err err => Err (what +:+ ": " +:+ err)
    | Ok dev => Ok [dev]
    end
  else
    match Rdma.DiscoverAll (Rdma.host_of h) with
    | Err err => Err (what +:+ ": " +:+ err)
    | Ok devices => Ok devices
    end.

(** The exit code strategy of the [doctor] command. *)
Definition doctorExit (merged : Doctor.Report) (strict : bool) : nat :=
  if Doctor.HasFail merged then exitRuntimeError
  else if strict && Doctor.HasWarn merged then exitRuntimeError
  else exitOK.

(** The [doctor] command: the merged report it prints and the exit
    code, or the error of the discovery. *)
Definition doctorRun (h : Rdma.LinkHost) (pci ifname : string) (strict : bool)
  : result (Doctor.Report * nat) :=
  match selectDevices h "device discovery failed" pci ifname with
  | Err err => Err err
  | Ok devices =>
      let reports := map (λ dev, (Doctor.DiagnoseDevice (Rdma.host_of h) dev).1) devices in
      let merged := Doctor.MergeReports reports in
      Ok (merged, doctorExit merged strict)
  end.

Section Generate.

Variable CurrentVersion : string.
Variable json_MarshalIndent : CdiSpecs.Spec → result string.
Variable json_Marshal : CdiSpecs.Spec → result string.
Variable yaml_JSONToYAML : string → result string.

(** The loop of [generate --all]: the file system, the lines written
    to the standard output and the count of failed devices. *)
Fixpoint generateLoop (fs : OS.FS) (prefix outputDir format : string)
         (devices : list RdmaDevice) (out : list string) (errCount : nat)
  : OS.FS * list string * nat :=
  match devices with
  | [] => (fs, out, errCount)
  | dev :: rest =>
      let autoName := deriveDefaultName (PciAddress dev) "" in
      match Cdi.CreateCDISpec CurrentVersion json_MarshalIndent json_Marshal
              yaml_JSONToYAML fs prefix autoName [dev] outputDir format with
      | (fs', Some _) => generateLoop fs' prefix outputDir format rest out (S errCount)
      | (fs', None) =>
          generateLoop fs' prefix outputDir format rest
            (out ++ ["CDI spec written to " +:+ outputDir +:+ "/"
                     +:+ Cdi.SpecFileName prefix autoName format])%list
            errCount
      end
  end.

(** [generate --all]. *)
Definition generateAll (h : Host) (fs : OS.FS) (prefix outputDir format : string)
  : OS.FS * list string * option error :=
  match Rdma.DiscoverAll h with
  | Err err => (fs, [], Some ("device discovery failed: " +:+ err))
  | Ok devices =>
      if decide (length devices = 0) then (fs, ["No RDMA devices found."], None)
      else
        let '(fs', out, errCount) :=
          generateLoop fs prefix outputDir format devices [] 0 in
        if decide (0 < errCount) then
          (fs', out, Some (Fmt.itoa errCount +:+ " device(s) failed to generate"))
        else (fs', out, None)
  end.

(** [generate] for one device, by PCI address or by interface name. *)
Definition generateOne (h : Rdma.LinkHost) (fs : OS.FS)
           (pci ifname prefix name outputDir format : string)
  : OS.FS * list string * option error :=
  let name := if decide (name = "") then deriveDefaultName pci ifname else name in
  let found :=
    if decide (pci ≠ "") then Rdma.DiscoverByPCI (Rdma.host_of h) pci
    else Rdma.DiscoverByIfName h ifname in
  match found with
  | Err err => (fs, [], Some ("device discovery failed: " +:+ err))
  | Ok dev =>
      match Cdi.CreateCDISpec CurrentVersion json_MarshalIndent json_Marshal
              yaml_JSONToYAML fs prefix name [dev] outputDir format with
      | (fs', Some err) => (fs', [], Some ("CDI spec generation failed: " +:+ err))
      | (fs', None) =>
          (fs', ["CDI spec written to " +:+ outputDir +:+ "/"
                 +:+ Cdi.SpecFileName prefix name format], None)
      end
  end.

End Generate.

(** The [cleanup] command: the file system it leaves, the lines
    written to the standard output, and the error returned. *)
Definition cleanupRun (fs : OS.FS) (prefix name outputDir : string) (dryRun : bool)
  : OS.FS * list string * option error :=
  match Cdi.CleanupSpecs fs outputDir prefix name dryRun with
  | (fs', _, Some err) => (fs', [], Some err)
  | (fs', removed, None) =>
      if decide (length removed = 0) then (fs', ["No matching spec files found."], None)
      else
        let action := if dryRun then "Would remove" else "Removed" in
        (fs', map (λ f, action +:+ ": " +:+ f) removed, None)
  end.

End Main.

(** ** Notions used to state the properties *)

(** What [SpecFileName] does to one byte of the prefix. *)
Definition slash_to_underscore (c : ascii) : ascii :=
  if decide (c = "/"%char) then "_"%char else c.

(** A required token that no path of the list has in its base name. *)
Definition missing_type (paths : list string) : Prop :=
  ∃ required, required ∈ ["rdma_cm"; "umad"; "uverbs"]
    ∧ ∀ p, p ∈ paths → Str.Contains (Filepath.Base p) required = false.

(** Two file systems hold the same regular files. *)
Definition same_files (fs fs' : OS.FS) : Prop :=
  ∀ p data, OS.nodes fs' !! p = Some (OS.File data) ↔ OS.nodes fs !! p = Some (OS.File data).

(** The format is none of those [marshalSpec] knows. *)
Definition unsupported (format : string) : Prop :=
  Str.ToLower format ≠ "json" ∧ Str.ToLower format ≠ "yaml".

(** A string without separator, and an element that [Clean] keeps. *)
Definition noslash (s : string) : Prop := Str.count Filepath.Separator s = 0.

Definition regular (s : string) : Prop := s ≠ "" ∧ s ≠ "." ∧ s ≠ "..".

(** The paths of a list that exist. *)
Definition existing (fs : OS.FS) (paths : list string) : list string :=
  filter (λ p, is_Some (OS.nodes fs !! p)) paths.

(** The paths [CleanupSpecs] hands to [cleanupFiles]. *)
Definition candidates (fs : OS.FS) (dir prefix name : string) : result (list string) :=
  let dir := if decide (dir = "") then Cdi.DefaultOutputDir else dir in
  if decide (name ≠ "") then
    Ok [Filepath.Join [dir; Cdi.SpecFileName prefix name "json"];
        Filepath.Join [dir; Cdi.SpecFileName prefix name "yaml"]]
  else Cdi.globLoop fs dir (Str.ReplaceAll prefix "/" "_") ["json"; "yaml"] [].

(** The message of a failed removal. *)
Definition removeError (p : string) : error :=
  "cannot remove " +:+ p +:+ ": " +:+ OS.PathError "remove" p OS.EACCES.

(** The pattern that matches exactly the string [s]. *)
Fixpoint lits (s : string) : list Filepath.term :=
  match s with
  | "" => []
  | String c s' => Filepath.Lit c :: lits s'
  end.

(** What [SanitizeName] does to one byte. *)
Definition sanitize_byte (c : ascii) : ascii :=
  if bool_decide (c ∈ [":"%char; "/"%char; "."%char]) then "-"%char else c.

(** A name without colon, separator and dot. *)
Definition safe_name (s : string) : Prop :=
  Str.count ":" s = 0 ∧ Str.count "/" s = 0 ∧ Str.count "." s = 0.

(** The device specs of a device mirror its character device paths:
    one spec per path, in order, host and container path both the path,
    with read-write permissions. *)
Definition well_built (dev : Types.RdmaDevice) : Prop :=
  length (Types.DeviceSpecs dev) = length (Types.RdmaDevices dev)
  ∧ ∀ i spec, Types.DeviceSpecs dev !! i = Some spec →
              Types.RdmaDevices dev !! i = Some (Types.HostPath spec)
              ∧ Types.ContainerPath spec = Types.HostPath spec
              ∧ Types.Permissions spec = "rw".

(** The devices [DiscoverAll] builds from the entries of the bus. *)
Definition rdma_entries (h : Host) (entries : list string) : list string :=
  filter (λ pciAddr, Rdma.GetRdmaCharDevices h pciAddr ≠ []) entries.

(** The required kernel modules without a directory under
    [/sys/module]. *)
Definition modules_missing (h : Host) : list string :=
  filter (λ mod_, OS.IsNotExist (os_Stat h ("/sys/module/" +:+ mod_)) = true)
         Doctor.requiredKernelModules.

#[local] Instance LinkOperState_eq_dec : EqDecision Netlink.LinkOperState.
Proof. solve_decision. Defined.

(** The link of the device's interface can be queried and is up. *)
Definition link_up (h : Host) (dev : Types.RdmaDevice) : Prop :=
  ∃ attrs, netlink_LinkByName h (Types.IfName dev) = Ok attrs
           ∧ Netlink.OperState attrs = Netlink.OperUp.

(** The RDMA network namespace mode can be read and is exclusive. *)
Definition netns_exclusive (h : Host) : Prop :=
  ∃ data, Doctor.netns_mode_data h = Some data
          ∧ Str.TrimSpace data ∈ ["exclusive"; "1"; "Y"].

(** Name, severity and device of a result. *)
Definition outline (cr : Doctor.CheckResult) : string * Doctor.Severity * string :=
  (Doctor.Check cr, Doctor.Sev cr, Doctor.Device cr).

(** A string of white space only, and a string without white space. *)
Fixpoint spaces_only (s : string) : bool :=
  match s with
  | "" => true
  | String c s' => Ascii.is_space c && spaces_only s'
  end.

Fixpoint space_free (s : string) : bool :=
  match s with
  | "" => true
  | String c s' => negb (Ascii.is_space c) && space_free s'
  end.

(** ** Sample values, after the tests of the repository *)

Module Samples.
Import Types Doctor.

Definition passResult : CheckResult :=
  {| Check := "a"; Sev := Pass; Message := "ok"; Device := "" |}.
Definition warnResult : CheckResult :=
  {| Check := "b"; Sev := Warn; Message := "warn"; Device := "" |}.
Definition failResult : CheckResult :=
  {| Check := "c"; Sev := Fail; Message := "fail"; Device := "" |}.

(** A host on which nothing can be read and no link is known. *)
Definition bareHost : Host :=
  {| rdmamap_GetRdmaDevicesForPcidev := λ _, [];
     rdmamap_GetRdmaCharDevices := λ _, [];
     os_Stat := λ _, OS.Failed OS.ENOENT;
     os_Lstat := λ _, OS.Failed OS.ENOENT;
     os_ReadDir := λ _, OS.Failed OS.ENOENT;
     os_Readlink := λ _, OS.Failed OS.ENOENT;
     os_ReadFile := λ _, OS.Failed OS.ENOENT;
     netlink_LinkByName := λ _, Err "Link not found" |}.

(** The same host with one RDMA device behind every PCI address. *)
Definition rdmaHost : Host :=
  {| rdmamap_GetRdmaDevicesForPcidev := λ _, ["mlx5_0"];
     rdmamap_GetRdmaCharDevices := λ _,
       ["/dev/infiniband/rdma_cm"; "/dev/infiniband/umad0"; "/dev/infiniband/uverbs0"];
     os_Stat := λ _, OS.Failed OS.ENOENT;
     os_Lstat := λ _, OS.Failed OS.ENOENT;
     os_ReadDir := λ _, OS.Failed OS.ENOENT;
     os_Readlink := λ _, OS.Failed OS.ENOENT;
     os_ReadFile := λ _, OS.Failed OS.ENOENT;
     netlink_LinkByName := λ _, Err "Link not found" |}.

Definition fullDevice : RdmaDevice :=
  {| PciAddress := "0000:17:00.0"; IfName := "enp23s0f0np0"; Vendor := "";
     DeviceID := ""; Driver := "mlx5_core"; LinkType := "ether";
     RdmaDevices := ["/dev/infiniband/rdma_cm"; "/dev/infiniband/umad0";
                     "/dev/infiniband/uverbs0"];
     DeviceSpecs := [] |}.

Definition brokenDevice : RdmaDevice :=
  {| PciAddress := "0000:17:00.2"; IfName := ""; Vendor := ""; DeviceID := "";
     Driver := ""; LinkType := ""; RdmaDevices := []; DeviceSpecs := [] |}.

Definition uverbsOnlyDevice : RdmaDevice :=
  {| PciAddress := "0000:17:00.0"; IfName := "enp23s0f0np0"; Vendor := "";
     DeviceID := ""; Driver := "mlx5_core"; LinkType := "ether";
     RdmaDevices := ["/dev/infiniband/uverbs0"];
     DeviceSpecs := [] |}.

Definition sampleDevices : list RdmaDevice :=
  [{| PciAddress := "0000:17:00.0"; IfName := "enp23s0f0np0"; Vendor := "";
      DeviceID := ""; Driver := ""; LinkType := "";
      RdmaDevices := [];
      DeviceSpecs :=
        [{| HostPath := "/dev/infiniband/umad0";
            ContainerPath := "/dev/infiniband/umad0"; Permissions := "rw" |};
         {| HostPath := "/dev/infiniband/uverbs0";
            ContainerPath := "/dev/infiniband/uverbs0"; Permissions := "rw" |};
         {| HostPath := "/dev/infiniband/rdma_cm";
            ContainerPath := "/dev/infiniband/rdma_cm"; Permissions := "rw" |}] |}].

(** Encoders that always succeed, with a fixed text. *)
Definition sampleIndent (_ : CdiSpecs.Spec) : result string := Ok "{ }".
Definition sampleMarshal (_ : CdiSpecs.Spec) : result string := Ok "{}".
Definition sampleToYAML (_ : string) : result string := Ok "---".

Definition emptyFS : OS.FS := OS.mkFS ∅ ∅.

(** The directory of the cleanup tests: files of this tool, files of
    other tools, and files of this tool's naming with other extensions. *)
Definition seedFS : OS.FS :=
  OS.mkFS
    (list_to_map
       (map (λ n, ("/tmp/d/" +:+ n, OS.File "test"))
            ["rdma-cdi_rdma_dev1.yaml"; "rdma-cdi_rdma_dev1.json";
             "rdma-cdi_rdma_dev2.yaml"; "rdma-cdi_custom_dev3.json";
             "nvidia-cdi_rdma_gpu0.yaml"; "other-tool.json";
             "rdma-cdi_rdma_dev1.txt"; "rdma-cdi_rdma_dev1.bak"]))
    ∅.

(** A spec file of this tool that the system does not let go. *)
Definition lockedFS : OS.FS :=
  OS.mkFS {[ "/etc/cdi/rdma-cdi_rdma_dev1.json" := OS.File "test" ]}
          {[ "/etc/cdi/rdma-cdi_rdma_dev1.json" ]}.

(** Both spec files of a resource, the second of which the system does
    not let go. *)
Definition halfLockedFS : OS.FS :=
  OS.mkFS {[ "/etc/cdi/rdma-cdi_rdma_dev1.json" := OS.File "test";
             "/etc/cdi/rdma-cdi_rdma_dev1.yaml" := OS.File "test" ]}
          {[ "/etc/cdi/rdma-cdi_rdma_dev1.yaml" ]}.

(** The spec file of another tool, next to none of this tool. *)
Definition otherToolFS : OS.FS :=
  OS.mkFS {[ "/etc/cdi/nvidia.json" := OS.File "test" ]} ∅.

(** A host with two PCI functions, one of them an RDMA device with a
    network interface. *)
Definition busHost : Host :=
  {| rdmamap_GetRdmaDevicesForPcidev := λ pci,
       if decide (pci = "0000:17:00.0") then ["mlx5_0"] else [];
     rdmamap_GetRdmaCharDevices := λ _,
       ["/dev/infiniband/rdma_cm"; "/dev/infiniband/umad0"; "/dev/infiniband/uverbs0"];
     os_Stat := λ _, OS.Done tt;
     os_Lstat := λ _, OS.Done tt;
     os_ReadDir := λ dir,
       if decide (dir = "/sys/bus/pci/devices")
       then OS.Done ["0000:00:1f.0"; "0000:17:00.0"]
       else if decide (dir = "/sys/bus/pci/devices/0000:17:00.0/net")
            then OS.Done ["enp23s0f0np0"]
            else OS.Failed OS.ENOENT;
     os_Readlink := λ link,
       if decide (link = "/sys/class/net/enp23s0f0np0/device")
       then OS.Done "../../../0000:17:00.0"
       else OS.Failed OS.ENOENT;
     os_ReadFile := λ file,
       if decide (file = "/sys/module/rdma_cm/parameters/net_ns_mode")
       then OS.Done "exclusive"
       else OS.Failed OS.ENOENT;
     netlink_LinkByName := λ _,
       Ok {| Netlink.EncapType := "ether"; Netlink.OperState := Netlink.OperUp;
             Netlink.MTU := 1500 |} |}.

(** A host whose attribute files hold a vendor number as the kernel
    writes it, with the line feed. *)
Definition sysfsHost : Host :=
  {| rdmamap_GetRdmaDevicesForPcidev := λ _, [];
     rdmamap_GetRdmaCharDevices := λ _, [];
     os_Stat := λ _, OS.Failed OS.ENOENT;
     os_Lstat := λ _, OS.Failed OS.ENOENT;
     os_ReadDir := λ _, OS.Failed OS.ENOENT;
     os_Readlink := λ _, OS.Failed OS.ENOENT;
     os_ReadFile := λ _, OS.Done ("0x15b3" +:+ String "010"%char "");
     netlink_LinkByName := λ _, Err "Link not found" |}.

Definition busLinkHost : Rdma.LinkHost :=
  {| Rdma.host_of := busHost; Rdma.lstat_isSymlink := λ _, true |}.

End Samples.

(** * Properties *)

(** ** The library models on the examples of the Go documentation *)

Section LibraryExamples.
Import Filepath.

Example Clean_examples :
  map Clean ["a/c"; "a//c"; "a/c/."; "a/c/b/.."; "/../a/c"; "/../a/b/../././/c"; ""]
  = ["a/c"; "a/c"; "a/c"; "a/c"; "/a/c"; "/a/c"; "."].
Proof. reflexivity. Qed.

Example Join_examples :
  (Join ["a"; "b"], Join ["a"; ""], Join [""; "b"], Join ["/"; "a"], Join ["a/"; "b"],
   Join ["a/b"; "../../../xyz"])
  = ("a/b", "a", "b", "/a", "a/b", "../xyz").
Proof. reflexivity. Qed.

Example Base_examples :
  map Base ["/foo/bar/baz.js"; "/foo/bar/baz"; "/foo/bar/baz/"; "dev.txt";
            "../todo.txt"; ".."; "."; "/"; ""]
  = ["baz.js"; "baz"; "baz"; "dev.txt"; "todo.txt"; ".."; "."; "/"; "."].
Proof. reflexivity. Qed.

Example Ext_examples :
  map Ext ["index"; "index.js"; "main.test.js"] = [""; ".js"; ".js"].
Proof. reflexivity. Qed.

Example Match_examples :
  (Match "/home/catch/*" "/home/catch/foo", Match "/home/catch/*" "/home/catch/foo/bar",
   Match "/home/?opher" "/home/gopher", Match "/home/\*" "/home/*",
   Match "a[" "a", Match "[a-c]x[^0-9]" "bxy")
  = (Some true, Some false, Some true, Some true, None, Some true).
Proof. reflexivity. Qed.

Example strings_examples :
  (Str.ReplaceAll "oink oink oink" "oink" "moo", Str.ToLower "Hello, GOPHERS",
   Str.TrimSpace "   Hello, Gophers  ", Str.Contains "seafood" "foo",
   Str.Contains "seafood" "bar", Str.Contains "" "")
  = ("moo moo moo", "hello, gophers", "Hello, Gophers", true, false, true).
Proof. reflexivity. Qed.

End LibraryExamples.

(** ** The tests of the repository *)

Section RepositoryTests.
Import Cdi Samples.

Example TestSpecFileName :
  [SpecFileName "rdma" "pci-0000-17-00-0" "yaml";
   SpecFileName "rdma" "enp23s0f0np0" "json";
   SpecFileName "example.io/rdma" "dev1" "yaml";
   SpecFileName "nvidia.com" "gpu0" "json"]
  = ["rdma-cdi_rdma_pci-0000-17-00-0.yaml";
     "rdma-cdi_rdma_enp23s0f0np0.json";
     "rdma-cdi_example.io_rdma_dev1.yaml";
     "rdma-cdi_nvidia.com_gpu0.json"].
Proof. reflexivity. Qed.

Example TestCleanupSpecs_ExactMatch :
  let out := CleanupSpecs seedFS "/tmp/d" "rdma" "dev1" false in
  out.1.2 = ["/tmp/d/rdma-cdi_rdma_dev1.json"; "/tmp/d/rdma-cdi_rdma_dev1.yaml"]
  ∧ out.2 = None
  ∧ Forall (λ f, is_Some (OS.nodes out.1.1 !! f))
      ["/tmp/d/rdma-cdi_rdma_dev2.yaml"; "/tmp/d/nvidia-cdi_rdma_gpu0.yaml";
       "/tmp/d/other-tool.json"].
Proof. vm_compute. repeat split; repeat constructor; by eexists. Qed.

Example TestCleanupSpecs_PrefixScope :
  let out := CleanupSpecs seedFS "/tmp/d" "rdma" "" false in
  length out.1.2 = 3
  ∧ out.2 = None
  ∧ Forall (λ f, is_Some (OS.nodes out.1.1 !! f))
      ["/tmp/d/rdma-cdi_custom_dev3.json"; "/tmp/d/nvidia-cdi_rdma_gpu0.yaml";
       "/tmp/d/other-tool.json"; "/tmp/d/rdma-cdi_rdma_dev1.txt";
       "/tmp/d/rdma-cdi_rdma_dev1.bak"].
Proof. vm_compute. repeat split; repeat constructor; by eexists. Qed.

Example TestCleanupSpecs_DryRun :
  let out := CleanupSpecs seedFS "/tmp/d" "rdma" "" true in
  length out.1.2 = 3 ∧ out.2 = None ∧ length (OS.names out.1.1) = 8.
Proof. vm_compute. repeat split. Qed.

Example TestCleanupSpecs_EmptyDir :
  CleanupSpecs emptyFS "/tmp/d" "rdma" "" false = (emptyFS, [], None).
Proof. reflexivity. Qed.

Example TestCreateCDISpec_InvalidFormat :
  (CreateCDISpec "1.0.0" sampleIndent sampleMarshal sampleToYAML emptyFS
     "rdma" "x" sampleDevices "/tmp/d" "xml").2
  = Some ("cannot marshal CDI spec: unsupported format " +:+ Fmt.Quote "xml"
          +:+ ": use json or yaml").
Proof. reflexivity. Qed.

Example TestVerifyRdmaDevices_MissingTypes :
  Rdma.VerifyRdmaDevices ["/dev/infiniband/uverbs0"]
  = Some ("required RDMA device type " +:+ Fmt.Quote "rdma_cm" +:+ " not found")
  ∧ Rdma.VerifyRdmaDevices (Types.RdmaDevices fullDevice) = None.
Proof. split; reflexivity. Qed.

End RepositoryTests.

(** ** Diagnostics reports *)

Section DoctorFacts.
Import Types Doctor Samples.

Lemma add_Results r cr : Results (add r cr) = (Results r ++ [cr])%list.
Proof. unfold add. cbn zeta. by repeat case_decide. Qed.

Lemma add_HasWarn r cr : HasWarn (add r cr) = HasWarn r || is_sev Warn cr.
Proof.
  unfold add, is_sev. cbn zeta. destruct (decide (Sev cr = Warn)) as [E|E].
  - rewrite bool_decide_eq_true_2 by done. by rewrite orb_true_r.
  - rewrite bool_decide_eq_false_2 by done. rewrite orb_false_r. by case_decide.
Qed.

Lemma add_HasFail r cr : HasFail (add r cr) = HasFail r || is_sev Fail cr.
Proof.
  unfold add, is_sev. cbn zeta. destruct (decide (Sev cr = Warn)) as [E|E].
  - rewrite bool_decide_eq_false_2 by (by rewrite E). by rewrite orb_false_r.
  - destruct (decide (Sev cr = Fail)) as [E'|E'].
    + rewrite bool_decide_eq_true_2 by done. by rewrite orb_true_r.
    + rewrite bool_decide_eq_false_2 by done. by rewrite orb_false_r.
Qed.

Lemma add_flags_ok r cr : flags_ok r → flags_ok (add r cr).
Proof.
  intros [Hw Hf]. split.
  - rewrite add_HasWarn, add_Results, existsb_app, Hw. simpl.
    by rewrite orb_false_r.
  - rewrite add_HasFail, add_Results, existsb_app, Hf. simpl.
    by rewrite orb_false_r.
Qed.

Lemma empty_flags_ok : flags_ok empty.
Proof. by split. Qed.

Lemma foldl_add_Results crs : ∀ r,
  Results (foldl add r crs) = (Results r ++ crs)%list.
Proof.
  induction crs as [|cr crs IH]; intros r; simpl.
  - by rewrite app_nil_r.
  - by rewrite IH, add_Results, <- app_assoc.
Qed.

Lemma foldl_add_flags_ok crs : ∀ r, flags_ok r → flags_ok (foldl add r crs).
Proof.
  induction crs as [|cr crs IH]; intros r Hr; simpl; [done|].
  by apply IH, add_flags_ok.
Qed.

Lemma merge_from_Results reports : ∀ m,
  Results (foldl (λ merged r, foldl add merged (Results r)) m reports)
  = (Results m ++ concat (map Results reports))%list.
Proof.
  induction reports as [|r reports IH]; intros m; simpl.
  - by rewrite app_nil_r.
  - by rewrite IH, foldl_add_Results, <- app_assoc.
Qed.

Lemma merge_from_flags_ok reports : ∀ m,
  flags_ok m →
  flags_ok (foldl (λ merged r, foldl add merged (Results r)) m reports).
Proof.
  induction reports as [|r reports IH]; intros m Hm; simpl; [done|].
  by apply IH, foldl_add_flags_ok.
Qed.

Lemma MergeReports_Results reports :
  Results (MergeReports reports) = concat (map Results reports).
Proof. unfold MergeReports. by rewrite merge_from_Results. Qed.

Lemma MergeReports_flags_ok reports : flags_ok (MergeReports reports).
Proof. apply merge_from_flags_ok, empty_flags_ok. Qed.

Lemma existsb_is_sev_false s (crs : list CheckResult) :
  Forall (λ cr, Sev cr ≠ s) crs → existsb (is_sev s) crs = false.
Proof.
  induction 1 as [|cr crs Hcr _ IH]; simpl; [done|].
  rewrite IH, orb_false_r. unfold is_sev. by apply bool_decide_eq_false.
Qed.

Lemma existsb_is_sev_true s (crs : list CheckResult) cr :
  cr ∈ crs → Sev cr = s → existsb (is_sev s) crs = true.
Proof.
  intros Hin Hs. apply existsb_exists. exists cr. split.
  - by apply list_elem_of_In.
  - unfold is_sev. by apply bool_decide_eq_true.
Qed.

Lemma checkRdmaDevices_flags_ok r dev : flags_ok r → flags_ok (checkRdmaDevices r dev).
Proof.
  intros Hr. unfold checkRdmaDevices.
  case_decide; [by apply add_flags_ok|].
  destruct (Rdma.VerifyRdmaDevices _); by apply add_flags_ok.
Qed.

Lemma checkKernelModules_flags_ok h r : flags_ok r → flags_ok (checkKernelModules h r).
Proof. intros Hr. unfold checkKernelModules. case_decide; by apply add_flags_ok. Qed.

Lemma checkLinkAttrs_flags_ok h r dev : flags_ok r → flags_ok (checkLinkAttrs h r dev).1.
Proof.
  intros Hr. unfold checkLinkAttrs.
  destruct (netlink_LinkByName h _) as [attrs|err]; simpl; [|by apply add_flags_ok].
  destruct (Netlink.OperState attrs); simpl; by apply add_flags_ok.
Qed.

Lemma checkLinkAttrs_PciAddress h r dev :
  PciAddress (checkLinkAttrs h r dev).2 = PciAddress dev.
Proof.
  unfold checkLinkAttrs.
  destruct (netlink_LinkByName h _) as [attrs|err]; simpl; [|done].
  by destruct (Netlink.OperState attrs).
Qed.

Lemma checkNetInterface_flags_ok h r dev :
  flags_ok r → flags_ok (checkNetInterface h r dev).1.
Proof.
  intros Hr. unfold checkNetInterface. case_decide; simpl.
  - by apply checkLinkAttrs_flags_ok, add_flags_ok.
  - by apply add_flags_ok.
Qed.

Lemma checkRdmaNetnsMode_flags_ok h r pci :
  flags_ok r → flags_ok (checkRdmaNetnsMode h r pci).
Proof.
  intros Hr. unfold checkRdmaNetnsMode.
  destruct (netns_mode_data h); [|by apply add_flags_ok].
  repeat case_bool_decide; by apply add_flags_ok.
Qed.

Lemma DiagnoseDevice_flags_ok h dev : flags_ok (DiagnoseDevice h dev).1.
Proof.
  unfold DiagnoseDevice.
  pose proof (checkNetInterface_flags_ok h
                (checkKernelModules h (checkRdmaDevices empty dev)) dev) as Hn.
  destruct (checkNetInterface h _ dev) as [r dev'] eqn:E. simpl in *.
  apply checkRdmaNetnsMode_flags_ok, Hn, checkKernelModules_flags_ok,
    checkRdmaDevices_flags_ok, empty_flags_ok.
Qed.

(** Every check after the first only appends to the report. *)
Lemma checkKernelModules_Results h r :
  ∃ cr, Results (checkKernelModules h r) = (Results r ++ [cr])%list
        ∧ Check cr = "kernel_modules".
Proof.
  unfold checkKernelModules. case_decide; eexists; rewrite add_Results; eauto.
Qed.

Lemma checkNetInterface_Results h r dev :
  ∃ crs, Results (checkNetInterface h r dev).1 = (Results r ++ crs)%list
         ∧ Forall (λ cr, Check cr ≠ "rdma_devices") crs.
Proof.
  unfold checkNetInterface, checkLinkAttrs. case_decide; cbn [fst].
  - destruct (netlink_LinkByName h _) as [attrs|err]; cbn [fst].
    + destruct (Netlink.OperState attrs); cbn [fst];
        eexists [_; _]; rewrite !add_Results, <- app_assoc;
        (split; [reflexivity|]); repeat constructor; cbn [Check]; discriminate.
    + eexists [_; _]; rewrite !add_Results, <- app_assoc;
        (split; [reflexivity|]); repeat constructor; cbn [Check]; discriminate.
  - eexists [_]; rewrite add_Results.
    split; [reflexivity|]. repeat constructor; cbn [Check]; discriminate.
Qed.

Lemma checkRdmaNetnsMode_Results h r pci :
  ∃ cr, Results (checkRdmaNetnsMode h r pci) = (Results r ++ [cr])%list
        ∧ Check cr = "rdma_netns_mode".
Proof.
  unfold checkRdmaNetnsMode.
  destruct (netns_mode_data h); [|eexists; rewrite add_Results; eauto].
  repeat case_bool_decide; eexists; rewrite add_Results; eauto.
Qed.

(** The report of [DiagnoseDevice] starts with the result of the
    character-device check, and no later result carries its name. *)
Lemma DiagnoseDevice_Results h dev :
  ∃ rest,
    Results (DiagnoseDevice h dev).1 = (Results (checkRdmaDevices empty dev) ++ rest)%list
    ∧ Forall (λ cr, Check cr ≠ "rdma_devices") rest.
Proof.
  unfold DiagnoseDevice.
  set (r1 := checkRdmaDevices empty dev).
  destruct (checkKernelModules_Results h r1) as (cr2 & E2 & N2).
  destruct (checkNetInterface_Results h (checkKernelModules h r1) dev) as (crs3 & E3 & N3).
  destruct (checkNetInterface h _ dev) as [r3 dev'] eqn:E. simpl in *.
  destruct (checkRdmaNetnsMode_Results h r3 (PciAddress dev')) as (cr4 & E4 & N4).
  exists ([cr2] ++ crs3 ++ [cr4])%list. split.
  - rewrite E4, E3, E2. by rewrite <- !app_assoc.
  - apply Forall_app. split; [|apply Forall_app; split; [done|]].
    + constructor; [|done]. rewrite N2. discriminate.
    + constructor; [|done]. rewrite N4. discriminate.
Qed.


Lemma existsb_is_sev s (crs : list CheckResult) :
  existsb (is_sev s) crs = true ↔ ∃ cr, cr ∈ crs ∧ Sev cr = s.
Proof.
  rewrite existsb_exists. unfold is_sev. split.
  - intros (cr & Hin & Hs). exists cr. split; [by apply list_elem_of_In|].
    by apply bool_decide_eq_true in Hs.
  - intros (cr & Hin & Hs). exists cr. split; [by apply list_elem_of_In|].
    by apply bool_decide_eq_true.
Qed.

Lemma flags_ok_inv r : flags_ok r → flags_inv r.
Proof.
  intros [Hw Hf]. unfold flags_inv, has_severity.
  rewrite Hw, Hf. split; apply existsb_is_sev.
Qed.

Lemma checkRdmaDevices_empty dev :
  Results (checkRdmaDevices empty dev) =
    [if decide (length (RdmaDevices dev) = 0) then noDevicesResult dev
     else match Rdma.VerifyRdmaDevices (RdmaDevices dev) with
          | Some err => missingTypesResult dev err
          | None => allPresentResult dev
          end].
Proof.
  unfold checkRdmaDevices. case_decide; [by rewrite add_Results|].
  destruct (Rdma.VerifyRdmaDevices _); by rewrite add_Results.
Qed.

(** The result of the character-device check is in the report, and it is
    the only result under that name. *)
Lemma DiagnoseDevice_rdma_result h dev cr0 :
  Results (checkRdmaDevices empty dev) = [cr0] →
  Check cr0 = "rdma_devices" →
  cr0 ∈ Results (DiagnoseDevice h dev).1
  ∧ (∀ cr, cr ∈ Results (DiagnoseDevice h dev).1 → Check cr = "rdma_devices" → cr = cr0).
Proof.
  intros E0 N0. destruct (DiagnoseDevice_Results h dev) as (rest & E & Hrest).
  rewrite E, E0. split; [by left|].
  intros cr Hin Hn. apply elem_of_app in Hin as [Hin|Hin].
  - by apply list_elem_of_singleton in Hin.
  - rewrite Forall_forall in Hrest. by destruct (Hrest cr Hin).
Qed.

Lemma DiagnoseDevice_HasFail h dev cr :
  cr ∈ Results (DiagnoseDevice h dev).1 → Sev cr = Fail →
  HasFail (DiagnoseDevice h dev).1 = true.
Proof.
  intros Hin Hs. destruct (DiagnoseDevice_flags_ok h dev) as [_ ->].
  by eapply existsb_is_sev_true.
Qed.

(** C6: [MergeReports] returns the concatenation, in argument order, of
    the result lists of its arguments; its [HasWarn] ([HasFail]) flag is
    the disjunction over all these results of "the severity is Warn"
    ("is Fail").  In particular: all results Pass gives both flags false;
    a Warn among results that are not Fail gives [HasWarn] alone; a Fail
    among results that are not Warn gives [HasFail] alone. *)
Theorem MergeReports_concat_or (reports : list Report) :
  let all := concat (map Results reports) in
  let merged := MergeReports reports in
  Results merged = all
  ∧ HasWarn merged = existsb (is_sev Warn) all
  ∧ HasFail merged = existsb (is_sev Fail) all
  ∧ (Forall (λ cr, Sev cr = Pass) all →
     HasWarn merged = false ∧ HasFail merged = false)
  ∧ (∀ cr, cr ∈ all → Sev cr = Warn → Forall (λ cr, Sev cr ≠ Fail) all →
     HasWarn merged = true ∧ HasFail merged = false)
  ∧ (∀ cr, cr ∈ all → Sev cr = Fail → Forall (λ cr, Sev cr ≠ Warn) all →
     HasWarn merged = false ∧ HasFail merged = true).
Proof.
  intros all merged.
  assert (Results merged = all) as ER by apply MergeReports_Results.
  destruct (MergeReports_flags_ok reports) as [Hw Hf].
  fold merged in Hw, Hf. rewrite ER in Hw, Hf.
  split; [done|]. split; [done|]. split; [done|].
  rewrite Hw, Hf. repeat split.
  - apply existsb_is_sev_false. eapply Forall_impl; [done|]. by intros cr ->.
  - apply existsb_is_sev_false. eapply Forall_impl; [done|]. by intros cr ->.
  - by eapply existsb_is_sev_true.
  - by apply existsb_is_sev_false.
  - by apply existsb_is_sev_false.
  - by eapply existsb_is_sev_true.
Qed.

Lemma MergeReports_concat_or_witness :
  (HasWarn (MergeReports [add empty passResult]) = false
   ∧ HasFail (MergeReports [add empty passResult]) = false)
  ∧ (HasWarn (MergeReports [add empty passResult; add empty warnResult]) = true
     ∧ HasFail (MergeReports [add empty passResult; add empty warnResult]) = false)
  ∧ (HasWarn (MergeReports [add empty passResult; add empty failResult]) = false
     ∧ HasFail (MergeReports [add empty passResult; add empty failResult]) = true).
Proof.
  split; [|split].
  - apply (MergeReports_concat_or [add empty passResult]).
    repeat constructor.
  - apply (MergeReports_concat_or [add empty passResult; add empty warnResult])
      with (cr := warnResult).
    + right. left.
    + reflexivity.
    + repeat constructor; discriminate.
  - apply (MergeReports_concat_or [add empty passResult; add empty failResult])
      with (cr := failResult).
    + right. left.
    + reflexivity.
    + repeat constructor; discriminate.
Defined.

Lemma flags_inv_ok r : flags_inv r → flags_ok r.
Proof.
  intros [Hw Hf]. unfold has_severity in *.
  rewrite <- existsb_is_sev in Hw, Hf.
  assert (∀ a b : bool, (a = true ↔ b = true) → a = b) as Hb.
  { intros [] [] [H1 H2]; try done; [symmetry; by apply H1|by apply H2]. }
  split; by apply Hb.
Qed.

(** C9: every report the diagnostics produce keeps the invariant that
    [HasWarn] ([HasFail]) is true exactly when some result of the report
    has severity Warn (Fail): the empty report has it, [add] preserves it
    for every appended result, and the reports of [DiagnoseDevice] and
    [MergeReports] have it. *)
Theorem Report_flags_invariant :
  flags_inv empty
  ∧ (∀ r cr, flags_inv r → flags_inv (add r cr))
  ∧ (∀ h dev, flags_inv (DiagnoseDevice h dev).1)
  ∧ (∀ reports, flags_inv (MergeReports reports)).
Proof.
  split; [apply flags_ok_inv, empty_flags_ok|].
  split; [|split].
  - intros r cr Hr. by apply flags_ok_inv, add_flags_ok, flags_inv_ok.
  - intros h dev. apply flags_ok_inv, DiagnoseDevice_flags_ok.
  - intros reports. apply flags_ok_inv, MergeReports_flags_ok.
Qed.

Lemma Report_flags_invariant_witness :
  flags_inv (add empty passResult)
  ∧ flags_inv (add (add empty passResult) warnResult).
Proof.
  destruct Report_flags_invariant as (H0 & Hadd & _).
  split; repeat apply Hadd; exact H0.
Defined.

(** C8: a device without character device paths gets a Fail result of
    the check [rdma_devices], carrying its PCI address, and [HasFail];
    a device whose paths fail the required-types validation gets a Fail
    result of that check with the validation error in its message; a
    device passing the validation gets a Pass result.  In each case this
    is the only result of that check in the report. *)
Theorem DiagnoseDevice_rdma_devices (h : Host) (dev : RdmaDevice) :
  let report := (DiagnoseDevice h dev).1 in
  let reports_only cr0 :=
    cr0 ∈ Results report
    ∧ ∀ cr, cr ∈ Results report → Check cr = "rdma_devices" → cr = cr0 in
  (RdmaDevices dev = [] →
   reports_only (noDevicesResult dev) ∧ HasFail report = true)
  ∧ (∀ err, RdmaDevices dev ≠ [] →
            Rdma.VerifyRdmaDevices (RdmaDevices dev) = Some err →
            reports_only (missingTypesResult dev err) ∧ HasFail report = true)
  ∧ (RdmaDevices dev ≠ [] →
     Rdma.VerifyRdmaDevices (RdmaDevices dev) = None →
     reports_only (allPresentResult dev)).
Proof.
  intros report reports_only. subst report reports_only.
  pose proof (checkRdmaDevices_empty dev) as E.
  split; [|split].
  - intros Hnil. rewrite Hnil in E. simpl in E.
    destruct (DiagnoseDevice_rdma_result h dev _ E eq_refl) as [Hin Honly].
    split; [done|]. by eapply DiagnoseDevice_HasFail.
  - intros err Hne Hv. rewrite Hv in E.
    rewrite decide_False in E by (by destruct (RdmaDevices dev)).
    destruct (DiagnoseDevice_rdma_result h dev _ E eq_refl) as [Hin Honly].
    split; [done|]. by eapply DiagnoseDevice_HasFail.
  - intros Hne Hv. rewrite Hv in E.
    rewrite decide_False in E by (by destruct (RdmaDevices dev)).
    exact (DiagnoseDevice_rdma_result h dev _ E eq_refl).
Qed.

Lemma DiagnoseDevice_rdma_devices_witness :
  (noDevicesResult brokenDevice ∈ Results (DiagnoseDevice bareHost brokenDevice).1
   ∧ HasFail (DiagnoseDevice bareHost brokenDevice).1 = true)
  ∧ (missingTypesResult uverbsOnlyDevice
       ("required RDMA device type " +:+ Fmt.Quote "rdma_cm" +:+ " not found")
       ∈ Results (DiagnoseDevice bareHost uverbsOnlyDevice).1
     ∧ HasFail (DiagnoseDevice bareHost uverbsOnlyDevice).1 = true)
  ∧ allPresentResult fullDevice ∈ Results (DiagnoseDevice bareHost fullDevice).1.
Proof.
  split; [|split].
  - destruct (DiagnoseDevice_rdma_devices bareHost brokenDevice) as (H & _ & _).
    destruct (H eq_refl) as [[Hin _] Hf]. exact (conj Hin Hf).
  - destruct (DiagnoseDevice_rdma_devices bareHost uverbsOnlyDevice) as (_ & H & _).
    destruct (H ("required RDMA device type " +:+ Fmt.Quote "rdma_cm" +:+ " not found"))
      as [[Hin _] Hf]; [discriminate|reflexivity|].
    exact (conj Hin Hf).
  - destruct (DiagnoseDevice_rdma_devices bareHost fullDevice) as (_ & _ & H).
    destruct H as [Hin _]; [discriminate|reflexivity|]. exact Hin.
Defined.

End DoctorFacts.

(** ** Strings *)

Section StringFacts.

Lemma str_app_nil_r (s : string) : s +:+ "" = s.
Proof. induction s as [|c s IH]; simpl; [done|]. by rewrite IH. Qed.

Lemma str_app_assoc (s t u : string) : (s +:+ t) +:+ u = s +:+ t +:+ u.
Proof. induction s as [|c s IH]; simpl; [done|]. by rewrite IH. Qed.

Lemma str_app_cons c (s t : string) : String c s +:+ t = String c (s +:+ t).
Proof. reflexivity. Qed.

Lemma str_length_app (s t : string) :
  String.length (s +:+ t) = String.length s + String.length t.
Proof. induction s as [|c s IH]; simpl; [done|]. by rewrite IH. Qed.

Lemma prefix_nil (s : string) : String.prefix "" s = true.
Proof. by destruct s. Qed.

Lemma prefix_app (s t : string) : String.prefix s (s +:+ t) = true.
Proof.
  induction s as [|c s IH]; simpl; [apply prefix_nil|].
  by destruct (ascii_dec c c).
Qed.

Lemma prefix_inv (s t : string) :
  String.prefix s t = true → ∃ u, t = s +:+ u.
Proof.
  revert t. induction s as [|c s IH]; intros t H; simpl in *.
  - by exists t.
  - destruct t as [|d t]; [done|]. simpl in H.
    destruct (ascii_dec c d) as [->|]; [|done].
    destruct (IH _ H) as [u ->]. by exists u.
Qed.

Lemma ReplaceAll_slash (s : string) :
  Str.ReplaceAll s "/" "_" = Str.map slash_to_underscore s.
Proof.
  unfold Str.ReplaceAll. rewrite decide_False by done.
  induction s as [|c s IH]; [done|].
  cbn [Str.replace_go Str.map String.prefix String.length].
  unfold slash_to_underscore at 1.
  destruct (ascii_dec "/" c) as [<-|Hne].
  - rewrite prefix_nil, decide_True by done. simpl. by rewrite IH.
  - rewrite decide_False by congruence. by rewrite IH.
Qed.

Lemma map_length f s : String.length (Str.map f s) = String.length s.
Proof. induction s as [|c s IH]; simpl; [done|]. by rewrite IH. Qed.

Lemma map_get f s : ∀ i, String.get i (Str.map f s) = f <$> String.get i s.
Proof.
  induction s as [|c s IH]; intros i; simpl; [done|].
  destruct i; [done|]. apply IH.
Qed.

Lemma map_slash_diff s :
  Str.diff s (Str.map slash_to_underscore s) = Str.count "/" s.
Proof.
  induction s as [|c s IH]; simpl; [done|]. rewrite IH. f_equal.
  unfold slash_to_underscore.
  destruct (decide (c = "/"%char)) as [->|Hne]; [done|].
  by rewrite decide_True.
Qed.

Lemma map_slash_count s : Str.count "/" (Str.map slash_to_underscore s) = 0.
Proof.
  induction s as [|c s IH]; simpl; [done|]. rewrite IH.
  unfold slash_to_underscore.
  destruct (decide (c = "/"%char)) as [->|Hne]; [done|].
  by rewrite decide_False.
Qed.

(** C3: the file name is a function of its three arguments and has the
    form [rdma-cdi_<safePrefix>_<name>.<format>], where [safePrefix] is
    the prefix with every slash replaced by an underscore: it has the
    length of the prefix, agrees with it at every position that does not
    hold a slash, differs from it at exactly as many positions as the
    prefix has slashes, and has no slash left; name and format appear as
    they are. *)
Theorem SpecFileName_form (prefix name format : string) :
  let safePrefix := Str.map slash_to_underscore prefix in
  Cdi.SpecFileName prefix name format
  = "rdma-cdi_" +:+ safePrefix +:+ "_" +:+ name +:+ "." +:+ format
  ∧ String.length safePrefix = String.length prefix
  ∧ (∀ i, String.get i safePrefix = slash_to_underscore <$> String.get i prefix)
  ∧ Str.diff prefix safePrefix = Str.count "/" prefix
  ∧ Str.count "/" safePrefix = 0.
Proof.
  intros safePrefix. subst safePrefix.
  split; [|split; [|split; [|split]]].
  - unfold Cdi.SpecFileName. cbn zeta. by rewrite ReplaceAll_slash.
  - apply map_length.
  - intros i. apply map_get.
  - apply map_slash_diff.
  - apply map_slash_count.
Qed.

End StringFacts.

(** ** Validation of the character devices *)

Section RdmaFacts.
Import Types Rdma Samples.

Lemma found_in_spec required paths :
  found_in required paths = true
  ↔ ∃ p, p ∈ paths ∧ Str.Contains (Filepath.Base p) required = true.
Proof.
  induction paths as [|q paths IH]; simpl.
  - split; [done|]. intros (p & Hp & _). by apply elem_of_nil in Hp.
  - destruct (Str.Contains (Filepath.Base q) required) eqn:E.
    + split; [|done]. intros _. exists q. split; [left|done].
    + rewrite IH. split.
      * intros (p & Hp & Hc). exists p. split; [by right|done].
      * intros (p & Hp & Hc). apply elem_of_cons in Hp as [->|Hp]; [congruence|].
        by exists p.
Qed.

Lemma verify_loop_None requireds paths :
  verify_loop requireds paths = None
  ↔ ∀ required, required ∈ requireds → found_in required paths = true.
Proof.
  induction requireds as [|r requireds IH]; simpl.
  - split; [|done]. intros _ required Hr. by apply elem_of_nil in Hr.
  - destruct (found_in r paths) eqn:E.
    + rewrite IH. split.
      * intros H required Hr. apply elem_of_cons in Hr as [->|Hr]; auto.
      * intros H required Hr. apply H. by right.
    + split; [done|]. intros H. rewrite H in E; [done|left].
Qed.

Lemma found_in_ext required paths paths' :
  (∀ p, p ∈ paths ↔ p ∈ paths') → found_in required paths' = found_in required paths.
Proof.
  intros Hsame.
  destruct (found_in required paths) eqn:E.
  - apply found_in_spec in E as (p & Hp & Hc). apply found_in_spec.
    exists p. split; [by apply Hsame|done].
  - destruct (found_in required paths') eqn:E'; [|done].
    apply found_in_spec in E' as (p & Hp & Hc).
    rewrite <- E. symmetry. apply found_in_spec. exists p.
    split; [by apply Hsame|done].
Qed.

Lemma verify_loop_ext requireds paths paths' :
  (∀ p, p ∈ paths ↔ p ∈ paths') →
  verify_loop requireds paths' = verify_loop requireds paths.
Proof.
  intros Hsame. induction requireds as [|r requireds IH]; simpl; [done|].
  by rewrite (found_in_ext r paths paths'), IH.
Qed.

Lemma VerifyRdmaDevices_fails paths :
  is_Some (VerifyRdmaDevices paths) ↔ missing_type paths.
Proof.
  unfold VerifyRdmaDevices, missing_type. fold RequiredRdmaDevices.
  generalize RequiredRdmaDevices as requireds.
  induction requireds as [|r requireds IH]; simpl.
  - split; [by intros [? ?]|]. intros (required & Hr & _). by apply elem_of_nil in Hr.
  - destruct (found_in r paths) eqn:E.
    + rewrite IH. split.
      * intros (required & Hr & H). exists required. split; [by right|done].
      * intros (required & Hr & H). exists required. split; [|done].
        apply elem_of_cons in Hr as [->|Hr]; [|done].
        apply found_in_spec in E as (p & Hp & Hc). rewrite (H p Hp) in Hc. done.
    + split; [|by eauto]. intros _. exists r. split; [left|].
      intros p Hp. destruct (Str.Contains _ _) eqn:Hc; [|done].
      rewrite <- E. symmetry. apply found_in_spec. by exists p.
Qed.

(** C2: the validation of a list of character-device paths fails exactly
    when one of the tokens [rdma_cm], [umad], [uverbs] occurs in the base
    name of no path of the list, and succeeds exactly when every token
    occurs in the base name of some path; two lists with the same members
    (whatever their order and repetitions) get the same answer; and
    [DiscoverByPCI] fails exactly when the paths found for the address
    miss a token. *)
Theorem VerifyRdmaDevices_required_types (paths : list string) :
  (is_Some (VerifyRdmaDevices paths) ↔ missing_type paths)
  ∧ (VerifyRdmaDevices paths = None
     ↔ ∀ required, required ∈ ["rdma_cm"; "umad"; "uverbs"] →
         ∃ p, p ∈ paths ∧ Str.Contains (Filepath.Base p) required = true)
  ∧ (∀ paths', (∀ p, p ∈ paths ↔ p ∈ paths') →
               VerifyRdmaDevices paths' = VerifyRdmaDevices paths)
  ∧ (∀ h pciAddress, GetRdmaCharDevices h pciAddress = paths →
       ((∃ msg, DiscoverByPCI h pciAddress = Err msg) ↔ missing_type paths)
       ∧ (¬ missing_type paths →
          DiscoverByPCI h pciAddress = Ok (buildRdmaDevice h pciAddress paths))).
Proof.
  split; [apply VerifyRdmaDevices_fails|].
  split; [|split].
  - unfold VerifyRdmaDevices. rewrite verify_loop_None.
    split; intros H required Hr; apply found_in_spec, H, Hr.
  - intros paths' Hsame. by apply verify_loop_ext.
  - intros h pciAddress Hpaths.
    pose proof (VerifyRdmaDevices_fails paths) as Hv.
    unfold DiscoverByPCI. rewrite Hpaths.
    destruct paths as [|p0 paths0].
    + rewrite decide_True by done. split; [|intros Hn; destruct Hn].
      * split; [|by eauto]. intros _. exists "rdma_cm". split; [left|].
        intros p Hp. by apply elem_of_nil in Hp.
      * exists "rdma_cm". split; [left|]. intros p Hp. by apply elem_of_nil in Hp.
    + rewrite decide_False by done.
      destruct (VerifyRdmaDevices (p0 :: paths0)) as [err|] eqn:E.
      * split; [|intros Hn; destruct Hn; apply Hv; eauto].
        split; [intros _; apply Hv; eauto|eauto].
      * split; [|done]. split; [by intros [? ?]|].
        intros Hm. apply Hv in Hm as [? ?]. done.
Qed.

Lemma VerifyRdmaDevices_required_types_witness :
  VerifyRdmaDevices
    ["/dev/infiniband/uverbs0"; "/dev/infiniband/umad0"; "/dev/infiniband/uverbs0";
     "/dev/infiniband/rdma_cm"]
  = VerifyRdmaDevices (RdmaDevices fullDevice)
  ∧ DiscoverByPCI rdmaHost "0000:17:00.0"
    = Ok (buildRdmaDevice rdmaHost "0000:17:00.0" (RdmaDevices fullDevice)).
Proof.
  destruct (VerifyRdmaDevices_required_types (RdmaDevices fullDevice))
    as (Hfail & _ & Hsame & Hdisc).
  split.
  - apply Hsame. intros p. simpl. rewrite !elem_of_cons, !elem_of_nil. tauto.
  - apply (Hdisc rdmaHost "0000:17:00.0"); [reflexivity|].
    intros Hm. apply Hfail in Hm. destruct Hm as [err Herr]. discriminate Herr.
Defined.

End RdmaFacts.

(** ** Creation of spec files *)

Section CreateFacts.
Import Types Cdi Samples.

Variable CurrentVersion : string.
Variable json_MarshalIndent : CdiSpecs.Spec → result string.
Variable json_Marshal : CdiSpecs.Spec → result string.
Variable yaml_JSONToYAML : string → result string.

Local Abbreviation marshalSpec := (Cdi.marshalSpec json_MarshalIndent json_Marshal yaml_JSONToYAML).
Local Abbreviation buildSpec := (Cdi.buildSpec CurrentVersion).
Local Abbreviation CreateCDISpec :=
  (Cdi.CreateCDISpec CurrentVersion json_MarshalIndent json_Marshal yaml_JSONToYAML).

Lemma same_files_refl fs : same_files fs fs.
Proof. by intros p data. Qed.

Lemma MkdirAll_Done fs dir fs1 :
  OS.MkdirAll fs dir = OS.Done fs1 →
  OS.nodes fs1 !! dir = Some OS.Dir ∧ same_files fs fs1
  ∧ (OS.nodes fs !! dir = None → fs1 ≠ fs).
Proof.
  unfold OS.MkdirAll. intros H.
  destruct (OS.nodes fs !! dir) as [[|data]|] eqn:E; [| done |].
  - injection H as <-. split; [done|]. split; [apply same_files_refl|]. done.
  - repeat case_decide; try done. injection H as <-. simpl.
    split; [apply lookup_insert_eq|]. split.
    + intros p data. cbn [OS.nodes]. destruct (decide (dir = p)) as [<-|Hne].
      * rewrite lookup_insert_eq, E. split; intros; done.
      * by rewrite lookup_insert_ne.
    + intros _ Heq. apply (f_equal (λ f, OS.nodes f !! dir)) in Heq.
      simpl in Heq. rewrite lookup_insert_eq, E in Heq. done.
Qed.

Lemma MkdirAll_fresh fs dir :
  OS.nodes fs !! dir = None → dir ≠ "" → dir ∉ OS.locked fs →
  ∃ fs1, OS.MkdirAll fs dir = OS.Done fs1.
Proof.
  intros E Hne Hl. unfold OS.MkdirAll. rewrite E.
  rewrite decide_False by done. rewrite decide_False by done. eauto.
Qed.

Lemma validateSpec_buildSpec prefix name devices :
  validateSpec (buildSpec prefix name devices)
  = if decide (devices = []) then Some "spec must contain at least one device" else None.
Proof.
  unfold validateSpec, Cdi.buildSpec. cbn [CdiSpecs.Kind CdiSpecs.Devices].
  rewrite decide_False.
  - rewrite length_map. destruct devices; [done|].
    rewrite decide_False by done. by rewrite decide_False.
  - intros H. apply (f_equal String.length) in H.
    rewrite str_length_app in H. simpl in H. lia.
Qed.

Lemma marshalSpec_unsupported spec format :
  unsupported format →
  marshalSpec spec format
  = Err ("unsupported format " +:+ Fmt.Quote format +:+ ": use json or yaml").
Proof.
  intros [Hj Hy]. unfold Cdi.marshalSpec. cbn zeta.
  rewrite decide_False by done. by rewrite decide_False.
Qed.

Lemma marshalSpec_supported spec format :
  (Str.ToLower format = "json" → marshalSpec spec format = json_MarshalIndent spec)
  ∧ (Str.ToLower format = "yaml" →
     marshalSpec spec format
     = match json_Marshal spec with
       | Err err => Err err
       | Ok jsonData => yaml_JSONToYAML jsonData
       end).
Proof.
  unfold Cdi.marshalSpec. cbn zeta. split; intros ->; [done|].
  by rewrite decide_False.
Qed.

(** What a rejected call returns: the error of the first failing step,
    and the file system after [MkdirAll]. *)
Lemma CreateCDISpec_rejected fs prefix name devices outputDir format :
  devices = [] ∨ unsupported format →
  match OS.MkdirAll fs outputDir with
  | OS.Failed e =>
      CreateCDISpec fs prefix name devices outputDir format
      = (fs, Some ("cannot create output directory " +:+ outputDir +:+ ": "
                   +:+ OS.PathError "mkdir" outputDir e))
  | OS.Done fs1 =>
      CreateCDISpec fs prefix name devices outputDir format
      = (fs1, Some (if decide (devices = [])
                    then "generated CDI spec is invalid: spec must contain at least one device"
                    else "cannot marshal CDI spec: unsupported format "
                         +:+ Fmt.Quote format +:+ ": use json or yaml"))
  end.
Proof.
  intros Hbad. unfold Cdi.CreateCDISpec. cbn zeta.
  destruct (OS.MkdirAll fs outputDir) as [fs1|e]; [|done].
  rewrite validateSpec_buildSpec.
  destruct (decide (devices = [])) as [->|Hne]; [done|].
  destruct Hbad as [?|Hu]; [done|]. by rewrite marshalSpec_unsupported.
Qed.

(** A successful call leaves a file under the name [SpecFileName] gives,
    in the output directory. *)
Lemma CreateCDISpec_writes fs prefix name devices outputDir format :
  (CreateCDISpec fs prefix name devices outputDir format).2 = None →
  OS.is_file (CreateCDISpec fs prefix name devices outputDir format).1
             (Filepath.Join [outputDir; SpecFileName prefix name format]).
Proof.
  unfold Cdi.CreateCDISpec. cbn zeta.
  destruct (OS.MkdirAll fs outputDir) as [fs1|e]; [|done].
  destruct (validateSpec _); [done|].
  destruct (marshalSpec _ _) as [data|err]; [|done].
  set (filePath := Filepath.Join _).
  unfold OS.WriteFile.
  destruct (OS.nodes fs1 !! filePath) as [[|old]|]; [done| |];
    case_decide; try done; intros _; exists data; apply lookup_insert_eq.
Qed.

(** C7, amended: [CreateCDISpec] returns an error and writes no file
    whenever the device list is empty or the format, put in lower case,
    is neither [json] nor [yaml].  Once the output directory is there,
    the error for an empty list is the validation error (a spec must
    contain at least one device), and otherwise the format error, whose
    message quotes the format as it was given.  For all other inputs the
    two checks pass: the document is valid and the encoder of the format
    is run. *)
Theorem CreateCDISpec_rejects fs prefix name devices outputDir format :
  let out := CreateCDISpec fs prefix name devices outputDir format in
  let spec := buildSpec prefix name devices in
  (devices = [] ∨ unsupported format → is_Some out.2 ∧ same_files fs out.1)
  ∧ (∀ fs1, OS.MkdirAll fs outputDir = OS.Done fs1 → devices = [] →
       out.2 = Some "generated CDI spec is invalid: spec must contain at least one device")
  ∧ (∀ fs1, OS.MkdirAll fs outputDir = OS.Done fs1 → devices ≠ [] → unsupported format →
       out.2 = Some ("cannot marshal CDI spec: unsupported format "
                     +:+ Fmt.Quote format +:+ ": use json or yaml"))
  ∧ (devices ≠ [] → validateSpec spec = None)
  ∧ (Str.ToLower format = "json" → marshalSpec spec format = json_MarshalIndent spec)
  ∧ (Str.ToLower format = "yaml" →
     marshalSpec spec format
     = match json_Marshal spec with
       | Err err => Err err
       | Ok jsonData => yaml_JSONToYAML jsonData
       end).
Proof.
  intros out spec. subst out spec.
  split; [|split; [|split; [|split]]].
  - intros Hbad.
    pose proof (CreateCDISpec_rejected fs prefix name devices outputDir format Hbad) as H.
    destruct (OS.MkdirAll fs outputDir) as [fs1|e] eqn:E; rewrite H; simpl.
    + split; [by eauto|]. by apply MkdirAll_Done in E as (_ & ? & _).
    + split; [by eauto|apply same_files_refl].
  - intros fs1 E ->.
    pose proof (CreateCDISpec_rejected fs prefix name [] outputDir format (or_introl eq_refl)) as H.
    rewrite E in H. by rewrite H.
  - intros fs1 E Hne Hu.
    pose proof (CreateCDISpec_rejected fs prefix name devices outputDir format (or_intror Hu)) as H.
    rewrite E in H. rewrite H. simpl. by rewrite decide_False.
  - intros Hne. rewrite validateSpec_buildSpec. by rewrite decide_False.
  - apply marshalSpec_supported.
Qed.

(** C10: [CreateCDISpec] makes the output directory before it looks at
    the document and at the format.  When that directory does not exist
    yet and can be made, a call rejected for an empty device list or for
    an unknown format returns its error with the directory created: the
    file system has changed, though no file has been written. *)
Theorem CreateCDISpec_mkdir_before_checks fs prefix name devices outputDir format :
  OS.nodes fs !! outputDir = None → outputDir ≠ "" → outputDir ∉ OS.locked fs →
  devices = [] ∨ unsupported format →
  let out := CreateCDISpec fs prefix name devices outputDir format in
  out.2 = Some (if decide (devices = [])
                then "generated CDI spec is invalid: spec must contain at least one device"
                else "cannot marshal CDI spec: unsupported format "
                     +:+ Fmt.Quote format +:+ ": use json or yaml")
  ∧ OS.nodes out.1 !! outputDir = Some OS.Dir
  ∧ out.1 ≠ fs
  ∧ same_files fs out.1.
Proof.
  intros Hnone Hne Hl Hbad out. subst out.
  destruct (MkdirAll_fresh fs outputDir Hnone Hne Hl) as [fs1 E].
  pose proof (CreateCDISpec_rejected fs prefix name devices outputDir format Hbad) as H.
  rewrite E in H. rewrite H. simpl.
  apply MkdirAll_Done in E as (Hd & Hs & Hch). auto.
Qed.

End CreateFacts.

Lemma CreateCDISpec_rejects_witness :
  let out := Cdi.CreateCDISpec "1.0.0" Samples.sampleIndent Samples.sampleMarshal
               Samples.sampleToYAML Samples.emptyFS "rdma" "x" Samples.sampleDevices
               "/etc/cdi" "xml" in
  is_Some out.2 ∧ same_files Samples.emptyFS out.1.
Proof.
  apply (CreateCDISpec_rejects "1.0.0" Samples.sampleIndent Samples.sampleMarshal
           Samples.sampleToYAML Samples.emptyFS "rdma" "x" Samples.sampleDevices
           "/etc/cdi" "xml").
  right. split; discriminate.
Defined.

(** The claim C7 as first stated fails for a format in upper case:
    [JSON] is neither [json] nor [yaml], yet the call succeeds and
    writes a file. *)
Lemma CreateCDISpec_accepts_upper_case :
  let out := Cdi.CreateCDISpec "1.0.0" Samples.sampleIndent Samples.sampleMarshal
               Samples.sampleToYAML Samples.emptyFS "rdma" "x" Samples.sampleDevices
               "/etc/cdi" "JSON" in
  Samples.sampleDevices ≠ [] ∧ "JSON" ≠ "json" ∧ "JSON" ≠ "yaml"
  ∧ out.2 = None
  ∧ OS.nodes out.1 !! "/etc/cdi/rdma-cdi_rdma_x.JSON" = Some (OS.File "{ }").
Proof. repeat split; first [discriminate | vm_compute; reflexivity]. Qed.

Lemma CreateCDISpec_mkdir_before_checks_witness :
  let out := Cdi.CreateCDISpec "1.0.0" Samples.sampleIndent Samples.sampleMarshal
               Samples.sampleToYAML Samples.emptyFS "rdma" "empty" [] "/etc/cdi" "yaml" in
  out.2 = Some "generated CDI spec is invalid: spec must contain at least one device"
  ∧ OS.nodes out.1 !! "/etc/cdi" = Some OS.Dir
  ∧ out.1 ≠ Samples.emptyFS
  ∧ same_files Samples.emptyFS out.1.
Proof.
  apply (CreateCDISpec_mkdir_before_checks "1.0.0" Samples.sampleIndent
           Samples.sampleMarshal Samples.sampleToYAML Samples.emptyFS "rdma" "empty" []
           "/etc/cdi" "yaml").
  - reflexivity.
  - discriminate.
  - vm_compute. intros H. inversion H.
  - left. reflexivity.
Defined.

(** ** Paths *)

Section PathFacts.
Import Filepath.

Lemma noslash_cons c s : noslash (String c s) ↔ c ≠ Separator ∧ noslash s.
Proof.
  unfold noslash. cbn [Str.count]. destruct (decide (c = Separator)) as [->|Hne].
  - split; [intros H; lia|]. by intros [H _].
  - split; [intros H; split; [done|lia]|]. intros [_ H]. lia.
Qed.

Lemma noslash_app s t : noslash s → noslash t → noslash (s +:+ t).
Proof.
  induction s as [|c s IH]; [done|].
  rewrite str_app_cons, !noslash_cons. intros [Hc Hs] Ht. auto.
Qed.

Lemma split_nonempty s : split s ≠ [].
Proof.
  destruct s as [|c s]; simpl; [done|].
  case_decide; [done|]. by destruct (split s).
Qed.

Lemma split_app_slash a b : split (a +:+ "/" +:+ b) = (split a ++ split b)%list.
Proof.
  induction a as [|c a IH]; [done|].
  rewrite str_app_cons. cbn [split]. rewrite IH. case_decide; [done|].
  pose proof (split_nonempty a). by destruct (split a).
Qed.

Lemma split_noslash t : noslash t → split t = [t].
Proof.
  induction t as [|c t IH]; simpl; [done|].
  rewrite noslash_cons. intros [Hc Ht].
  rewrite decide_False by done. by rewrite IH.
Qed.

Lemma split_Forall_noslash s : Forall noslash (split s).
Proof.
  induction s as [|c s IH]; simpl.
  - by repeat constructor.
  - case_decide.
    + by constructor.
    + destruct (split s) as [|x xs]; [by repeat constructor; apply noslash_cons|].
      inversion IH; subst. constructor; [|done]. by apply noslash_cons.
Qed.

Lemma split_snoc_noslash a t :
  noslash t →
  ∃ init l, split a = (init ++ [l])%list ∧ split (a +:+ t) = (init ++ [l +:+ t])%list.
Proof.
  intros Ht. induction a as [|c a (init & l & E1 & E2)]; simpl.
  - exists [], "". by rewrite split_noslash.
  - rewrite E1, E2. case_decide.
    + by exists ("" :: init), l.
    + destruct init as [|x xs]; simpl.
      * by exists [], (String c l).
      * by exists (String c x :: xs), l.
Qed.

Lemma split_last_elem s : ∃ init, split s = (init ++ [last_elem s])%list.
Proof.
  unfold last_elem. destruct (split s) as [|x xs] eqn:E using rev_ind.
  - by apply split_nonempty in E.
  - exists xs. by rewrite last_snoc.
Qed.

Lemma last_elem_app_noslash a t :
  noslash t → last_elem (a +:+ t) = last_elem a +:+ t.
Proof.
  intros Ht. destruct (split_snoc_noslash a t Ht) as (init & l & E1 & E2).
  unfold last_elem. by rewrite E1, E2, !last_snoc.
Qed.

Lemma last_elem_app_slash a b : last_elem (a +:+ "/" +:+ b) = last_elem b.
Proof.
  unfold last_elem. rewrite split_app_slash.
  destruct (split_last_elem b) as [init E]. rewrite E.
  by rewrite (assoc_L (++)%list), !last_snoc.
Qed.

Lemma last_elem_noslash s : noslash (last_elem s).
Proof.
  destruct (split_last_elem s) as [init E].
  pose proof (split_Forall_noslash s) as H. rewrite E in H.
  apply Forall_app in H as [_ H]. by inversion H.
Qed.

Lemma last_elem_of_noslash t : noslash t → last_elem t = t.
Proof. intros Ht. unfold last_elem. by rewrite split_noslash. Qed.

Lemma concat_snoc (xs : list string) (l : string) :
  ∃ P, String.concat "/" (xs ++ [l]) = P +:+ l ∧ (P = "" ∨ ∃ Q, P = Q +:+ "/").
Proof.
  induction xs as [|x xs (P & E & HP)].
  - exists "". by split; [|left].
  - assert (String.concat "/" ((x :: xs) ++ [l]) = x +:+ "/" +:+ String.concat "/" (xs ++ [l]))
      as -> by (simpl; by destruct (xs ++ [l])%list eqn:?; [destruct xs|]).
    rewrite E. exists (x +:+ "/" +:+ P). split.
    + by rewrite !str_app_assoc.
    + right. destruct HP as [->|[Q ->]].
      * exists x. by rewrite str_app_nil_r.
      * exists (x +:+ "/" +:+ Q). by rewrite !str_app_assoc.
Qed.

Lemma clean_step_regular root st l : regular l → clean_step root st l = l :: st.
Proof.
  intros (H1 & H2 & H3). unfold clean_step.
  rewrite decide_False by done. rewrite decide_False by done.
  by rewrite decide_False.
Qed.

(** [Clean] keeps a last element that is not empty, [.] or [..]. *)
Lemma Clean_last s :
  regular (last_elem s) →
  ∃ P, Clean s = P +:+ last_elem s ∧ (P = "" ∨ ∃ Q, P = Q +:+ "/").
Proof.
  intros Hreg. destruct (split_last_elem s) as [init E].
  unfold Clean. cbn zeta. rewrite E, foldl_app. cbn [foldl].
  rewrite clean_step_regular by done.
  set (st := foldl _ _ init). cbn [rev].
  destruct (concat_snoc (rev st) (last_elem s)) as (P & EP & HP). rewrite EP.
  destruct (rooted s).
  - exists ("/" +:+ P). split; [by rewrite str_app_assoc|].
    right. destruct HP as [->|[Q ->]]; [by exists ""|].
    exists ("/" +:+ Q). by rewrite str_app_assoc.
  - exists P. split; [done|done].
Qed.

Lemma last_elem_Clean s : regular (last_elem s) → last_elem (Clean s) = last_elem s.
Proof.
  intros Hreg. destruct (Clean_last s Hreg) as (P & -> & [->|[Q ->]]).
  - apply last_elem_of_noslash, last_elem_noslash.
  - rewrite str_app_assoc, last_elem_app_slash.
    apply last_elem_of_noslash, last_elem_noslash.
Qed.

Lemma concat_split s : String.concat "/" (split s) = s.
Proof.
  induction s as [|c s IH]; [done|]. cbn [split].
  pose proof (split_nonempty s) as Hne.
  destruct (split s) as [|x xs]; [done|]. case_decide.
  - subst c.
    change (String.concat "/" ("" :: x :: xs))
      with ("" +:+ "/" +:+ String.concat "/" (x :: xs)).
    by rewrite IH.
  - rewrite <- IH. by destruct xs.
Qed.

Lemma path_last_elem p :
  ∃ P, p = P +:+ last_elem p ∧ (P = "" ∨ ∃ Q, P = Q +:+ "/").
Proof.
  destruct (split_last_elem p) as [init E].
  destruct (concat_snoc init (last_elem p)) as (P & EP & HP).
  exists P. split; [|done]. by rewrite <- EP, <- E, concat_split.
Qed.

Lemma strip_trailing_noslash l : noslash l → strip_trailing l = l.
Proof.
  induction l as [|c l IH]; [done|]. intros [Hc Hl]%noslash_cons.
  cbn [strip_trailing]. rewrite IH by done.
  destruct l; [by rewrite decide_False|done].
Qed.

Lemma strip_trailing_app a l :
  noslash l → l ≠ "" → strip_trailing (a +:+ l) = a +:+ l.
Proof.
  intros Hl Hne. induction a as [|c a IH].
  - by apply strip_trailing_noslash.
  - rewrite str_app_cons. cbn [strip_trailing]. rewrite IH.
    destruct (a +:+ l) eqn:E; [|done].
    destruct a; [done|]. by rewrite str_app_cons in E.
Qed.

(** The base name of a path that does not end in a separator is its
    last element. *)
Lemma Base_last_elem p : last_elem p ≠ "" → Base p = last_elem p.
Proof.
  intros Hne. destruct (path_last_elem p) as (P & E & _).
  pose proof (last_elem_noslash p) as Hns.
  assert (strip_trailing p = p) as Hs.
  { remember (last_elem p) as l eqn:Hl. rewrite E. by apply strip_trailing_app. }
  unfold Base. rewrite Hs. rewrite decide_False by (intros ->; by apply Hne).
  by rewrite decide_False.
Qed.

Lemma Join_pair dir file :
  dir ≠ "" → Join [dir; file] = Clean (dir +:+ "/" +:+ file).
Proof. intros Hne. cbn [Join]. by rewrite decide_False. Qed.

Lemma from_last_dot_ext (x ext : string) :
  from_last_dot ext = "" → from_last_dot (x +:+ String "." ext) = String "." ext.
Proof.
  intros He. induction x as [|c x IH].
  - cbn [String.append from_last_dot]. rewrite He. by rewrite decide_True.
  - rewrite str_app_cons. cbn [from_last_dot]. by rewrite IH.
Qed.

Lemma regular_ext (x ext : string) :
  (2 ≤ String.length ext)%nat → regular (x +:+ String "." ext).
Proof.
  intros Hlen. repeat split; intros H; apply (f_equal String.length) in H;
    rewrite str_length_app in H; simpl in H; lia.
Qed.

(** The path joined from a directory and a file name that ends in a
    dot and a dotless extension has that extension, and its last element
    is the last element of the file name. *)
Lemma Join_last_elem dir (x ext : string) :
  dir ≠ "" → noslash ext → (2 ≤ String.length ext)%nat →
  last_elem (Join [dir; x +:+ String "." ext]) = last_elem x +:+ String "." ext.
Proof.
  intros Hdir Hns Hlen. rewrite Join_pair by done.
  assert (noslash (String "." ext)) as Hns' by (by apply noslash_cons).
  assert (last_elem (dir +:+ "/" +:+ x +:+ String "." ext)
          = last_elem x +:+ String "." ext) as E.
  { by rewrite last_elem_app_slash, last_elem_app_noslash. }
  rewrite last_elem_Clean; rewrite E; [done|]. by apply regular_ext.
Qed.

Lemma Join_Ext dir (x ext : string) :
  dir ≠ "" → noslash ext → (2 ≤ String.length ext)%nat → from_last_dot ext = "" →
  Ext (Join [dir; x +:+ String "." ext]) = String "." ext.
Proof.
  intros Hdir Hns Hlen Hdot. unfold Ext.
  rewrite Join_last_elem by done. by apply from_last_dot_ext.
Qed.

End PathFacts.

(** ** Shell patterns *)

Section GlobFacts.
Import Filepath.

Lemma matches_lits s : ∀ n, matches (lits s) n = true → n = s.
Proof.
  induction s as [|c s IH]; intros n H; simpl in H.
  - by apply bool_decide_eq_true in H.
  - destruct n as [|d n]; [done|].
    apply andb_true_iff in H as [Hc H]. apply bool_decide_eq_true in Hc as ->.
    by rewrite (IH n H).
Qed.

Lemma matches_lits_app s ts : ∀ n,
  matches (lits s ++ ts) n = true → ∃ n', n = s +:+ n' ∧ matches ts n' = true.
Proof.
  induction s as [|c s IH]; intros n H; cbn [lits app] in H.
  - by exists n.
  - cbn [matches] in H. destruct n as [|d n]; [done|].
    apply andb_true_iff in H as [Hc H]. apply bool_decide_eq_true in Hc as ->.
    destruct (IH n H) as (n' & -> & H'). by exists n'.
Qed.

Lemma matches_Star ts n :
  matches (Star :: ts) n
  = matches ts n
    || match n with
       | String c n' => negb (bool_decide (c = Separator)) && matches (Star :: ts) n'
       | "" => false
       end.
Proof. by destruct n. Qed.

(** A name matched by terms that end in a star and a literal text ends
    in that text. *)
Lemma matches_suffix (tail : string) ts0 : ∀ n,
  matches (ts0 ++ Star :: lits tail) n = true → ∃ x, n = x +:+ tail.
Proof.
  induction ts0 as [|t ts0 IH]; intros n.
  - cbn [app]. induction n as [|c n IHn]; rewrite matches_Star.
    + rewrite orb_false_r. intros H. exists "". by apply matches_lits in H.
    + intros [H|H]%orb_true_iff.
      * exists "". by apply matches_lits in H.
      * apply andb_true_iff in H as [_ H]. destruct (IHn H) as [x ->].
        by exists (String c x).
  - cbn [app]. destruct t as [| |d|neg rs].
    2-4: cbn [matches]; destruct n as [|c n]; [done|];
      intros [_ H]%andb_true_iff; destruct (IH n H) as [x ->];
      by exists (String c x).
    induction n as [|c n IHn]; rewrite matches_Star.
    + rewrite orb_false_r. apply IH.
    + intros [H|H]%orb_true_iff; [by apply IH|].
      apply andb_true_iff in H as [_ H]. destruct (IHn H) as [x ->].
      by exists (String c x).
Qed.

Lemma cons_term_Some t r ts :
  cons_term t r = Some ts → ∃ ts', r = Some ts' ∧ ts = t :: ts'.
Proof. destruct r as [ts'|]; [|done]. intros [= <-]. by exists ts'. Qed.

(** Whatever precedes it, a pattern text that ends in an underscore, a
    star and a literal text is scanned, if at all, into terms that end
    in the star and that text. *)
Lemma scan_suffix (tail : string) :
  scan SNormal tail = Some (lits tail) →
  (∀ st, st ≠ SNormal → st ≠ SEsc → scan st ("_*" +:+ tail) = None) →
  ∀ pre st ts,
    scan st (pre +:+ "_*" +:+ tail) = Some ts → ∃ ts0, ts = (ts0 ++ Star :: lits tail)%list.
Proof.
  intros Htail Hclass. induction pre as [|c pre IH]; intros st ts H.
  - destruct (decide (st = SNormal)) as [->|Hn].
    { cbn in H. rewrite Htail in H. injection H as <-. by exists [Lit "_"]. }
    destruct (decide (st = SEsc)) as [->|He].
    { cbn in H. rewrite Htail in H. injection H as <-. by exists [Lit "_"]. }
    cbn [String.append] in H. by rewrite Hclass in H.
  - rewrite str_app_cons in H. cbn [scan] in H.
    assert (∀ t r, cons_term t r = Some ts →
                   (∀ ts', r = Some ts' → ∃ ts0, ts' = (ts0 ++ Star :: lits tail)%list) →
                   ∃ ts0, ts = (ts0 ++ Star :: lits tail)%list) as Hcons.
    { intros t r (ts' & Hr & ->)%cons_term_Some Hrec.
      destruct (Hrec ts' Hr) as [ts0 ->]. by exists (t :: ts0). }
    destruct st as [| | |neg [some| |lo|lo|lo] acc];
      repeat case_decide; try done;
      first [by eapply IH | by eapply Hcons; [done|]; intros ts'; apply IH
            | destruct some; [|done]; by eapply Hcons; [done|]; intros ts'; apply IH].
Qed.

(** Text without magic bytes is scanned into itself. *)
Lemma scan_plain pre rest :
  hasMeta pre = false →
  scan SNormal (pre +:+ rest)
  = match scan SNormal rest with
    | Some ts => Some (lits pre ++ ts)%list
    | None => None
    end.
Proof.
  induction pre as [|c pre IH]; intros H.
  - cbn [String.append lits app]. by destruct (scan SNormal rest).
  - cbn [hasMeta] in H. apply orb_false_iff in H as [Hc H].
    apply bool_decide_eq_false in Hc.
    rewrite str_app_cons. cbn [scan].
    rewrite !decide_False by (intros ->; apply Hc; set_solver).
    rewrite IH by done. by destruct (scan SNormal rest).
Qed.

Lemma compile_snoc elems e : ∀ tss,
  compile (elems ++ [e]) = Some tss →
  ∃ tss0 ts, tss = (tss0 ++ [ts])%list ∧ scan SNormal e = Some ts.
Proof.
  induction elems as [|e0 elems IH]; intros tss H; cbn [app compile] in H.
  - destruct (scan SNormal e) as [ts|]; [|done]. injection H as <-. by exists [], ts.
  - destruct (scan SNormal e0) as [ts0|]; [|done].
    destruct (compile (elems ++ [e])) as [tss'|]; [|done]. injection H as <-.
    destruct (IH tss' eq_refl) as (tss0 & ts & -> & Hts). by exists (ts0 :: tss0), ts.
Qed.

Lemma matches_elems_snoc tss0 ts : ∀ names,
  matches_elems (tss0 ++ [ts]) names = true →
  ∃ names0 n, names = (names0 ++ [n])%list ∧ matches ts n = true.
Proof.
  induction tss0 as [|ts0 tss0 IH]; intros names H; cbn [app matches_elems] in H.
  - destruct names as [|n [|n' names]]; try done.
    + apply andb_true_iff in H as [H _]. by exists [], n.
    + apply andb_true_iff in H as [_ H]. done.
  - destruct names as [|n names]; [done|].
    apply andb_true_iff in H as [_ H].
    destruct (IH names H) as (names0 & n' & -> & Hn). by exists (n :: names0), n'.
Qed.

(** What [Glob] returns: existing names, each once, whose last element
    matches the last element of the pattern. *)
Lemma Glob_elem fs pattern m p :
  Glob fs pattern = Some m → p ∈ m →
  is_Some (OS.nodes fs !! p)
  ∧ ∃ ts, scan SNormal (last_elem pattern) = Some ts ∧ matches ts (last_elem p) = true.
Proof.
  unfold Glob. destruct (compile (split pattern)) as [tss|] eqn:E; [|done].
  intros [= <-] [Hm Hin]%list_elem_of_filter. split.
  - unfold OS.names in Hin. apply list_elem_of_fmap in Hin as ([q n] & -> & Hin).
    apply elem_of_map_to_list in Hin. simpl. by rewrite Hin.
  - destruct (split_last_elem pattern) as [init Ei]. rewrite Ei in E.
    destruct (compile_snoc _ _ _ E) as (tss0 & ts & -> & Hts).
    exists ts. split; [done|].
    destruct (matches_elems_snoc _ _ _ Hm) as (names0 & n & En & Hn).
    unfold last_elem at 1. by rewrite En, last_snoc.
Qed.

Lemma Glob_NoDup fs pattern m : Glob fs pattern = Some m → NoDup m.
Proof.
  unfold Glob. destruct (compile (split pattern)) as [tss|]; [|done].
  intros [= <-]. apply NoDup_filter, NoDup_fst_map_to_list.
Qed.

End GlobFacts.

(** ** Removal of spec files *)

Section CleanupFacts.
Import Filepath Cdi Samples.

Lemma IsNotExist_Stat fs p :
  OS.IsNotExist (OS.Stat fs p) = bool_decide (OS.nodes fs !! p = None).
Proof. unfold OS.Stat. by destruct (OS.nodes fs !! p). Qed.

Lemma existing_cons fs p paths :
  existing fs (p :: paths)
  = if decide (is_Some (OS.nodes fs !! p)) then p :: existing fs paths
    else existing fs paths.
Proof. unfold existing. by rewrite filter_cons. Qed.

(** A dry run lists the existing paths and changes nothing. *)
Lemma cleanupLoop_dry paths : ∀ fs removed,
  cleanupLoop fs paths true removed = (fs, (removed ++ existing fs paths)%list, None).
Proof.
  induction paths as [|p paths IH]; intros fs removed.
  - simpl. by rewrite app_nil_r.
  - cbn [cleanupLoop]. rewrite IsNotExist_Stat, existing_cons.
    destruct (OS.nodes fs !! p) as [n|] eqn:E.
    + rewrite bool_decide_eq_false_2 by done. rewrite decide_True by eauto.
      by rewrite IH, <- (assoc_L (++)%list).
    + rewrite bool_decide_eq_true_2 by done.
      rewrite decide_False by (by intros [? ?]). apply IH.
Qed.

Lemma existing_delete fs p paths :
  p ∉ paths →
  existing (OS.mkFS (delete p (OS.nodes fs)) (OS.locked fs)) paths = existing fs paths.
Proof.
  induction paths as [|q paths IH]; intros Hp; [done|].
  apply not_elem_of_cons in Hp as [Hne Hp].
  rewrite !existing_cons, IH by done. cbn [OS.nodes].
  by rewrite lookup_delete_ne.
Qed.

(** A real run removes the existing paths in order, up to the first one
    the system refuses to remove. *)
Lemma cleanupLoop_real paths : ∀ fs removed fs' removed' err,
  NoDup paths →
  cleanupLoop fs paths false removed = (fs', removed', err) →
  ∃ l,
    removed' = (removed ++ l)%list
    ∧ match err with
      | None => existing fs paths = l
      | Some e => ∃ p rest, existing fs paths = (l ++ p :: rest)%list
                            ∧ p ∈ OS.locked fs ∧ e = removeError p
      end
    ∧ (∀ q, OS.nodes fs' !! q = if decide (q ∈ l) then None else OS.nodes fs !! q)
    ∧ OS.locked fs' = OS.locked fs.
Proof.
  induction paths as [|p paths IH]; intros fs removed fs' removed' err Hnd H.
  - simpl in H. injection H as <- <- <-. exists []. rewrite app_nil_r.
    repeat split; try done.
  - apply NoDup_cons in Hnd as [Hp Hnd].
    cbn [cleanupLoop] in H. rewrite IsNotExist_Stat in H. rewrite existing_cons.
    destruct (OS.nodes fs !! p) as [n|] eqn:E.
    + rewrite bool_decide_eq_false_2 in H by done. rewrite decide_True by eauto.
      unfold OS.Remove in H. rewrite E in H.
      destruct (decide (p ∈ OS.locked fs)) as [Hl|Hl].
      * injection H as <- <- <-. exists []. rewrite app_nil_r.
        repeat split; try done. by exists p, (existing fs paths).
      * destruct (IH _ _ _ _ _ Hnd H) as (l & -> & Herr & Hlook & Hlock).
        rewrite existing_delete in Herr by done.
        exists (p :: l). split; [by rewrite <- (assoc_L (++)%list)|].
        assert (p ∉ l) as Hpl.
        { intros Hin. apply Hp.
          assert (l `prefix_of` existing fs paths) as [k Hk].
          { destruct err as [e|]; [|by rewrite Herr].
            destruct Herr as (p' & rest & -> & _). by eexists. }
          assert (p ∈ existing fs paths) as Hin'
            by (rewrite Hk; apply elem_of_app; by left).
          unfold existing in Hin'. by apply list_elem_of_filter in Hin' as [_ ?]. }
        split; [|split; [|done]].
        -- destruct err as [e|]; [|by rewrite Herr].
           destruct Herr as (p' & rest & -> & Hl' & ->). by exists p', rest.
        -- intros q. rewrite Hlook. cbn [OS.nodes].
           destruct (decide (q = p)) as [->|Hne].
           ++ rewrite decide_False by done. rewrite decide_True by left.
              apply lookup_delete_eq.
           ++ rewrite lookup_delete_ne by done.
              destruct (decide (q ∈ l)).
              ** by rewrite decide_True by (by right).
              ** rewrite decide_False; [done|]. by intros [?|?]%elem_of_cons.
    + rewrite bool_decide_eq_true_2 in H by done.
      rewrite decide_False by (by intros [? ?]). by apply IH.
Qed.

Lemma CleanupSpecs_candidates fs dir prefix name dryRun :
  CleanupSpecs fs dir prefix name dryRun
  = match candidates fs dir prefix name with
    | Err err => (fs, [], Some err)
    | Ok paths => cleanupFiles fs paths dryRun
    end.
Proof.
  unfold CleanupSpecs, candidates, SpecFileName. cbn zeta.
  destruct (decide (name ≠ "")); [done|].
  by destruct (globLoop _ _ _ _ _).
Qed.

Lemma cleanupLoop_missing paths : ∀ fs dryRun removed,
  (∀ p, p ∈ paths → OS.nodes fs !! p = None) →
  cleanupLoop fs paths dryRun removed = (fs, removed, None).
Proof.
  induction paths as [|p paths IH]; intros fs dryRun removed H; [done|].
  cbn [cleanupLoop]. rewrite IsNotExist_Stat.
  rewrite bool_decide_eq_true_2 by (apply H; left).
  apply IH. intros q Hq. apply H. by right.
Qed.

Lemma existing_elem fs paths p :
  p ∈ existing fs paths ↔ is_Some (OS.nodes fs !! p) ∧ p ∈ paths.
Proof. unfold existing. by rewrite list_elem_of_filter. Qed.

(** What [cleanupFiles] does with a list of distinct paths. *)
Lemma cleanupFiles_spec fs paths dryRun :
  NoDup paths →
  let out := cleanupFiles fs paths dryRun in
  out.1.2 `prefix_of` existing fs paths
  ∧ (out.2 = None → out.1.2 = existing fs paths)
  ∧ (∀ e, out.2 = Some e →
          dryRun = false
          ∧ ∃ p, p ∈ existing fs paths ∧ p ∈ OS.locked fs ∧ e = removeError p)
  ∧ (∀ q, removed_by fs out.1.1 q ↔ dryRun = false ∧ q ∈ out.1.2)
  ∧ (∀ q, q ∉ out.1.2 → OS.nodes out.1.1 !! q = OS.nodes fs !! q)
  ∧ (dryRun = true → out.1.1 = fs ∧ out.2 = None).
Proof.
  intros Hnd out. subst out. unfold cleanupFiles. destruct dryRun.
  - rewrite cleanupLoop_dry. cbn [fst snd app].
    split; [done|]. split; [done|]. split; [done|]. split; [|done].
    intros q. unfold removed_by. split; [|by intros [? _]].
    intros [[n Hs] Hn]. by rewrite Hn in Hs.
  - destruct (cleanupLoop fs paths false []) as [[fs' removed'] err] eqn:E.
    destruct (cleanupLoop_real _ _ _ _ _ _ Hnd E) as (l & -> & Herr & Hlook & _).
    cbn [fst snd app].
    assert (l `prefix_of` existing fs paths) as Hpre.
    { destruct err as [e|]; [|by rewrite Herr].
      destruct Herr as (p & rest & -> & _). by eexists. }
    assert (∀ q, q ∈ l → is_Some (OS.nodes fs !! q)) as Hex.
    { intros q Hq. destruct Hpre as [k Hk].
      assert (q ∈ existing fs paths) as Hin
        by (rewrite Hk; apply elem_of_app; by left).
      by apply existing_elem in Hin as [? _]. }
    split; [done|]. split; [|split; [|split; [|split]]].
    + intros ->. done.
    + intros e ->. split; [done|].
      destruct Herr as (p & rest & Hp & Hl & ->). exists p.
      split; [|done]. rewrite Hp. apply elem_of_app. right. left.
    + intros q. unfold removed_by. rewrite Hlook. split.
      * intros [Hs Hn]. split; [done|]. destruct (decide (q ∈ l)); [done|].
        rewrite Hn in Hs. by destruct Hs.
      * intros [_ Hq]. split; [by apply Hex|]. by rewrite decide_True.
    + intros q Hq. rewrite Hlook. by rewrite decide_False.
    + done.
Qed.

Lemma effective_dir_nonempty (dir : string) :
  (if decide (dir = "") then DefaultOutputDir else dir) ≠ "".
Proof. by case_decide. Qed.

Lemma SpecFileName_ext prefix name ext :
  SpecFileName prefix name ext
  = (FilePrefix +:+ "_" +:+ Str.ReplaceAll prefix "/" "_" +:+ "_" +:+ name)
    +:+ String "." ext.
Proof. unfold SpecFileName. cbn zeta. by rewrite !str_app_assoc. Qed.

(** The two extensions [CleanupSpecs] knows. *)
Lemma known_ext_facts ext :
  ext ∈ ["json"; "yaml"] →
  noslash ext ∧ (2 ≤ String.length ext)%nat ∧ from_last_dot ext = ""
  ∧ scan SNormal (String "." ext) = Some (lits (String "." ext))
  ∧ (∀ st, st ≠ SNormal → st ≠ SEsc → scan st ("_*" +:+ String "." ext) = None).
Proof.
  intros H. repeat (apply elem_of_cons in H as [->|H]); [| |by apply elem_of_nil in H].
  all: repeat split; try done; try (cbn; lia).
  all: intros st Hn He; by destruct st as [| | |neg [some| |lo|lo|lo] acc].
Qed.

Lemma exact_candidate_Ext dir prefix name ext :
  dir ≠ "" → ext ∈ ["json"; "yaml"] →
  Ext (Join [dir; SpecFileName prefix name ext]) = String "." ext.
Proof.
  intros Hdir (Hns & Hlen & Hdot & _)%known_ext_facts.
  rewrite SpecFileName_ext. by apply Join_Ext.
Qed.

Lemma globPattern_last_elem dir safePrefix ext :
  dir ≠ "" → ext ∈ ["json"; "yaml"] →
  last_elem (globPattern dir safePrefix ext)
  = last_elem (FilePrefix +:+ "_" +:+ safePrefix) +:+ "_*" +:+ String "." ext.
Proof.
  intros Hdir (Hns & Hlen & Hdot & _)%known_ext_facts. unfold globPattern.
  assert (FilePrefix +:+ "_" +:+ safePrefix +:+ "_*." +:+ ext
          = ((FilePrefix +:+ "_" +:+ safePrefix) +:+ "_*") +:+ String "." ext) as ->.
  { by rewrite !str_app_assoc. }
  rewrite Join_last_elem by done.
  by rewrite last_elem_app_noslash, str_app_assoc.
Qed.

Lemma glob_candidate_Ext fs dir safePrefix ext m p :
  dir ≠ "" → ext ∈ ["json"; "yaml"] →
  Glob fs (globPattern dir safePrefix ext) = Some m → p ∈ m →
  Ext p = String "." ext.
Proof.
  intros Hdir Hext Hg Hp.
  destruct (Glob_elem _ _ _ _ Hg Hp) as (_ & ts & Hts & Hm).
  rewrite globPattern_last_elem in Hts by done.
  destruct (known_ext_facts ext Hext) as (Hns & Hlen & Hdot & Htail & Hclass).
  destruct (scan_suffix _ Htail Hclass _ _ _ Hts) as [ts0 ->].
  destruct (matches_suffix _ _ _ Hm) as [x Hx].
  unfold Ext. rewrite Hx. by apply from_last_dot_ext.
Qed.

Lemma globLoop_known fs dir safePrefix found :
  globLoop fs dir safePrefix ["json"; "yaml"] [] = Ok found →
  ∃ mj my, found = (mj ++ my)%list
           ∧ Glob fs (globPattern dir safePrefix "json") = Some mj
           ∧ Glob fs (globPattern dir safePrefix "yaml") = Some my.
Proof.
  cbn [globLoop].
  destruct (Glob fs (globPattern dir safePrefix "json")) as [mj|]; [|done].
  destruct (Glob fs (globPattern dir safePrefix "yaml")) as [my|]; [|done].
  intros [= <-]. by exists mj, my.
Qed.

(** The candidates are distinct, and each has one of the two known
    extensions. *)
Lemma candidates_spec fs dir prefix name paths :
  candidates fs dir prefix name = Ok paths →
  NoDup paths ∧ ∀ p, p ∈ paths → Ext p = ".json" ∨ Ext p = ".yaml".
Proof.
  unfold candidates. cbn zeta.
  pose proof (effective_dir_nonempty dir) as Hdir.
  set (d := if decide (dir = "") then DefaultOutputDir else dir) in *.
  assert ("json" ∈ ["json"; "yaml"]) as Hj by left.
  assert ("yaml" ∈ ["json"; "yaml"]) as Hy by (right; left).
  case_decide.
  - pose proof (exact_candidate_Ext d prefix name "json" Hdir Hj) as Ej.
    pose proof (exact_candidate_Ext d prefix name "yaml" Hdir Hy) as Ey.
    set (pj := Join [d; SpecFileName prefix name "json"]) in *.
    set (py := Join [d; SpecFileName prefix name "yaml"]) in *.
    intros Hp. assert (paths = [pj; py]) as -> by congruence. clear Hp.
    split.
    + apply NoDup_cons. split; [|apply NoDup_singleton].
      intros Hin%list_elem_of_singleton. rewrite Hin, Ey in Ej. done.
    + intros p [->|[->|[]%elem_of_nil]%elem_of_cons]%elem_of_cons; auto.
  - intros (mj & my & -> & Gj & Gy)%globLoop_known. split.
    + apply NoDup_app. split; [by eapply Glob_NoDup|].
      split; [|by eapply Glob_NoDup].
      intros p Hpj Hpy.
      pose proof (glob_candidate_Ext _ _ _ _ _ _ Hdir Hj Gj Hpj) as Ej.
      pose proof (glob_candidate_Ext _ _ _ _ _ _ Hdir Hy Gy Hpy) as Ey.
      rewrite Ey in Ej. done.
    + intros p [Hp|Hp]%elem_of_app.
      * left. by eapply glob_candidate_Ext.
      * right. by eapply glob_candidate_Ext.
Qed.


Lemma safePrefix_noslash prefix : noslash (Str.ReplaceAll prefix "/" "_").
Proof. unfold noslash. rewrite ReplaceAll_slash. apply map_slash_count. Qed.

Lemma exact_candidate_Base dir prefix name ext :
  dir ≠ "" → ext ∈ ["json"; "yaml"] → noslash name →
  Base (Join [dir; SpecFileName prefix name ext]) = SpecFileName prefix name ext.
Proof.
  intros Hdir Hext Hname.
  destruct (known_ext_facts ext Hext) as (Hns & Hlen & _).
  assert (last_elem (Join [dir; SpecFileName prefix name ext])
          = SpecFileName prefix name ext) as E.
  { rewrite SpecFileName_ext, Join_last_elem by done. f_equal.
    apply last_elem_of_noslash.
    repeat (apply noslash_app; [done || apply safePrefix_noslash|]). done. }
  rewrite Base_last_elem; rewrite E; [done|]. by destruct ext.
Qed.

Lemma SpecFileName_HasPrefix prefix name ext :
  Str.HasPrefix (SpecFileName prefix name ext) "rdma-cdi_" = true.
Proof.
  unfold Str.HasPrefix, SpecFileName. cbn zeta.
  change (FilePrefix +:+ "_" +:+ ?x) with ("rdma-cdi_" +:+ x). apply prefix_app.
Qed.

Lemma glob_candidate_Base fs dir safePrefix ext m p :
  dir ≠ "" → ext ∈ ["json"; "yaml"] → noslash safePrefix →
  Glob fs (globPattern dir safePrefix ext) = Some m → p ∈ m →
  Str.HasPrefix (Base p) "rdma-cdi_" = true.
Proof.
  intros Hdir Hext Hsp Hg Hp.
  destruct (Glob_elem _ _ _ _ Hg Hp) as (_ & ts & Hts & Hm).
  rewrite globPattern_last_elem in Hts by done.
  rewrite last_elem_of_noslash in Hts by (by apply noslash_app).
  change ((FilePrefix +:+ "_" +:+ safePrefix) +:+ ?x)
    with ("rdma-cdi_" +:+ safePrefix +:+ x) in Hts.
  rewrite scan_plain in Hts by done.
  destruct (scan SNormal _) as [ts'|]; [|done]. injection Hts as <-.
  apply (matches_lits_app "rdma-cdi_") in Hm as (n' & En & _).
  rewrite Base_last_elem; rewrite En; [|done].
  apply prefix_app.
Qed.

(** Every candidate for a name without separator has a base name that
    begins with the token of the tool and an underscore. *)
Lemma candidates_Base fs dir prefix name paths p :
  noslash name → candidates fs dir prefix name = Ok paths → p ∈ paths →
  Str.HasPrefix (Base p) "rdma-cdi_" = true.
Proof.
  intros Hname. unfold candidates. cbn zeta.
  pose proof (effective_dir_nonempty dir) as Hdir.
  set (d := if decide (dir = "") then DefaultOutputDir else dir) in *.
  assert ("json" ∈ ["json"; "yaml"]) as Hj by left.
  assert ("yaml" ∈ ["json"; "yaml"]) as Hy by (right; left).
  case_decide.
  - pose proof (exact_candidate_Base d prefix name "json" Hdir Hj Hname) as Ej.
    pose proof (exact_candidate_Base d prefix name "yaml" Hdir Hy Hname) as Ey.
    set (pj := Join [d; SpecFileName prefix name "json"]) in *.
    set (py := Join [d; SpecFileName prefix name "yaml"]) in *.
    intros Hp. assert (paths = [pj; py]) as -> by congruence. clear Hp.
    intros [->|[->|[]%elem_of_nil]%elem_of_cons]%elem_of_cons.
    + rewrite Ej. apply SpecFileName_HasPrefix.
    + rewrite Ey. apply SpecFileName_HasPrefix.
  - intros (mj & my & -> & Gj & Gy)%globLoop_known [Hp|Hp]%elem_of_app.
    + eapply glob_candidate_Base; [done|exact Hj|apply safePrefix_noslash|done..].
    + eapply glob_candidate_Base; [done|exact Hy|apply safePrefix_noslash|done..].
Qed.

(** X13: whatever the directory, the prefix and the mode, a name removed
    by [CleanupSpecs] has the extension [.json] or [.yaml]; and when the
    name argument holds no separator, its base name begins with
    [rdma-cdi_]. *)
Theorem CleanupSpecs_safe_without_separator fs dir prefix name dryRun p :
  removed_by fs (CleanupSpecs fs dir prefix name dryRun).1.1 p →
  (Ext p = ".json" ∨ Ext p = ".yaml")
  ∧ (noslash name → Str.HasPrefix (Base p) "rdma-cdi_" = true).
Proof.
  rewrite CleanupSpecs_candidates.
  destruct (candidates fs dir prefix name) as [paths|err] eqn:Hc.
  - destruct (candidates_spec _ _ _ _ _ Hc) as [Hnd Hext].
    destruct (cleanupFiles_spec fs paths dryRun Hnd) as (Hpre & _ & _ & Hrem & _).
    intros [_ Hp]%Hrem.
    assert (p ∈ paths) as Hin.
    { destruct Hpre as [k Hk].
      assert (p ∈ existing fs paths) as H
        by (rewrite Hk; apply elem_of_app; by left).
      by apply existing_elem in H as [_ ?]. }
    split; [by apply Hext|]. intros Hname. by eapply candidates_Base.
  - cbn [fst]. intros [[n Hs] Hn]. by rewrite Hn in Hs.
Qed.

Lemma CleanupSpecs_safe_without_separator_witness :
  Ext "/tmp/d/rdma-cdi_rdma_dev1.json" = ".json"
  ∨ Ext "/tmp/d/rdma-cdi_rdma_dev1.json" = ".yaml".
Proof.
  apply (CleanupSpecs_safe_without_separator seedFS "/tmp/d" "rdma" "dev1" false).
  split; [eexists|]; vm_compute; reflexivity.
Defined.





(** C1: the claim fails on the code.  A name that contains separators
    leads [CleanupSpecs] out of the tool's own files: with the name
    [/../nvidia] it removes [/etc/cdi/nvidia.json], a file whose base
    name does not begin with [rdma-cdi_]. *)
Theorem CleanupSpecs_removes_foreign_file :
  let p := "/etc/cdi/nvidia.json" in
  let out := CleanupSpecs otherToolFS "/etc/cdi" "rdma" "/../nvidia" false in
  out.1.2 = [p] ∧ out.2 = None
  ∧ removed_by otherToolFS out.1.1 p
  ∧ Str.HasPrefix (Base p) "rdma-cdi_" = false.
Proof. vm_compute. repeat split. by eexists. Qed.

End CleanupFacts.

(** ** Resource names *)

Section NameFacts.
Import Utils Main.

Lemma unsafe_byte c :
  c ∈ [":"%char; "/"%char; "."%char] ↔ c = ":"%char ∨ c = "/"%char ∨ c = "."%char.
Proof. rewrite !elem_of_cons, elem_of_nil. tauto. Qed.

Lemma SanitizeName_map s : SanitizeName s = Str.map sanitize_byte s.
Proof.
  unfold SanitizeName, Replace.
  induction s as [|c s IH]; [done|].
  cbn [replacer_go lookup_old String.prefix Str.map String.length].
  unfold sanitize_byte at 1.
  destruct (ascii_dec ":" c) as [<-|H1].
  { rewrite prefix_nil. cbn. by rewrite IH. }
  destruct (ascii_dec "/" c) as [<-|H2].
  { rewrite prefix_nil. cbn. by rewrite IH. }
  destruct (ascii_dec "." c) as [<-|H3].
  { rewrite prefix_nil. cbn. by rewrite IH. }
  rewrite bool_decide_eq_false_2.
  - by rewrite IH.
  - rewrite unsafe_byte. intros [?|[?|?]]; congruence.
Qed.

Lemma sanitize_byte_safe c : sanitize_byte c ∉ [":"%char; "/"%char; "."%char].
Proof.
  unfold sanitize_byte. case_bool_decide as H; [|done].
  rewrite unsafe_byte. intros [?|[?|?]]; discriminate.
Qed.

Lemma count_map_sanitize d s :
  d ∈ [":"%char; "/"%char; "."%char] → Str.count d (Str.map sanitize_byte s) = 0.
Proof.
  intros Hd. induction s as [|c s IH]; [done|].
  cbn [Str.map Str.count]. rewrite IH.
  rewrite decide_False; [done|].
  intros E. apply (sanitize_byte_safe c). by rewrite E.
Qed.

Lemma safe_name_map s : safe_name (Str.map sanitize_byte s).
Proof.
  repeat split; apply count_map_sanitize; apply unsafe_byte; auto.
Qed.

Lemma count_zero_cons d c s : Str.count d (String c s) = 0 ↔ c ≠ d ∧ Str.count d s = 0.
Proof.
  cbn [Str.count]. destruct (decide (c = d)) as [->|Hne].
  - split; [intros H; lia|]. by intros [H _].
  - split; [intros H; split; [done|lia]|]. intros [_ H]. lia.
Qed.

Lemma map_sanitize_fixed s : Str.map sanitize_byte s = s ↔ safe_name s.
Proof.
  unfold safe_name. induction s as [|c s IH]; [done|].
  cbn [Str.map]. rewrite !count_zero_cons. split.
  - intros [= Hc Hs]. apply IH in Hs as (Ha & Hb & Hd).
    pose proof (sanitize_byte_safe c) as Hsafe. rewrite Hc, unsafe_byte in Hsafe.
    tauto.
  - intros ([Hc1 Ha] & [Hc2 Hb] & [Hc3 Hd]). f_equal; [|by apply IH].
    unfold sanitize_byte. rewrite bool_decide_eq_false_2; [done|].
    rewrite unsafe_byte. tauto.
Qed.

(** X1: [SanitizeName] keeps the length of the name and changes nothing
    but colons, separators and dots, each into a hyphen; its result has
    none of the three left, and a name is left as it is exactly when it
    has none; sanitising twice is sanitising once. *)
Theorem SanitizeName_spec (s : string) :
  String.length (SanitizeName s) = String.length s
  ∧ (∀ i, String.get i (SanitizeName s) = sanitize_byte <$> String.get i s)
  ∧ safe_name (SanitizeName s)
  ∧ (SanitizeName s = s ↔ safe_name s)
  ∧ SanitizeName (SanitizeName s) = SanitizeName s.
Proof.
  rewrite !SanitizeName_map.
  split; [apply map_length|]. split; [intros i; apply map_get|].
  split; [apply safe_name_map|]. split; [apply map_sanitize_fixed|].
  apply map_sanitize_fixed, safe_name_map.
Qed.

Lemma SanitizeName_nonempty s : s ≠ "" → SanitizeName s ≠ "".
Proof. rewrite SanitizeName_map. by destruct s. Qed.

(** X2: the default resource name is never empty and has no colon,
    separator or dot; an interface name, when given, takes precedence
    over the PCI address, and without either the name is [unknown]. *)
Theorem deriveDefaultName_spec (pci ifname : string) :
  deriveDefaultName pci ifname ≠ ""
  ∧ safe_name (deriveDefaultName pci ifname)
  ∧ (ifname ≠ "" → deriveDefaultName pci ifname = SanitizeName ifname)
  ∧ (ifname = "" → pci ≠ "" →
     deriveDefaultName pci ifname = "pci-" +:+ SanitizeName pci)
  ∧ (ifname = "" → pci = "" → deriveDefaultName pci ifname = "unknown").
Proof.
  unfold deriveDefaultName.
  destruct (decide (ifname ≠ "")) as [Hi|Hi].
  - split; [by apply SanitizeName_nonempty|].
    split; [rewrite SanitizeName_map; apply safe_name_map|]. done.
  - apply dec_stable in Hi. subst ifname.
    destruct (decide (pci ≠ "")) as [Hp|Hp].
    + split; [by apply SanitizeName_nonempty|].
      split; [rewrite SanitizeName_map; apply safe_name_map|].
      split; [done|]. split; [|done]. intros _ _. by rewrite !SanitizeName_map.
    + apply dec_stable in Hp. subst pci. repeat split; done.
Qed.

Lemma deriveDefaultName_spec_witness :
  deriveDefaultName "0000:17:00.0" "enp23s0f0np0" = SanitizeName "enp23s0f0np0"
  ∧ deriveDefaultName "0000:17:00.0" "" = "pci-" +:+ SanitizeName "0000:17:00.0".
Proof.
  destruct (deriveDefaultName_spec "0000:17:00.0" "enp23s0f0np0") as (_ & _ & H1 & _).
  destruct (deriveDefaultName_spec "0000:17:00.0" "") as (_ & _ & _ & H2 & _).
  split; [apply H1; discriminate|apply H2; [reflexivity|discriminate]].
Defined.

End NameFacts.

(** ** Discovery *)

Section DiscoverFacts.
Import Types Rdma Doctor Samples.

Lemma buildDeviceSpecs_lookup charDevs i :
  buildDeviceSpecs charDevs !! i
  = (λ dev, {| HostPath := dev; ContainerPath := dev; Permissions := "rw" |})
      <$> charDevs !! i.
Proof. unfold buildDeviceSpecs. apply list_lookup_fmap. Qed.

Lemma VerifyRdmaDevices_None_present paths :
  VerifyRdmaDevices paths = None → ¬ missing_type paths.
Proof.
  intros Hv Hm. apply VerifyRdmaDevices_fails in Hm as [err Herr]. congruence.
Qed.

Lemma buildRdmaDevice_well_built h pciAddr charDevs :
  well_built (buildRdmaDevice h pciAddr charDevs).
Proof.
  split; cbn [DeviceSpecs RdmaDevices buildRdmaDevice].
  - unfold buildDeviceSpecs. apply length_map.
  - intros i spec. rewrite buildDeviceSpecs_lookup.
    destruct (charDevs !! i) as [d|]; [|done]. by intros [= <-].
Qed.

Lemma DiscoverByPCI_built h pciAddress dev :
  DiscoverByPCI h pciAddress = Ok dev →
  dev = buildRdmaDevice h pciAddress (GetRdmaCharDevices h pciAddress)
  ∧ GetRdmaCharDevices h pciAddress ≠ []
  ∧ VerifyRdmaDevices (GetRdmaCharDevices h pciAddress) = None.
Proof.
  unfold DiscoverByPCI. cbn zeta.
  destruct (decide (length (GetRdmaCharDevices h pciAddress) = 0)) as [|Hlen]; [done|].
  destruct (VerifyRdmaDevices _) as [err|] eqn:Hv; [done|].
  intros [= <-]. split; [done|]. split; [|done].
  intros E. by rewrite E in Hlen.
Qed.

(** X3: a device returned by [DiscoverByPCI] carries the address asked
    for and the character devices the mapper found for it, which are
    not empty and hold every required type; its device specs mirror
    these paths one to one; and the diagnostics, on any host, pass its
    character-device check. *)
Theorem DiscoverByPCI_Ok (h : Host) (pciAddress : string) (dev : RdmaDevice) :
  DiscoverByPCI h pciAddress = Ok dev →
  PciAddress dev = pciAddress
  ∧ RdmaDevices dev = GetRdmaCharDevices h pciAddress
  ∧ RdmaDevices dev ≠ []
  ∧ ¬ missing_type (RdmaDevices dev)
  ∧ well_built dev
  ∧ ∀ h', allPresentResult dev ∈ Results (DiagnoseDevice h' dev).1.
Proof.
  intros (-> & Hne & Hv)%DiscoverByPCI_built.
  cbn [PciAddress RdmaDevices buildRdmaDevice].
  split; [done|]. split; [done|]. split; [done|].
  split; [by apply VerifyRdmaDevices_None_present|].
  split; [apply buildRdmaDevice_well_built|].
  intros h'.
  set (dev := buildRdmaDevice h pciAddress _).
  pose proof (checkRdmaDevices_empty dev) as E.
  rewrite decide_False in E.
  - unfold dev in E at 2. cbn [RdmaDevices buildRdmaDevice] in E. rewrite Hv in E.
    by apply (DiagnoseDevice_rdma_result h' dev _ E).
  - unfold dev. cbn [RdmaDevices buildRdmaDevice].
    by destruct (GetRdmaCharDevices h pciAddress).
Qed.

Lemma DiscoverByPCI_Ok_witness :
  PciAddress (buildRdmaDevice busHost "0000:17:00.0"
                (GetRdmaCharDevices busHost "0000:17:00.0")) = "0000:17:00.0".
Proof.
  apply (DiscoverByPCI_Ok busHost "0000:17:00.0"). reflexivity.
Defined.

(** X4: a device returned by [DiscoverByIfName] carries the interface
    name asked for, whatever name the PCI device lists itself; its PCI
    address is the last element of the target of the [device] link of
    the interface, which must be a symbolic link; and it has all that a
    device of [DiscoverByPCI] has. *)
Theorem DiscoverByIfName_Ok (h : LinkHost) (ifName : string) (dev : RdmaDevice) :
  DiscoverByIfName h ifName = Ok dev →
  let link := Filepath.Join [sysNetDevices; ifName; "device"] in
  IfName dev = ifName
  ∧ lstat_isSymlink h link = true
  ∧ (∃ target dev0,
       os_Readlink h link = OS.Done target
       ∧ PciAddress dev = Filepath.Base target
       ∧ DiscoverByPCI h (Filepath.Base target) = Ok dev0
       ∧ dev = set_IfName dev0 ifName)
  ∧ RdmaDevices dev ≠ []
  ∧ ¬ missing_type (RdmaDevices dev)
  ∧ well_built dev.
Proof.
  unfold DiscoverByIfName, GetPciAddress. cbn zeta.
  set (link := Filepath.Join _).
  destruct (os_Lstat h link) as [info|e]; [|done].
  destruct (lstat_isSymlink h link) eqn:Hsym; [|done]. cbn [negb].
  destruct (os_Readlink h link) as [target|e]; [|done].
  destruct (DiscoverByPCI h (Filepath.Base target)) as [dev0|err] eqn:Hd; [|done].
  intros [= <-].
  destruct (DiscoverByPCI_built _ _ _ Hd) as (E0 & Hne & Hv).
  split; [done|]. split; [done|].
  split; [exists target, dev0; repeat split; try done; by rewrite E0|].
  rewrite E0. cbn [RdmaDevices set_IfName buildRdmaDevice].
  split; [done|]. split; [by apply VerifyRdmaDevices_None_present|].
  apply (buildRdmaDevice_well_built h (Filepath.Base target)).
Qed.

Lemma DiscoverByIfName_Ok_witness :
  ∃ dev, DiscoverByIfName busLinkHost "enp23s0f0np0" = Ok dev
         ∧ IfName dev = "enp23s0f0np0" ∧ PciAddress dev = "0000:17:00.0".
Proof.
  eexists. split; [reflexivity|].
  split.
  - eapply (DiscoverByIfName_Ok busLinkHost "enp23s0f0np0"). reflexivity.
  - reflexivity.
Defined.

Lemma discoverLoop_spec h entries : ∀ devices,
  discoverLoop h entries devices
  = (devices ++ map (λ pciAddr, buildRdmaDevice h pciAddr (GetRdmaCharDevices h pciAddr))
                    (rdma_entries h entries))%list.
Proof.
  unfold rdma_entries.
  induction entries as [|pciAddr entries IH]; intros devices; cbn [discoverLoop].
  - by rewrite app_nil_r.
  - rewrite filter_cons.
    destruct (decide (length (GetRdmaCharDevices h pciAddr) = 0)) as [Hlen|Hlen].
    + rewrite decide_False; [apply IH|].
      intros Hne. apply Hne. by destruct (GetRdmaCharDevices h pciAddr).
    + rewrite decide_True by (intros E; by rewrite E in Hlen).
      rewrite IH. cbn [map]. by rewrite <- (assoc_L (++)%list).
Qed.

(** X5: [DiscoverAll] returns, in the order of the bus directory, one
    device for each entry that has character devices, and never an
    empty list: without such an entry it fails.  It does not check the
    required types: a device of the list is what [DiscoverByPCI] returns
    for its address exactly when it has all of them, and otherwise
    [DiscoverByPCI] rejects that address. *)
Theorem DiscoverAll_spec (h : Host) (entries : list string) :
  os_ReadDir h sysBusPci = OS.Done entries →
  (rdma_entries h entries = [] →
   DiscoverAll h = Err "no RDMA devices found on the host")
  ∧ (rdma_entries h entries ≠ [] →
     DiscoverAll h
     = Ok (map (λ pciAddr, buildRdmaDevice h pciAddr (GetRdmaCharDevices h pciAddr))
               (rdma_entries h entries)))
  ∧ ∀ devices dev,
      DiscoverAll h = Ok devices → dev ∈ devices →
      devices ≠ []
      ∧ PciAddress dev ∈ entries
      ∧ RdmaDevices dev = GetRdmaCharDevices h (PciAddress dev)
      ∧ RdmaDevices dev ≠ []
      ∧ well_built dev
      ∧ (¬ missing_type (RdmaDevices dev) → DiscoverByPCI h (PciAddress dev) = Ok dev)
      ∧ (missing_type (RdmaDevices dev) →
         ∃ msg, DiscoverByPCI h (PciAddress dev) = Err msg).
Proof.
  intros Hread. unfold DiscoverAll. rewrite Hread. cbn zeta.
  rewrite discoverLoop_spec. cbn [app].
  set (build := λ pciAddr, buildRdmaDevice h pciAddr (GetRdmaCharDevices h pciAddr)).
  split; [|split].
  - intros ->. done.
  - intros Hne. rewrite decide_False; [done|].
    rewrite length_map. by destruct (rdma_entries h entries).
  - intros devices dev. case_decide as Hlen; [done|]. intros [= <-] Hin.
    apply list_elem_of_fmap in Hin as (pciAddr & -> & Hin).
    apply list_elem_of_filter in Hin as [Hchar Hin].
    split; [intros E; by rewrite E in Hlen|].
    split; [done|]. split; [done|]. split; [done|].
    split; [apply buildRdmaDevice_well_built|].
    subst build. cbn [PciAddress RdmaDevices buildRdmaDevice].
    pose proof (VerifyRdmaDevices_fails (GetRdmaCharDevices h pciAddr)) as Hv.
    unfold DiscoverByPCI. cbn zeta.
    rewrite decide_False by (by destruct (GetRdmaCharDevices h pciAddr)).
    destruct (VerifyRdmaDevices _) as [err|].
    + split; [|by eauto]. intros Hn. destruct Hn. apply Hv. by eauto.
    + split; [done|]. intros Hm. apply Hv in Hm as [? ?]. done.
Qed.

Lemma DiscoverAll_spec_witness :
  DiscoverAll busHost
  = Ok [buildRdmaDevice busHost "0000:17:00.0"
          (GetRdmaCharDevices busHost "0000:17:00.0")].
Proof.
  destruct (DiscoverAll_spec busHost ["0000:00:1f.0"; "0000:17:00.0"] eq_refl)
    as (_ & H & _).
  apply H. vm_compute. discriminate.
Defined.

End DiscoverFacts.

(** ** The checks of the diagnostics *)

#[local] Instance link_up_dec h dev : Decision (link_up h dev).
Proof.
  unfold link_up. destruct (netlink_LinkByName h (Types.IfName dev)) as [attrs|err].
  - destruct (decide (Netlink.OperState attrs = Netlink.OperUp)) as [E|E].
    + left. by exists attrs.
    + right. intros (a & [= <-] & Ha). done.
  - right. by intros (a & ? & _).
Qed.

#[local] Instance netns_exclusive_dec h : Decision (netns_exclusive h).
Proof.
  unfold netns_exclusive. destruct (Doctor.netns_mode_data h) as [data|].
  - destruct (decide (Str.TrimSpace data ∈ ["exclusive"; "1"; "Y"])) as [E|E].
    + left. by exists data.
    + right. intros (d & [= <-] & Hd). done.
  - right. by intros (d & ? & _).
Qed.

Section CheckFacts.
Import Types Doctor Samples.

(** The outline of the report, check by check. *)
Lemma checkRdmaDevices_outline dev :
  map outline (Results (checkRdmaDevices empty dev))
  = [("rdma_devices",
      if Rdma.VerifyRdmaDevices (RdmaDevices dev) is Some _ then Fail else Pass,
      PciAddress dev)].
Proof.
  rewrite checkRdmaDevices_empty.
  destruct (decide (length (RdmaDevices dev) = 0)) as [Hlen|Hlen].
  - by destruct (RdmaDevices dev).
  - by destruct (Rdma.VerifyRdmaDevices (RdmaDevices dev)) as [err|].
Qed.

Lemma checkKernelModules_outline h r :
  map outline (Results (checkKernelModules h r))
  = (map outline (Results r)
     ++ [("kernel_modules", if decide (modules_missing h = []) then Pass else Fail, "")])%list.
Proof.
  unfold checkKernelModules. fold (modules_missing h). cbn zeta.
  destruct (modules_missing h) as [|m ms].
  - rewrite decide_False by (cbn; lia). by rewrite add_Results, map_app.
  - rewrite decide_True by (cbn; lia). by rewrite add_Results, map_app.
Qed.

Lemma checkNetInterface_outline h r dev :
  map outline (Results (checkNetInterface h r dev).1)
  = (map outline (Results r)
     ++ if decide (IfName dev = "") then [("net_interface", Warn, PciAddress dev)]
        else [("net_interface", Pass, PciAddress dev);
              match netlink_LinkByName h (IfName dev) with
              | Err _ => ("link_attrs", Warn, PciAddress dev)
              | Ok attrs =>
                  ("link_state",
                   if decide (Netlink.OperState attrs = Netlink.OperUp) then Pass else Warn,
                   PciAddress dev)
              end])%list.
Proof.
  unfold checkNetInterface, checkLinkAttrs.
  destruct (decide (IfName dev = "")) as [E|E].
  - rewrite decide_False by (by intros ?). cbn [fst].
    by rewrite add_Results, map_app.
  - rewrite decide_True by done.
    destruct (netlink_LinkByName h (IfName dev)) as [attrs|err]; cbn [fst].
    + destruct (Netlink.OperState attrs); cbn [fst];
        rewrite !add_Results, !map_app, <- (assoc_L (++)%list); reflexivity.
    + by rewrite !add_Results, !map_app, <- (assoc_L (++)%list).
Qed.

Lemma checkNetInterface_device h r dev :
  (checkNetInterface h r dev).2
  = if decide (IfName dev = "") then dev
    else match netlink_LinkByName h (IfName dev) with
         | Err _ => dev
         | Ok attrs => set_LinkType dev (Netlink.EncapType attrs)
         end.
Proof.
  unfold checkNetInterface, checkLinkAttrs.
  destruct (decide (IfName dev = "")) as [E|E].
  - by rewrite decide_False by (by intros ?).
  - rewrite decide_True by done.
    destruct (netlink_LinkByName h (IfName dev)) as [attrs|err]; [|done].
    by destruct (Netlink.OperState attrs).
Qed.

Lemma checkRdmaNetnsMode_outline h r pci :
  map outline (Results (checkRdmaNetnsMode h r pci))
  = (map outline (Results r)
     ++ [("rdma_netns_mode", if decide (netns_exclusive h) then Pass else Warn, pci)])%list.
Proof.
  unfold checkRdmaNetnsMode.
  destruct (decide (netns_exclusive h)) as [(d & Hd & Hm)|He].
  - rewrite Hd. cbn zeta. rewrite bool_decide_eq_true_2 by done.
    by rewrite add_Results, map_app.
  - destruct (netns_mode_data h) as [data|] eqn:Hd.
    + cbn zeta. rewrite bool_decide_eq_false_2.
      * case_bool_decide; by rewrite add_Results, map_app.
      * intros Hm. apply He. by exists data.
    + by rewrite add_Results, map_app.
Qed.

Lemma DiagnoseDevice_outline h dev :
  map outline (Results (DiagnoseDevice h dev).1)
  = ([("rdma_devices",
       if Rdma.VerifyRdmaDevices (RdmaDevices dev) is Some _ then Fail else Pass,
       PciAddress dev);
      ("kernel_modules", if decide (modules_missing h = []) then Pass else Fail, "")]
     ++ (if decide (IfName dev = "") then [("net_interface", Warn, PciAddress dev)]
         else [("net_interface", Pass, PciAddress dev);
               match netlink_LinkByName h (IfName dev) with
               | Err _ => ("link_attrs", Warn, PciAddress dev)
               | Ok attrs =>
                   ("link_state",
                    if decide (Netlink.OperState attrs = Netlink.OperUp) then Pass else Warn,
                    PciAddress dev)
               end])
     ++ [("rdma_netns_mode", if decide (netns_exclusive h) then Pass else Warn,
          PciAddress dev)])%list.
Proof.
  unfold DiagnoseDevice.
  pose proof (checkNetInterface_outline h
                (checkKernelModules h (checkRdmaDevices empty dev)) dev) as Hn.
  pose proof (checkNetInterface_device h
                (checkKernelModules h (checkRdmaDevices empty dev)) dev) as Hd.
  destruct (checkNetInterface h _ dev) as [r3 dev3]. cbn [fst snd] in *.
  rewrite checkRdmaNetnsMode_outline, Hn, checkKernelModules_outline,
    checkRdmaDevices_outline.
  assert (PciAddress dev3 = PciAddress dev) as ->.
  { rewrite Hd. case_decide; [done|]. by destruct (netlink_LinkByName h _). }
  by rewrite <- !(assoc_L (++)%list).
Qed.

Lemma HasFail_outline r :
  flags_ok r →
  HasFail r = existsb (λ o, bool_decide (o.1.2 = Fail)) (map outline (Results r)).
Proof.
  intros [_ ->]. induction (Results r) as [|cr crs IH]; [done|].
  cbn [existsb map]. by rewrite IH.
Qed.

Lemma HasWarn_outline r :
  flags_ok r →
  HasWarn r = existsb (λ o, bool_decide (o.1.2 = Warn)) (map outline (Results r)).
Proof.
  intros [-> _]. induction (Results r) as [|cr crs IH]; [done|].
  cbn [existsb map]. by rewrite IH.
Qed.

End CheckFacts.

(** ** What the diagnostics of a device report *)

Section DiagnoseFacts.
Import Types Doctor Samples.

Ltac diagnose_cases h dev :=
  rewrite DiagnoseDevice_outline;
  destruct (Rdma.VerifyRdmaDevices (RdmaDevices dev)) as [verr|];
  destruct (decide (modules_missing h = [])) as [Hmod|Hmod];
  (destruct (decide (IfName dev = "")) as [Hif|Hif];
   [|destruct (netlink_LinkByName h (IfName dev)) as [attrs|lerr];
     [destruct (decide (Netlink.OperState attrs = Netlink.OperUp)) as [Hup|Hup]|]]);
  destruct (decide (netns_exclusive h)) as [Hns|Hns].

Lemma diagnose_fails h dev :
  HasFail (DiagnoseDevice h dev).1 = true
  ↔ missing_type (RdmaDevices dev) ∨ modules_missing h ≠ [].
Proof.
  rewrite HasFail_outline by apply DiagnoseDevice_flags_ok.
  rewrite <- VerifyRdmaDevices_fails.
  diagnose_cases h dev; cbn;
    (split; [intros ?; first [done | left; by eauto | right; done]
            |intros [[? ?]|?]; done]).
Qed.

Lemma diagnose_warns h dev :
  HasWarn (DiagnoseDevice h dev).1 = false
  ↔ IfName dev ≠ "" ∧ link_up h dev ∧ netns_exclusive h.
Proof.
  rewrite HasWarn_outline by apply DiagnoseDevice_flags_ok.
  unfold link_up.
  diagnose_cases h dev; cbn;
    (split;
     [intros ?; first [done | by eauto]
     |intros (? & (a & Ha & Hop) & ?); by simplify_eq]).
Qed.

Lemma Forall_outline (P : CheckResult → Prop) (Q : string * Severity * string → Prop) l :
  (∀ cr, Q (outline cr) → P cr) → Forall Q (map outline l) → Forall P l.
Proof.
  intros HQ. induction l as [|cr l IH]; [by constructor|].
  cbn [map]. intros [H1 H2]%Forall_cons_1. constructor; [by apply HQ|by apply IH].
Qed.

(** The severities of the diagnostics are the three of the package. *)
Lemma DiagnoseDevice_severities h dev :
  Forall (λ cr, Sev cr = Pass ∨ Sev cr = Warn ∨ Sev cr = Fail)
         (Results (DiagnoseDevice h dev).1).
Proof.
  apply (Forall_outline _ (λ o, o.1.2 = Pass ∨ o.1.2 = Warn ∨ o.1.2 = Fail));
    [by intros cr|].
  diagnose_cases h dev; cbn [app];
    repeat (apply Forall_cons_2; [cbn [fst snd]; tauto|]); apply Forall_nil_2.
Qed.

(** X6: the report of a device has [HasFail] exactly when the character
    devices of the device miss a required type (as when there are none)
    or a required kernel module has no directory under [/sys/module].
    Only the checks [rdma_devices] and [kernel_modules] can fail: neither
    the network interface, the link nor the namespace mode does. *)
Theorem DiagnoseDevice_fails_iff (h : Host) (dev : RdmaDevice) :
  (HasFail (DiagnoseDevice h dev).1 = true
   ↔ missing_type (RdmaDevices dev) ∨ modules_missing h ≠ [])
  ∧ Forall (λ cr, Sev cr = Fail → Check cr = "rdma_devices" ∨ Check cr = "kernel_modules")
           (Results (DiagnoseDevice h dev).1).
Proof.
  split; [apply diagnose_fails|].
  apply (Forall_outline _ (λ o, o.1.2 = Fail →
                                o.1.1 = "rdma_devices" ∨ o.1.1 = "kernel_modules"));
    [by intros cr|].
  diagnose_cases h dev; cbn [app];
    repeat (apply Forall_cons_2; [cbn [fst snd]; intros ?; first [done | tauto]|]);
    apply Forall_nil_2.
Qed.

(** X7: the report of a device has no warning exactly when the device
    has a network interface whose link can be queried and is up and the
    RDMA namespace mode can be read and is exclusive.  The checks
    [rdma_devices] and [kernel_modules] never warn. *)
Theorem DiagnoseDevice_warns_iff (h : Host) (dev : RdmaDevice) :
  (HasWarn (DiagnoseDevice h dev).1 = false
   ↔ IfName dev ≠ "" ∧ link_up h dev ∧ netns_exclusive h)
  ∧ Forall (λ cr, Sev cr = Warn → Check cr ≠ "rdma_devices" ∧ Check cr ≠ "kernel_modules")
           (Results (DiagnoseDevice h dev).1).
Proof.
  split; [apply diagnose_warns|].
  apply (Forall_outline _ (λ o, o.1.2 = Warn →
                                o.1.1 ≠ "rdma_devices" ∧ o.1.1 ≠ "kernel_modules"));
    [by intros cr|].
  diagnose_cases h dev; cbn [app];
    repeat (apply Forall_cons_2; [cbn [fst snd]; intros ?; first [done | by split]|]);
    apply Forall_nil_2.
Qed.

(** X8: the checks of a report, in order: the character devices, the
    kernel modules, the network interface, then the link when the device
    has an interface ([link_state] when the link could be queried,
    [link_attrs] when not), and the namespace mode.  The result on the
    kernel modules carries no device, every other the PCI address. *)
Theorem DiagnoseDevice_checks (h : Host) (dev : RdmaDevice) :
  let results := Results (DiagnoseDevice h dev).1 in
  map Check results
  = (["rdma_devices"; "kernel_modules"; "net_interface"]
     ++ (if decide (IfName dev = "") then []
         else if netlink_LinkByName h (IfName dev) is Ok _
              then ["link_state"] else ["link_attrs"])
     ++ ["rdma_netns_mode"])%list
  ∧ Forall (λ cr, Device cr = if decide (Check cr = "kernel_modules") then ""
                              else PciAddress dev) results
  ∧ (length results = if decide (IfName dev = "") then 4 else 5)%nat.
Proof.
  intros results. subst results.
  assert (∀ l : list CheckResult, map Check l = map (λ o, o.1.1) (map outline l)) as EC.
  { intros l. rewrite map_map. by apply map_ext. }
  split; [|split].
  - rewrite EC. diagnose_cases h dev; reflexivity.
  - apply (Forall_outline _
             (λ o, o.2 = if decide (o.1.1 = "kernel_modules") then "" else PciAddress dev));
      [by intros cr|].
    diagnose_cases h dev; cbn [app];
      repeat (apply Forall_cons_2; [reflexivity|]); apply Forall_nil_2.
  - rewrite <- (length_map outline). diagnose_cases h dev; reflexivity.
Qed.

(** X9: the diagnostics change the device in its link type alone, and
    only when the device has an interface whose link can be queried: the
    link type then is the encapsulation of the link.  Diagnosing the
    returned device again gives the same report and the same device. *)
Theorem DiagnoseDevice_device (h : Host) (dev : RdmaDevice) :
  let dev' := (DiagnoseDevice h dev).2 in
  dev' = set_LinkType dev (LinkType dev')
  ∧ LinkType dev'
    = (if decide (IfName dev = "") then LinkType dev
       else match netlink_LinkByName h (IfName dev) with
            | Ok attrs => Netlink.EncapType attrs
            | Err _ => LinkType dev
            end)
  ∧ DiagnoseDevice h dev' = DiagnoseDevice h dev.
Proof.
  intros dev'. subst dev'.
  assert (∀ d, (DiagnoseDevice h d).2 = (checkNetInterface h empty d).2) as E2.
  { intros d. unfold DiagnoseDevice.
    rewrite (checkNetInterface_device h empty d).
    pose proof (checkNetInterface_device h
                  (checkKernelModules h (checkRdmaDevices empty d)) d) as Hd.
    by destruct (checkNetInterface h _ d) as [r3 d3]. }
  rewrite E2, checkNetInterface_device.
  split; [|split].
  - case_decide; [by destruct dev|].
    destruct (netlink_LinkByName h (IfName dev)); by destruct dev.
  - case_decide; [done|]. by destruct (netlink_LinkByName h (IfName dev)).
  - case_decide as Hif; [done|].
    destruct (netlink_LinkByName h (IfName dev)) as [attrs|lerr] eqn:El; [|done].
    unfold DiagnoseDevice, checkRdmaDevices, checkNetInterface, checkLinkAttrs.
    cbn [set_LinkType RdmaDevices IfName PciAddress]. rewrite El.
    destruct (decide (IfName dev ≠ "")) as [_|?]; [|done].
    by destruct (Netlink.OperState attrs).
Qed.

End DiagnoseFacts.

(** ** Merged reports and the [doctor] command *)

Section DoctorCommand.
Import Types Rdma Doctor Main Samples.

Lemma existsb_concat {A} (f : A → bool) (ls : list (list A)) :
  existsb f (concat ls) = existsb (existsb f) ls.
Proof.
  induction ls as [|l ls IH]; [done|].
  cbn [concat existsb]. by rewrite existsb_app, IH.
Qed.

Lemma merge_flags reports :
  Forall flags_ok reports →
  HasWarn (MergeReports reports) = existsb HasWarn reports
  ∧ HasFail (MergeReports reports) = existsb HasFail reports.
Proof.
  intros Hok. destruct (MergeReports_flags_ok reports) as [-> ->].
  rewrite MergeReports_Results, !existsb_concat.
  induction Hok as [|r rs [Hw Hf] _ [IHw IHf]]; [done|].
  cbn [map existsb]. by rewrite IHw, IHf, Hw, Hf.
Qed.

Lemma Report_eq r r' :
  Results r = Results r' → HasWarn r = HasWarn r' → HasFail r = HasFail r' → r = r'.
Proof. destruct r, r'; cbn. by intros -> -> ->. Qed.

(** X10: [MergeReports] computes the flags anew from the results and
    does not read the flags of its arguments.  For reports whose flags
    agree with their results, the flags of the merge are the disjunctions
    of theirs; merging a single report gives it back exactly when its
    flags agree with its results; and merging merged reports is merging
    all of their reports at once. *)
Theorem MergeReports_flags (reports : list Report) :
  (Forall flags_ok reports →
   HasWarn (MergeReports reports) = existsb HasWarn reports
   ∧ HasFail (MergeReports reports) = existsb HasFail reports)
  ∧ (∀ r, MergeReports [r] = r ↔ flags_ok r)
  ∧ (∀ r r', Results r = Results r' → MergeReports [r] = MergeReports [r'])
  ∧ (∀ rss, MergeReports (map MergeReports rss) = MergeReports (concat rss)).
Proof.
  split; [apply merge_flags|]. split; [|split].
  - intros r. split.
    + intros <-. apply MergeReports_flags_ok.
    + intros [Hw Hf].
      destruct (MergeReports_flags_ok [r]) as [Hw' Hf'].
      assert (Results (MergeReports [r]) = Results r) as ER.
      { rewrite MergeReports_Results. cbn [map concat]. apply app_nil_r. }
      apply Report_eq; [done|..]; rewrite ?Hw', ?Hf', ER; done.
  - intros r r' E.
    destruct (MergeReports_flags_ok [r]) as [Hw Hf].
    destruct (MergeReports_flags_ok [r']) as [Hw' Hf'].
    assert (Results (MergeReports [r]) = Results (MergeReports [r'])) as ER.
    { rewrite !MergeReports_Results. cbn [map concat]. by rewrite E. }
    apply Report_eq; [done|..]; rewrite ?Hw, ?Hf, ?Hw', ?Hf', ER; done.
  - intros rss.
    assert (Results (MergeReports (map MergeReports rss))
            = Results (MergeReports (concat rss))) as ER.
    { rewrite !MergeReports_Results.
      induction rss as [|rs rss IH]; [done|].
      cbn [map concat]. rewrite MergeReports_Results, IH.
      by rewrite map_app, concat_app. }
    destruct (MergeReports_flags_ok (map MergeReports rss)) as [Hw Hf].
    destruct (MergeReports_flags_ok (concat rss)) as [Hw' Hf'].
    apply Report_eq; [done|..]; rewrite ?Hw, ?Hf, ?Hw', ?Hf', ER; done.
Qed.

Lemma MergeReports_flags_witness :
  HasWarn (MergeReports [add empty warnResult; add empty passResult]) = true
  ∧ HasFail (MergeReports [add empty warnResult; add empty passResult]) = false.
Proof.
  apply (MergeReports_flags [add empty warnResult; add empty passResult]).
  repeat constructor.
Defined.

Lemma filter_not_pass (crs : list CheckResult) :
  filter (λ cr, Sev cr ≠ Pass) crs = [] ↔ Forall (λ cr, Sev cr = Pass) crs.
Proof.
  induction crs as [|cr crs IH].
  - split; [constructor|done].
  - rewrite filter_cons. destruct (decide (Sev cr ≠ Pass)) as [Hs|Hs].
    + split; [done|]. by intros [? _]%Forall_cons_1.
    + apply dec_stable in Hs. rewrite IH. split.
      * by constructor.
      * by intros [_ ?]%Forall_cons_1.
Qed.

Lemma PrintTable_silent report :
  PrintTable report false = Line "All checks passed."
  ↔ Forall (λ cr, Sev cr = Pass) (Results report).
Proof.
  unfold PrintTable, filtered. cbn zeta. rewrite <- filter_not_pass.
  destruct (filter _ (Results report)) as [|cr crs]; [done|].
  rewrite decide_False by done. split; done.
Qed.

(** X11: [PrintTable] writes the single line "All checks passed." exactly
    when there is nothing to show: no result at all when the passes are
    shown, and only passes when they are hidden.  Otherwise the table has
    the four columns of its header in every row, one row for each result
    shown, in their order, and the device column is never empty: a
    result without a device is shown as [(host)]. *)
Theorem PrintTable_spec (report : Report) (showPass : bool) :
  (PrintTable report showPass = Line "All checks passed."
   ↔ if showPass then Results report = []
     else Forall (λ cr, Sev cr = Pass) (Results report))
  ∧ ∀ header rows,
      PrintTable report showPass = Table header rows →
      length header = 4%nat
      ∧ rows ≠ []
      ∧ map (λ row, row !! 1%nat) rows
        = map (λ cr, Some (Check cr))
              (filter (λ cr, showPass = true ∨ Sev cr ≠ Pass) (Results report))
      ∧ Forall (λ row, length row = 4%nat ∧ row !! 2%nat ≠ Some "") rows.
Proof.
  split.
  - destruct showPass; [|apply PrintTable_silent].
    unfold PrintTable, filtered. cbn zeta.
    destruct (Results report) as [|cr crs]; [done|].
    rewrite decide_False by done. split; done.
  - intros header rows. unfold PrintTable. cbn zeta.
    assert (filtered report showPass
            = filter (λ cr, showPass = true ∨ Sev cr ≠ Pass) (Results report)) as ->.
    { unfold filtered. destruct showPass.
      - induction (Results report) as [|cr crs IH]; [done|].
        rewrite filter_cons, decide_True by (by left). by rewrite <- IH.
      - induction (Results report) as [|cr crs IH]; [done|].
        rewrite !filter_cons.
        destruct (decide (Sev cr ≠ Pass)) as [Hs|Hs].
        + rewrite decide_True by (by right). by rewrite IH.
        + rewrite decide_False by (by intros [?|?]). exact IH. }
    case_decide as Hlen; [done|]. intros [= <- <-].
    split; [done|].
    split; [by destruct (filter _ (Results report))|].
    split; [by rewrite map_map|].
    apply Forall_forall. intros row (cr & -> & _)%list_elem_of_fmap.
    split; [done|]. unfold tableRow. cbn.
    destruct (decide (Device cr = "")) as [Hd|Hd]; [|congruence].
    intros E. discriminate E.
Qed.

Lemma PrintTable_spec_witness :
  length ["STATUS"; "CHECK"; "DEVICE"; "MESSAGE"] = 4%nat
  ∧ [tableRow warnResult] ≠ [].
Proof.
  destruct (PrintTable_spec (add (add empty passResult) warnResult) false) as [_ H].
  destruct (H ["STATUS"; "CHECK"; "DEVICE"; "MESSAGE"] [tableRow warnResult] eq_refl)
    as (H1 & H2 & _).
  split; [exact H1|exact H2].
Defined.

End DoctorCommand.

Section DoctorRun.
Import Types Rdma Doctor Main Samples.

Lemma DiscoverAll_nonempty h devices : DiscoverAll h = Ok devices → devices ≠ [].
Proof.
  unfold DiscoverAll. destruct (os_ReadDir h sysBusPci) as [entries|e]; [|done].
  cbn zeta. case_decide as Hlen; [done|]. intros [= <-] E. by rewrite E in Hlen.
Qed.

(** The devices of a command that selects by address or by interface
    name passed the validation of the required types. *)
Lemma selectDevices_Ok (h : LinkHost) what pci ifname devices :
  selectDevices h what pci ifname = Ok devices →
  devices ≠ []
  ∧ (pci ≠ "" ∨ ifname ≠ "" →
     ∀ dev, dev ∈ devices → ¬ missing_type (RdmaDevices dev)).
Proof.
  unfold selectDevices.
  destruct (decide (pci ≠ "")) as [Hp|Hp].
  - destruct (DiscoverByPCI h pci) as [dev|err] eqn:Hd; [|done].
    intros [= <-]. split; [done|]. intros _ dev' ->%list_elem_of_singleton.
    apply DiscoverByPCI_built in Hd as (-> & _ & Hv).
    by apply VerifyRdmaDevices_None_present.
  - destruct (decide (ifname ≠ "")) as [Hi|Hi].
    + destruct (DiscoverByIfName h ifname) as [dev|err] eqn:Hd; [|done].
      intros [= <-]. split; [done|]. intros _ dev' ->%list_elem_of_singleton.
      unfold DiscoverByIfName in Hd.
      destruct (GetPciAddress h ifname) as [pciAddr|err]; [|done].
      destruct (DiscoverByPCI h pciAddr) as [dev0|err] eqn:Hd0; [|done].
      injection Hd as <-.
      apply DiscoverByPCI_built in Hd0 as (-> & _ & Hv).
      by apply VerifyRdmaDevices_None_present.
    + destruct (DiscoverAll h) as [devs|err] eqn:Hd; [|done].
      intros [= <-]. split; [by eapply DiscoverAll_nonempty|].
      intros [?|?]; done.
Qed.

Lemma diagnosed_flags_ok (h : Host) devices :
  Forall flags_ok (map (λ dev, (DiagnoseDevice h dev).1) devices).
Proof.
  induction devices as [|dev devices IH]; constructor; [|done].
  apply DiagnoseDevice_flags_ok.
Qed.

Lemma existsb_map_true {A B} (f : B → bool) (g : A → B) l :
  existsb f (map g l) = true ↔ ∃ x, x ∈ l ∧ f (g x) = true.
Proof.
  rewrite existsb_exists. split.
  - intros (y & Hin & Hy). apply in_map_iff in Hin as (x & <- & Hin).
    exists x. split; [by apply list_elem_of_In|done].
  - intros (x & Hin & Hx). exists (g x). split; [|done].
    apply in_map. by apply list_elem_of_In.
Qed.

Lemma diagnosed_severities (h : Host) devices :
  Forall (λ cr, Sev cr = Pass ∨ Sev cr = Warn ∨ Sev cr = Fail)
    (Results (MergeReports (map (λ dev, (DiagnoseDevice h dev).1) devices))).
Proof.
  rewrite MergeReports_Results.
  induction devices as [|dev devices IH]; [constructor|].
  cbn [map concat]. apply Forall_app. split; [apply DiagnoseDevice_severities|done].
Qed.

(** X12: the [doctor] command, when the discovery succeeds, diagnoses
    at least one device.  Its merged report fails exactly when a kernel
    module is missing or a device misses a required type, and the latter
    cannot happen when the device is selected by address or by interface
    name, as the discovery has rejected such a device.  The report is free
    of warnings exactly when the namespace mode is exclusive and every
    device has an interface with a link that is up.  With the passes
    hidden, the table is the line "All checks passed." exactly when
    neither flag is set, which is when the strict command exits with 0;
    without [--strict] the exit code is 0 exactly when nothing failed. *)
Theorem doctorRun_Ok (h : LinkHost) (pci ifname : string) (strict : bool)
        (merged : Report) (code : nat) :
  doctorRun h pci ifname strict = Ok (merged, code) →
  ∃ devices,
    selectDevices h "device discovery failed" pci ifname = Ok devices
    ∧ devices ≠ []
    ∧ (HasFail merged = true
       ↔ modules_missing h ≠ []
         ∨ ∃ dev, dev ∈ devices ∧ missing_type (RdmaDevices dev))
    ∧ (pci ≠ "" ∨ ifname ≠ "" → (HasFail merged = true ↔ modules_missing h ≠ []))
    ∧ (HasWarn merged = false
       ↔ netns_exclusive h
         ∧ ∀ dev, dev ∈ devices → IfName dev ≠ "" ∧ link_up h dev)
    ∧ (PrintTable merged false = Line "All checks passed."
       ↔ HasFail merged = false ∧ HasWarn merged = false)
    ∧ (code = exitOK
       ↔ HasFail merged = false ∧ (strict = true → HasWarn merged = false))
    ∧ (code ≠ exitOK → code = exitRuntimeError).
Proof.
  unfold doctorRun.
  destruct (selectDevices h _ pci ifname) as [devices|err] eqn:Hsel; [|done].
  cbn zeta. intros [= <- <-]. exists devices.
  destruct (selectDevices_Ok _ _ _ _ _ Hsel) as [Hne Hsingle].
  set (reports := map (λ dev, (DiagnoseDevice h dev).1) devices).
  destruct (merge_flags reports (diagnosed_flags_ok h devices)) as [Hw Hf].
  assert (HasFail (MergeReports reports) = true
          ↔ modules_missing h ≠ []
            ∨ ∃ dev, dev ∈ devices ∧ missing_type (RdmaDevices dev)) as Hfail.
  { rewrite Hf. unfold reports. rewrite existsb_map_true. split.
    - intros (dev & Hin & [Hm|Hm]%diagnose_fails); [right; by exists dev|by left].
    - intros [Hm|(dev & Hin & Hm)].
      + destruct devices as [|dev devices']; [done|].
        exists dev. split; [by left|]. apply diagnose_fails. by right.
      + exists dev. split; [done|]. apply diagnose_fails. by left. }
  assert (HasWarn (MergeReports reports) = false
          ↔ netns_exclusive h
            ∧ ∀ dev, dev ∈ devices → IfName dev ≠ "" ∧ link_up h dev) as Hwarn.
  { rewrite Hw. unfold reports. split.
    - intros Hex.
      assert (∀ dev, dev ∈ devices → HasWarn (DiagnoseDevice h dev).1 = false) as Hall.
      { intros dev Hin.
        destruct (HasWarn (DiagnoseDevice h dev).1) eqn:E; [|done].
        rewrite <- Hex. symmetry. apply existsb_map_true. by exists dev. }
      split.
      + destruct devices as [|dev devices']; [done|].
        assert (dev ∈ dev :: devices') as Hin by left.
        by apply Hall, diagnose_warns in Hin as (_ & _ & ?).
      + intros dev Hin. by apply Hall, diagnose_warns in Hin as (? & ? & _).
    - intros [Hns Hall].
      destruct (existsb _ _) eqn:E; [|done].
      apply existsb_map_true in E as (dev & Hin & Hdev).
      assert (HasWarn (DiagnoseDevice h dev).1 = false) as E'.
      { apply diagnose_warns. destruct (Hall dev Hin). done. }
      congruence. }
  split; [done|]. split; [done|]. split; [done|].
  split.
  { intros Hsel1. rewrite Hfail. split; [|by left].
    intros [Hm|(dev & Hin & Hm)]; [done|]. by destruct (Hsingle Hsel1 dev Hin). }
  split; [done|].
  split.
  { rewrite PrintTable_silent.
    destruct (MergeReports_flags_ok reports) as [Ew Ef]. rewrite Ew, Ef.
    pose proof (diagnosed_severities h devices) as Hsev. fold reports in Hsev.
    split.
    - intros Hall. split; apply existsb_is_sev_false;
        (eapply Forall_impl; [exact Hall|]); by intros cr ->.
    - intros [Hnf Hnw]. apply Forall_forall. intros cr Hin.
      rewrite Forall_forall in Hsev.
      destruct (Hsev cr Hin) as [?|[Hs|Hs]]; [done|..].
      + by rewrite (existsb_is_sev_true Warn _ cr Hin Hs) in Hnw.
      + by rewrite (existsb_is_sev_true Fail _ cr Hin Hs) in Hnf. }
  unfold doctorExit, exitOK, exitRuntimeError.
  destruct (HasFail (MergeReports reports)), strict, (HasWarn (MergeReports reports));
    cbn; (split; [split|done]); try done; try (by intros [? ?]);
    try (intros [_ H]; by specialize (H eq_refl)); by intros.
Qed.

Lemma doctorRun_Ok_witness :
  ∃ devices,
    selectDevices busLinkHost "device discovery failed" "0000:17:00.0" "" = Ok devices
    ∧ devices ≠ [].
Proof.
  destruct (doctorRun_Ok busLinkHost "0000:17:00.0" "" true
              (MergeReports
                 [(DiagnoseDevice busHost
                     (buildRdmaDevice busHost "0000:17:00.0"
                        (GetRdmaCharDevices busHost "0000:17:00.0"))).1])
              0%nat)
    as (devices & H1 & H2 & _).
  - vm_compute. reflexivity.
  - exists devices. split; [exact H1|exact H2].
Defined.

End DoctorRun.

(** ** Container annotations *)

Section AnnotationFacts.
Import Types Cdi Samples.

Lemma str_app_inv_head (a b c : string) : a +:+ b = a +:+ c → b = c.
Proof.
  induction a as [|x a IH]; [done|].
  rewrite !str_app_cons. intros [= H]. by apply IH.
Qed.

Lemma QualifiedName_inj vendor class n1 n2 :
  QualifiedName vendor class n1 = QualifiedName vendor class n2 → n1 = n2.
Proof.
  unfold QualifiedName. intros H.
  by do 4 apply str_app_inv_head in H.
Qed.

Local Abbreviation annotate prefix kind :=
  (λ (annotations : gmap string string) dev,
     let qn := QualifiedName prefix kind (PciAddress dev) in
     <[qn := qn]> annotations).

Lemma annotations_lookup prefix kind devices : ∀ (m : gmap string string) k,
  foldl (annotate prefix kind) m devices !! k
  = if decide (k ∈ map (λ dev, QualifiedName prefix kind (PciAddress dev)) devices)
    then Some k else m !! k.
Proof.
  induction devices as [|dev devices IH]; intros m k; cbn [foldl map].
  - rewrite decide_False; [done|]. by intros ?%elem_of_nil.
  - rewrite IH. destruct (decide (k ∈ map _ devices)) as [Hin|Hin].
    + rewrite decide_True; [done|]. by right.
    + destruct (decide (k = QualifiedName prefix kind (PciAddress dev))) as [->|Hne].
      * rewrite lookup_insert_eq, decide_True; [done|]. by left.
      * rewrite lookup_insert_ne by done. rewrite decide_False; [done|].
        intros [?|?]%elem_of_cons; done.
Qed.

Lemma annotations_size_le prefix kind devices : ∀ (m : gmap string string),
  (size (foldl (annotate prefix kind) m devices) ≤ size m + length devices)%nat.
Proof.
  induction devices as [|dev devices IH]; intros m; cbn [foldl length]; [lia|].
  etrans; [apply IH|]. rewrite map_size_insert. cbn zeta.
  destruct (m !! _); unfold id; lia.
Qed.

Lemma annotations_size_NoDup prefix kind devices : ∀ (m : gmap string string),
  NoDup (map PciAddress devices) →
  (∀ dev, dev ∈ devices → m !! QualifiedName prefix kind (PciAddress dev) = None) →
  size (foldl (annotate prefix kind) m devices) = (size m + length devices)%nat.
Proof.
  induction devices as [|dev devices IH]; intros m Hnd Hm; cbn [foldl length]; [lia|].
  cbn [map] in Hnd. apply NoDup_cons in Hnd as [Hdev Hnd].
  rewrite IH; [|done|].
  - rewrite map_size_insert_None; [lia|]. apply Hm. by left.
  - intros d Hd. cbn zeta. rewrite lookup_insert_ne; [apply Hm; by right|].
    intros E%QualifiedName_inj. apply Hdev. rewrite E.
    apply list_elem_of_fmap. by exists d.
Qed.

(** X14: [CreateContainerAnnotations] fails on an empty device list and
    on no other.  Otherwise the keys of the map are exactly the qualified
    names [prefix/kind=address] of the devices, and each key is mapped to
    itself.  Devices sharing an address share one entry: the map has at
    most as many entries as there are devices, and exactly as many when
    the addresses differ. *)
Theorem CreateContainerAnnotations_spec (devices : list RdmaDevice)
        (resourcePrefix resourceKind : string) :
  (devices = [] →
   CreateContainerAnnotations devices resourcePrefix resourceKind
   = Err "devices list is empty")
  ∧ (devices ≠ [] →
     ∃ annotations,
       CreateContainerAnnotations devices resourcePrefix resourceKind = Ok annotations
       ∧ (∀ k v, annotations !! k = Some v
                 ↔ v = k ∧ ∃ dev, dev ∈ devices
                      ∧ k = QualifiedName resourcePrefix resourceKind (PciAddress dev))
       ∧ (1 ≤ size annotations ≤ length devices)%nat
       ∧ (NoDup (map PciAddress devices) → size annotations = length devices)).
Proof.
  unfold CreateContainerAnnotations. split; [by intros ->|].
  intros Hne. rewrite decide_False by (by destruct devices).
  eexists. split; [done|]. split; [|split].
  - intros k v. rewrite annotations_lookup, lookup_empty.
    destruct (decide (k ∈ map _ devices)) as [Hin|Hin].
    + apply list_elem_of_fmap in Hin as (dev & -> & Hin). split.
      * intros [= <-]. split; [done|]. by exists dev.
      * by intros [-> _].
    + split; [done|]. intros [_ (dev & Hd & ->)]. destruct Hin.
      apply list_elem_of_fmap. by exists dev.
  - split.
    + destruct devices as [|dev devices']; [done|].
      set (m := foldl _ _ _).
      assert (m !! QualifiedName resourcePrefix resourceKind (PciAddress dev)
              = Some (QualifiedName resourcePrefix resourceKind (PciAddress dev))) as Hk.
      { unfold m. rewrite annotations_lookup. rewrite decide_True; [done|]. by left. }
      destruct (decide (size m = 0)) as [E|E]; [|lia].
      apply map_size_empty_iff in E. by rewrite E, lookup_empty in Hk.
    + etrans; [apply annotations_size_le|]. by rewrite map_size_empty.
  - intros Hnd. rewrite annotations_size_NoDup; [by rewrite map_size_empty|done|].
    intros dev _. apply lookup_empty.
Qed.

Lemma CreateContainerAnnotations_spec_witness :
  ∃ annotations,
    CreateContainerAnnotations sampleDevices "rdma" "net" = Ok annotations
    ∧ size annotations = 1%nat.
Proof.
  destruct (CreateContainerAnnotations_spec sampleDevices "rdma" "net") as [_ H].
  destruct H as (annotations & H1 & _ & _ & H2); [discriminate|].
  exists annotations. split; [exact H1|]. apply H2. vm_compute. repeat constructor.
  intros H. inversion H.
Defined.

End AnnotationFacts.

(** ** The outcome of a creation *)

Section CreateOutcome.
Import Types Cdi Samples.

Variable CurrentVersion : string.
Variable json_MarshalIndent : CdiSpecs.Spec → result string.
Variable json_Marshal : CdiSpecs.Spec → result string.
Variable yaml_JSONToYAML : string → result string.

Local Abbreviation marshalSpec := (Cdi.marshalSpec json_MarshalIndent json_Marshal yaml_JSONToYAML).
Local Abbreviation buildSpec := (Cdi.buildSpec CurrentVersion).
Local Abbreviation CreateCDISpec :=
  (Cdi.CreateCDISpec CurrentVersion json_MarshalIndent json_Marshal yaml_JSONToYAML).

Lemma MkdirAll_frame fs dir fs1 :
  OS.MkdirAll fs dir = OS.Done fs1 →
  OS.locked fs1 = OS.locked fs
  ∧ OS.nodes fs1 !! dir = Some OS.Dir
  ∧ ∀ p, p ≠ dir → OS.nodes fs1 !! p = OS.nodes fs !! p.
Proof.
  unfold OS.MkdirAll.
  destruct (OS.nodes fs !! dir) as [[|data]|] eqn:E; [| done |].
  - by intros [= <-].
  - repeat case_decide; try done. intros [= <-]. cbn [OS.nodes OS.locked].
    split; [done|]. split; [apply lookup_insert_eq|].
    intros p Hp. by apply lookup_insert_ne.
Qed.

Lemma WriteFile_Done fs name data fs2 :
  OS.WriteFile fs name data = OS.Done fs2 →
  OS.nodes fs !! name ≠ Some OS.Dir
  ∧ (name ∉ OS.locked fs)
  ∧ fs2 = OS.mkFS (<[name := OS.File data]> (OS.nodes fs)) (OS.locked fs).
Proof.
  unfold OS.WriteFile.
  destruct (OS.nodes fs !! name) as [[|old]|]; [done|..];
    case_decide; try done; by intros [= <-].
Qed.


End CreateOutcome.


(** ** Patterns without magic bytes *)

Section PlainPatterns.
Import Filepath.

Lemma matches_lits_refl s : matches (lits s) s = true.
Proof.
  induction s as [|c s IH]; [done|].
  cbn [lits matches]. by rewrite bool_decide_eq_true_2, IH.
Qed.

Lemma matches_lits_prepend s ts n :
  matches ts n = true → matches (lits s ++ ts) (s +:+ n) = true.
Proof.
  intros H. induction s as [|c s IH]; [done|].
  rewrite str_app_cons. cbn [lits app matches].
  by rewrite bool_decide_eq_true_2, IH.
Qed.

Lemma matches_Star_noslash x ts t :
  noslash x → matches ts t = true → matches (Star :: ts) (x +:+ t) = true.
Proof.
  intros Hx Ht. induction x as [|c x IH].
  - rewrite matches_Star. change ("" +:+ t) with t. by rewrite Ht.
  - apply noslash_cons in Hx as [Hc Hx].
    rewrite matches_Star, str_app_cons, IH by done.
    rewrite bool_decide_eq_false_2 by done. apply orb_true_r.
Qed.

Lemma hasMeta_app a b : hasMeta (a +:+ b) = hasMeta a || hasMeta b.
Proof.
  induction a as [|c a IH]; [done|].
  rewrite str_app_cons. cbn [hasMeta]. by rewrite IH, orb_assoc.
Qed.

Lemma hasMeta_map_slash s :
  hasMeta s = false → hasMeta (Str.map slash_to_underscore s) = false.
Proof.
  induction s as [|c s IH]; [done|]. cbn [hasMeta Str.map].
  intros [Hc Hs]%orb_false_elim. rewrite IH, orb_false_r by done.
  unfold slash_to_underscore. destruct (decide (c = "/"%char)); [done|exact Hc].
Qed.

Lemma scan_plain_all e : hasMeta e = false → scan SNormal e = Some (lits e).
Proof.
  intros H. pose proof (scan_plain e "" H) as E.
  rewrite str_app_nil_r in E. rewrite E. cbn [scan]. by rewrite app_nil_r.
Qed.

Lemma split_Forall_plain s :
  hasMeta s = false → Forall (λ e, hasMeta e = false) (split s).
Proof.
  induction s as [|c s IH]; [by repeat constructor|].
  cbn [hasMeta split]. intros [Hc Hs]%orb_false_elim.
  specialize (IH Hs). destruct (decide (c = Separator)) as [Hsep|Hsep].
  - by constructor.
  - destruct (split s) as [|x xs];
      [repeat constructor; cbn [hasMeta]; by rewrite Hc|].
    apply Forall_cons_1 in IH as [Hx Hxs].
    constructor; [|done]. cbn [hasMeta]. by rewrite Hc, Hx.
Qed.

Lemma split_concat (l : list string) :
  l ≠ [] → Forall noslash l → split (String.concat "/" l) = l.
Proof.
  induction l as [|x l IH]; [done|]. intros _ [Hx Hl]%Forall_cons_1.
  destruct l as [|y l].
  - cbn [String.concat]. by apply split_noslash.
  - change (String.concat "/" (x :: y :: l))
      with (x +:+ "/" +:+ String.concat "/" (y :: l)).
    rewrite split_app_slash, IH by done. by rewrite split_noslash.
Qed.

Lemma clean_steps_Forall (P : string → Prop) root l : ∀ st,
  Forall P st → Forall P l → Forall P (foldl (clean_step root) st l).
Proof.
  induction l as [|c l IH]; intros st Hst Hl; [done|].
  apply Forall_cons_1 in Hl as [Hc Hl]. cbn [foldl]. apply IH; [|done].
  unfold clean_step.
  destruct (decide (c = "")); [done|]. destruct (decide (c = ".")); [done|].
  destruct (decide (c = "..")).
  - destruct st as [|top st']; [destruct root; by repeat constructor|].
    apply Forall_cons_1 in Hst as [? ?].
    destruct (decide (top = "..")); [by repeat constructor|done].
  - by constructor.
Qed.

(** The elements of a joined path whose last element is a regular file
    name: the cleaned elements of the directory, then the file name. *)
Lemma split_Join_file dir :
  dir ≠ "" →
  ∃ pre, (∀ P : string → Prop, P "" → Forall P (split dir) → Forall P pre)
         ∧ ∀ file', noslash file' → regular file' →
                    split (Join [dir; file']) = (pre ++ [file'])%list.
Proof.
  intros Hdir.
  set (root := rooted dir).
  set (st0 := foldl (clean_step root) [] (split dir)).
  exists ((if root then [""] else []) ++ rev st0)%list. split.
  - intros P HP Hall. apply Forall_app. split; [destruct root; by repeat constructor|].
    apply Forall_rev. by apply clean_steps_Forall.
  - intros file' Hns Hreg. rewrite Join_pair by done. unfold Clean. cbn zeta.
    assert (rooted (dir +:+ "/" +:+ file') = root) as ->.
    { unfold root. destruct dir; [done|]. by rewrite str_app_cons. }
    rewrite split_app_slash, (split_noslash file') by done.
    rewrite foldl_app. cbn [foldl]. fold st0.
    rewrite clean_step_regular by done.
    assert (Forall noslash (rev st0 ++ [file'])) as Hall.
    { apply Forall_app. split; [|by repeat constructor].
      apply Forall_rev, clean_steps_Forall; [constructor|apply split_Forall_noslash]. }
    assert ((rev st0 ++ [file'])%list ≠ []) as Hne by (by destruct (rev st0)).
    cbn [rev]. destruct root.
    + change ("/" +:+ ?s) with ("" +:+ "/" +:+ s).
      by rewrite split_app_slash, split_concat.
    + change ("" +:+ ?s) with s. rewrite split_concat by done. done.
Qed.

Lemma compile_plain_snoc pre e ts :
  Forall (λ e, hasMeta e = false) pre → scan SNormal e = Some ts →
  compile (pre ++ [e]) = Some (map lits pre ++ [ts])%list.
Proof.
  intros Hpre He. induction Hpre as [|x pre Hx _ IH]; cbn [app compile map].
  - by rewrite He.
  - by rewrite (scan_plain_all x Hx), IH.
Qed.

Lemma matches_elems_plain_snoc pre ts n :
  matches_elems (map lits pre ++ [ts]) (pre ++ [n]) = matches ts n.
Proof.
  induction pre as [|x pre IH]; cbn [app map matches_elems].
  - apply andb_true_r.
  - by rewrite matches_lits_refl, IH.
Qed.

Lemma elem_of_names fs p : p ∈ OS.names fs ↔ is_Some (OS.nodes fs !! p).
Proof.
  unfold OS.names. rewrite list_elem_of_fmap. split.
  - intros ([q n] & -> & Hin). apply elem_of_map_to_list in Hin. by exists n.
  - intros [n Hn]. exists (p, n). split; [done|]. by apply elem_of_map_to_list.
Qed.

Lemma Glob_spec fs pattern m :
  Glob fs pattern = Some m →
  ∃ tss, compile (split pattern) = Some tss
         ∧ ∀ p, p ∈ m ↔ is_Some (OS.nodes fs !! p) ∧ matches_elems tss (split p) = true.
Proof.
  unfold Glob. destruct (compile (split pattern)) as [tss|]; [|done].
  intros [= <-]. exists tss. split; [done|]. intros p.
  rewrite list_elem_of_filter, elem_of_names. tauto.
Qed.

End PlainPatterns.

(** ** Removal, again *)

Section CleanupAgain.
Import Types Filepath Cdi Samples.

(** What [CleanupSpecs] lists is among its candidates, and it leaves
    every other path as it was. *)
Lemma CleanupSpecs_listed fs dir prefix name dryRun :
  let out := CleanupSpecs fs dir prefix name dryRun in
  (∀ p, p ∈ out.1.2 →
        is_Some (OS.nodes fs !! p)
        ∧ ∃ paths, candidates fs dir prefix name = Ok paths ∧ p ∈ paths)
  ∧ (∀ p, p ∉ out.1.2 → OS.nodes out.1.1 !! p = OS.nodes fs !! p).
Proof.
  cbn zeta. rewrite CleanupSpecs_candidates.
  destruct (candidates fs dir prefix name) as [paths|err] eqn:Hc.
  - destruct (candidates_spec _ _ _ _ _ Hc) as [Hnd _].
    destruct (cleanupFiles_spec fs paths dryRun Hnd) as (Hpre & _ & _ & _ & Hkeep & _).
    split; [|exact Hkeep].
    intros p Hp. destruct Hpre as [k Hk].
    assert (p ∈ existing fs paths) as [? ?]%existing_elem
      by (rewrite Hk; apply elem_of_app; by left).
    split; [done|]. by exists paths.
  - split; [|done]. cbn [fst snd]. by intros p ?%elem_of_nil.
Qed.

(** A format that [marshalSpec] accepts has four letters. *)
Lemma supported_format format :
  ¬ unsupported format →
  noslash format ∧ String.length format = 4%nat ∧ from_last_dot format = "".
Proof.
  intros Hs.
  assert (Str.ToLower format = "json" ∨ Str.ToLower format = "yaml") as Hl.
  { unfold unsupported in Hs.
    destruct (decide (Str.ToLower format = "json")); [by left|].
    destruct (decide (Str.ToLower format = "yaml")); [by right|].
    destruct Hs. by split. }
  assert (∀ c d, Str.lower c = d → d ≠ "/"%char → d ≠ "."%char →
                 c ≠ "/"%char ∧ c ≠ "."%char) as Hc.
  { intros c d <- H1 H2. split; intros ->; by vm_compute in H1, H2. }
  destruct format as [|c1 [|c2 [|c3 [|c4 [|c5 r]]]]];
    try (destruct Hl as [Hl|Hl]; discriminate Hl).
  assert (∀ c, c ∈ [c1; c2; c3; c4] → c ≠ "/"%char ∧ c ≠ "."%char) as Hall.
  { intros c Hin. destruct Hl as [Hl|Hl]; injection Hl as H1 H2 H3 H4;
      repeat (apply elem_of_cons in Hin as [->|Hin]; [eapply Hc; [eassumption|done..]|]);
      by apply elem_of_nil in Hin. }
  destruct (Hall c1) as [? ?]; [by left|].
  destruct (Hall c2) as [? ?]; [by right; left|].
  destruct (Hall c3) as [? ?]; [by right; right; left|].
  destruct (Hall c4) as [? ?]; [by right; right; right; left|].
  split; [|split; [done|]].
  - repeat (apply noslash_cons; split; [done|]). done.
  - cbn [from_last_dot]. by rewrite !decide_False by done.
Qed.

Lemma glob_same_pattern fs fs' pattern m :
  Glob fs pattern = Some m →
  ∃ m', Glob fs' pattern = Some m'
        ∧ ∀ p, p ∈ m' → is_Some (OS.nodes fs' !! p)
                       ∧ (is_Some (OS.nodes fs !! p) → p ∈ m).
Proof.
  intros (tss & Hc & Hm)%Glob_spec.
  assert (Glob fs' pattern
          = Some (filter (λ p, matches_elems tss (split p) = true) (OS.names fs'))) as G.
  { unfold Glob. by rewrite Hc. }
  eexists. split; [exact G|]. intros p.
  rewrite list_elem_of_filter, elem_of_names, Hm. tauto.
Qed.

(** With fewer files there are fewer candidates, and no new error. *)
Lemma candidates_shrink fs fs' dir prefix name paths :
  (∀ p, is_Some (OS.nodes fs' !! p) → is_Some (OS.nodes fs !! p)) →
  candidates fs dir prefix name = Ok paths →
  ∃ paths', candidates fs' dir prefix name = Ok paths'
            ∧ ∀ p, p ∈ paths' → is_Some (OS.nodes fs' !! p) → p ∈ paths.
Proof.
  intros Hsub. unfold candidates. cbn zeta.
  set (d := if decide (dir = "") then DefaultOutputDir else dir).
  case_decide; [intros [= <-]; eexists; split; [done|]; by intros p ? _|].
  intros (mj & my & -> & Gj & Gy)%globLoop_known.
  destruct (glob_same_pattern fs fs' _ _ Gj) as (mj' & Gj' & Hj).
  destruct (glob_same_pattern fs fs' _ _ Gy) as (my' & Gy' & Hy).
  exists (mj' ++ my')%list. split.
  - cbn [globLoop]. by rewrite Gj', Gy'.
  - intros p [Hp|Hp]%elem_of_app Hex; apply elem_of_app.
    + left. apply Hj in Hp as [_ Hp]. by apply Hp, Hsub.
    + right. apply Hy in Hp as [_ Hp]. by apply Hp, Hsub.
Qed.

(** X17: after a removal that returned no error, the same call finds
    nothing more: run again on the file system it left, with or without
    [dry-run], [CleanupSpecs] lists no file, changes nothing and returns
    no error. *)
Theorem CleanupSpecs_idempotent fs dir prefix name :
  let out := CleanupSpecs fs dir prefix name false in
  out.2 = None →
  ∀ dryRun, CleanupSpecs out.1.1 dir prefix name dryRun = (out.1.1, [], None).
Proof.
  cbn zeta. rewrite CleanupSpecs_candidates.
  destruct (candidates fs dir prefix name) as [paths|err] eqn:Hc; [|done].
  destruct (candidates_spec _ _ _ _ _ Hc) as [Hnd _].
  destruct (cleanupFiles_spec fs paths false Hnd) as (_ & Hall & _ & Hrem & Hkeep & _).
  set (out := cleanupFiles fs paths false) in *.
  intros Hok dryRun. specialize (Hall Hok).
  assert (∀ p, is_Some (OS.nodes out.1.1 !! p) → is_Some (OS.nodes fs !! p)) as Hsub.
  { intros p Hp. destruct (decide (p ∈ out.1.2)) as [Hin|Hin].
    - assert (removed_by fs out.1.1 p) as [? ?] by (by apply Hrem). done.
    - by rewrite Hkeep in Hp. }
  destruct (candidates_shrink fs out.1.1 dir prefix name paths Hsub Hc)
    as (paths' & Hc' & Hin').
  rewrite CleanupSpecs_candidates, Hc'. unfold cleanupFiles.
  apply cleanupLoop_missing. intros p Hp.
  destruct (OS.nodes out.1.1 !! p) as [n|] eqn:E; [|done].
  assert (p ∈ paths) as Hin by (apply Hin'; [done|by rewrite E]).
  assert (p ∈ out.1.2) as Hrm.
  { rewrite Hall. apply existing_elem. split; [|done]. apply Hsub. by rewrite E. }
  assert (removed_by fs out.1.1 p) as [_ Hgone] by (by apply Hrem).
  by rewrite Hgone in E.
Qed.

(** The pattern of the prefix mode matches every file name that
    [SpecFileName] builds for the prefix and a name without separator. *)
Lemma glob_finds fs dir prefix name ext :
  dir ≠ "" → hasMeta dir = false → hasMeta prefix = false → noslash name →
  ext ∈ ["json"; "yaml"] →
  ∃ m, Glob fs (globPattern dir (Str.ReplaceAll prefix "/" "_") ext) = Some m
       ∧ (is_Some (OS.nodes fs !! Join [dir; SpecFileName prefix name ext]) →
          Join [dir; SpecFileName prefix name ext] ∈ m).
Proof.
  intros Hdir Hmd Hmp Hname Hext.
  pose proof (known_ext_facts ext Hext) as (Hns & Hlen & Hdot & Hscan & _).
  pose proof (safePrefix_noslash prefix) as Hsp.
  set (sp := Str.ReplaceAll prefix "/" "_") in *.
  assert (hasMeta sp = false) as Hmsp.
  { unfold sp. rewrite ReplaceAll_slash. by apply hasMeta_map_slash. }
  set (head := FilePrefix +:+ "_" +:+ sp +:+ "_").
  assert (noslash head) as Hnh.
  { unfold head. repeat apply noslash_app; done. }
  assert (hasMeta head = false) as Hmh.
  { unfold head. rewrite !hasMeta_app, Hmsp. reflexivity. }
  assert (noslash (String "." ext)) as Hne by (by apply noslash_cons).
  assert (FilePrefix +:+ "_" +:+ sp +:+ "_*." +:+ ext
          = (head +:+ "*") +:+ String "." ext) as Epat.
  { unfold head. by rewrite !str_app_assoc. }
  assert (SpecFileName prefix name ext = (head +:+ name) +:+ String "." ext) as Efile.
  { unfold SpecFileName, head. cbn zeta. fold sp. by rewrite !str_app_assoc. }
  destruct (split_Join_file dir Hdir) as (pre & Hpre & Hsplit).
  assert (Forall (λ e, hasMeta e = false) pre) as Hplain.
  { apply Hpre; [done|]. by apply split_Forall_plain. }
  set (ts := (lits head ++ Star :: lits (String "." ext))%list).
  assert (scan SNormal ((head +:+ "*") +:+ String "." ext) = Some ts) as Hts.
  { rewrite str_app_assoc, (scan_plain head) by done.
    rewrite str_app_cons. cbn [scan].
    rewrite decide_True by done. change ("" +:+ ?s) with s.
    by rewrite Hscan. }
  assert (Glob fs (globPattern dir sp ext)
          = Some (filter (λ p, matches_elems (map lits pre ++ [ts]) (split p) = true)
                         (OS.names fs))) as G.
  { unfold Glob, globPattern. rewrite Epat.
    rewrite Hsplit;
      [|repeat apply noslash_app; by try apply noslash_cons|by apply regular_ext].
    by rewrite (compile_plain_snoc pre _ ts Hplain Hts). }
  eexists. split; [exact G|]. intros Hex.
  apply list_elem_of_filter. split; [|by apply elem_of_names].
  rewrite Efile.
  rewrite Hsplit; [|repeat apply noslash_app; done|by apply regular_ext].
  rewrite matches_elems_plain_snoc. unfold ts.
  rewrite str_app_assoc. apply matches_lits_prepend.
  apply matches_Star_noslash; [done|apply matches_lits_refl].
Qed.

(** The prefix mode lists an existing file that bears the name
    [SpecFileName] builds for the prefix. *)
Lemma prefix_cleanup_lists fs dir prefix name ext dryRun :
  dir ≠ "" → hasMeta dir = false → hasMeta prefix = false → noslash name →
  ext ∈ ["json"; "yaml"] →
  let filePath := Join [dir; SpecFileName prefix name ext] in
  is_Some (OS.nodes fs !! filePath) →
  let out := CleanupSpecs fs dir prefix "" dryRun in
  (out.2 = None → filePath ∈ out.1.2)
  ∧ (dryRun = true → out.2 = None ∧ out.1.1 = fs)
  ∧ (dryRun = false → out.2 = None → OS.nodes out.1.1 !! filePath = None).
Proof.
  intros Hdir Hmd Hmp Hname Hfmt filePath Hex. cbn zeta.
  rewrite CleanupSpecs_candidates.
  assert (∃ paths, candidates fs dir prefix "" = Ok paths ∧ filePath ∈ paths)
    as (paths & Hc & Hin).
  { unfold candidates. cbn zeta. rewrite (decide_False (P := dir = "")) by done.
    rewrite decide_False by (by intros ?).
    destruct (glob_finds fs dir prefix name "json" Hdir Hmd Hmp Hname)
      as (mj & Gj & Hj); [left|].
    destruct (glob_finds fs dir prefix name "yaml" Hdir Hmd Hmp Hname)
      as (my & Gy & Hy); [right; left|].
    exists (mj ++ my)%list. split; [cbn [globLoop]; by rewrite Gj, Gy|].
    apply elem_of_app.
    apply elem_of_cons in Hfmt as [->|Hfmt]; [left; by apply Hj|].
    apply elem_of_cons in Hfmt as [->|Hfmt]; [right; by apply Hy|].
    by apply elem_of_nil in Hfmt. }
  rewrite Hc.
  destruct (candidates_spec _ _ _ _ _ Hc) as [Hnd _].
  destruct (cleanupFiles_spec fs paths dryRun Hnd)
    as (_ & Hall & _ & Hrem & _ & Hdry).
  assert ((cleanupFiles fs paths dryRun).2 = None →
          filePath ∈ (cleanupFiles fs paths dryRun).1.2) as Hlisted.
  { intros Hnone. rewrite (Hall Hnone). by apply existing_elem. }
  split; [done|]. split.
  - intros Htrue. destruct (Hdry Htrue). done.
  - intros Hfalse Hnone.
    assert (removed_by fs (cleanupFiles fs paths dryRun).1.1 filePath) as [_ ?].
    { apply Hrem. split; [done|]. by apply Hlisted. }
    done.
Qed.

Lemma map_slash_app a b :
  Str.map slash_to_underscore (a +:+ b)
  = Str.map slash_to_underscore a +:+ Str.map slash_to_underscore b.
Proof.
  induction a as [|c a IH]; [done|].
  rewrite str_app_cons. cbn [Str.map]. by rewrite IH.
Qed.

Lemma map_slash_noslash q : noslash q → Str.map slash_to_underscore q = q.
Proof.
  induction q as [|c q IH]; [done|]. intros [Hc Hq]%noslash_cons.
  cbn [Str.map]. rewrite IH by done. unfold slash_to_underscore.
  by rewrite decide_False.
Qed.

(** The file name does not tell where the prefix ends. *)
Lemma SpecFileName_shift p q name ext :
  noslash q →
  SpecFileName (p +:+ "_" +:+ q) name ext = SpecFileName p (q +:+ "_" +:+ name) ext.
Proof.
  intros Hq. unfold SpecFileName. cbn zeta.
  rewrite !ReplaceAll_slash, !map_slash_app, (map_slash_noslash q Hq).
  cbn [Str.map]. unfold slash_to_underscore at 2.
  rewrite decide_False by done. by rewrite !str_app_assoc.
Qed.

End CleanupAgain.

(** ** Creation followed by removal *)

Section CreateThenCleanup.
Import Types Filepath Cdi Samples.

Variable CurrentVersion : string.
Variable json_MarshalIndent : CdiSpecs.Spec → result string.
Variable json_Marshal : CdiSpecs.Spec → result string.
Variable yaml_JSONToYAML : string → result string.

Local Abbreviation CreateCDISpec :=
  (Cdi.CreateCDISpec CurrentVersion json_MarshalIndent json_Marshal yaml_JSONToYAML).

Lemma created_supported fs prefix name devices outputDir format :
  (CreateCDISpec fs prefix name devices outputDir format).2 = None →
  ¬ unsupported format.
Proof.
  intros Hok Hu.
  pose proof (CreateCDISpec_rejected CurrentVersion json_MarshalIndent json_Marshal
                yaml_JSONToYAML fs prefix name devices outputDir format
                (or_intror Hu)) as H.
  destruct (OS.MkdirAll fs outputDir); by rewrite H in Hok.
Qed.

(** X16: a spec file written for a format that is not [json] or [yaml]
    as written (it is accepted in any case of the letters, and the file
    name carries it as written) is out of the reach of [CleanupSpecs]:
    no call, whatever its arguments and the state of the file system,
    lists this file or removes it. *)
Theorem CleanupSpecs_misses_other_case fs prefix name devices outputDir format :
  outputDir ≠ "" → format ∉ ["json"; "yaml"] →
  let made := CreateCDISpec fs prefix name devices outputDir format in
  let filePath := Join [outputDir; SpecFileName prefix name format] in
  made.2 = None →
  OS.is_file made.1 filePath
  ∧ ∀ fs' dir prefix' name' dryRun,
      let out := CleanupSpecs fs' dir prefix' name' dryRun in
      (filePath ∉ out.1.2) ∧ OS.nodes out.1.1 !! filePath = OS.nodes fs' !! filePath.
Proof.
  intros Hdir Hfmt made filePath Hok. subst made.
  split; [by apply CreateCDISpec_writes|].
  pose proof (created_supported _ _ _ _ _ _ Hok) as Hsup.
  apply supported_format in Hsup as (Hns & Hlen & Hdot).
  assert (Ext filePath = String "." format) as Hext.
  { unfold filePath. rewrite SpecFileName_ext. apply Join_Ext; try done. lia. }
  intros fs' dir prefix' name' dryRun out. subst out.
  destruct (CleanupSpecs_listed fs' dir prefix' name' dryRun) as [Hlist Hkeep].
  assert (filePath ∉ (CleanupSpecs fs' dir prefix' name' dryRun).1.2) as Hnot.
  { intros (_ & paths & Hc & Hin)%Hlist.
    destruct (candidates_spec _ _ _ _ _ Hc) as [_ Hexts].
    apply Hfmt. destruct (Hexts _ Hin) as [E|E]; rewrite Hext in E;
      injection E as ->; [left|right; left]. }
  split; [done|]. by apply Hkeep.
Qed.



End CreateThenCleanup.

Lemma CleanupSpecs_misses_other_case_witness :
  let made := Cdi.CreateCDISpec "1.0.0" Samples.sampleIndent Samples.sampleMarshal
                Samples.sampleToYAML Samples.emptyFS "rdma" "x" Samples.sampleDevices
                "/etc/cdi" "JSON" in
  OS.is_file made.1 "/etc/cdi/rdma-cdi_rdma_x.JSON"
  ∧ OS.nodes (Cdi.CleanupSpecs made.1 "/etc/cdi" "rdma" "" false).1.1
      !! "/etc/cdi/rdma-cdi_rdma_x.JSON"
    = OS.nodes made.1 !! "/etc/cdi/rdma-cdi_rdma_x.JSON".
Proof.
  cbn zeta.
  destruct (CleanupSpecs_misses_other_case "1.0.0" Samples.sampleIndent
              Samples.sampleMarshal Samples.sampleToYAML Samples.emptyFS "rdma" "x"
              Samples.sampleDevices "/etc/cdi" "JSON") as [H1 H2].
  - discriminate.
  - intros [H|[H|H]%elem_of_cons]%elem_of_cons;
      [discriminate H|discriminate H|by apply elem_of_nil in H].
  - vm_compute. reflexivity.
  - split; [exact H1|]. apply H2.
Defined.

Lemma CleanupSpecs_idempotent_witness :
  Cdi.CleanupSpecs (Cdi.CleanupSpecs Samples.seedFS "/tmp/d" "rdma" "" false).1.1
    "/tmp/d" "rdma" "" true
  = ((Cdi.CleanupSpecs Samples.seedFS "/tmp/d" "rdma" "" false).1.1, [], None).
Proof.
  apply (CleanupSpecs_idempotent Samples.seedFS "/tmp/d" "rdma" ""). vm_compute.
  reflexivity.
Defined.



(** ** Attributes and link types of discovered devices *)

Section AttributeFacts.
Import Types Rdma Doctor Samples.

Lemma trim_left_spaces lead rest :
  spaces_only lead = true → Str.trim_left (lead +:+ rest) = Str.trim_left rest.
Proof.
  induction lead as [|c lead IH]; [done|].
  cbn [spaces_only]. intros [Hc Hl]%andb_true_iff.
  rewrite str_app_cons. cbn [Str.trim_left]. rewrite Hc. by apply IH.
Qed.

Lemma trim_left_all_spaces trail : spaces_only trail = true → Str.trim_left trail = "".
Proof.
  intros H. rewrite <- (str_app_nil_r trail). by rewrite trim_left_spaces.
Qed.

Lemma trim_left_free v rest :
  space_free v = true → v ≠ "" → Str.trim_left (v +:+ rest) = v +:+ rest.
Proof.
  destruct v as [|c v]; [done|]. cbn [space_free].
  intros [Hc _]%andb_true_iff _. rewrite str_app_cons. cbn [Str.trim_left].
  by destruct (Ascii.is_space c).
Qed.

Lemma trim_right_all_spaces trail : spaces_only trail = true → Str.trim_right trail = "".
Proof.
  induction trail as [|c trail IH]; [done|].
  cbn [spaces_only]. intros [Hc Hl]%andb_true_iff.
  cbn [Str.trim_right]. by rewrite IH, Hc.
Qed.

Lemma trim_right_spaces v trail :
  spaces_only trail = true → Str.trim_right (v +:+ trail) = Str.trim_right v.
Proof.
  intros H. induction v as [|c v IH]; [by apply trim_right_all_spaces|].
  rewrite str_app_cons. cbn [Str.trim_right]. by rewrite IH.
Qed.

Lemma trim_right_free v : space_free v = true → Str.trim_right v = v.
Proof.
  induction v as [|c v IH]; [done|].
  cbn [space_free]. intros [Hc Hv]%andb_true_iff.
  cbn [Str.trim_right]. rewrite IH by done.
  destruct v; [|done]. by destruct (Ascii.is_space c).
Qed.

Lemma TrimSpace_strips lead v trail :
  spaces_only lead = true → spaces_only trail = true → space_free v = true →
  Str.TrimSpace (lead +:+ v +:+ trail) = v.
Proof.
  intros Hl Ht Hv. unfold Str.TrimSpace. rewrite trim_left_spaces by done.
  destruct (decide (v = "")) as [->|Hne].
  - change ("" +:+ trail) with trail. by rewrite trim_left_all_spaces.
  - rewrite trim_left_free, trim_right_spaces by done. by apply trim_right_free.
Qed.

Lemma substring_all v : String.substring 0 (String.length v) v = v.
Proof. induction v as [|c v IH]; [done|]. cbn. by rewrite IH. Qed.

Lemma TrimPrefix_0x v : Str.TrimPrefix ("0x" +:+ v) "0x" = v.
Proof.
  unfold Str.TrimPrefix. rewrite prefix_app, str_length_app.
  replace (String.length "0x" + String.length v - String.length "0x")%nat
    with (String.length v) by (cbn; lia).
  cbn. apply substring_all.
Qed.



Lemma DiagnoseDevice_snd h d :
  (DiagnoseDevice h d).2 = (checkNetInterface h empty d).2.
Proof.
  unfold DiagnoseDevice. rewrite (checkNetInterface_device h empty d).
  pose proof (checkNetInterface_device h
                (checkKernelModules h (checkRdmaDevices empty d)) d) as Hd.
  by destruct (checkNetInterface h _ d) as [r3 d3].
Qed.

Lemma DiagnoseDevice_built h pciAddr charDevs :
  (DiagnoseDevice h (buildRdmaDevice h pciAddr charDevs)).2
  = buildRdmaDevice h pciAddr charDevs.
Proof.
  rewrite DiagnoseDevice_snd, checkNetInterface_device.
  case_decide as Hif; [done|].
  destruct (netlink_LinkByName h _) as [attrs|err] eqn:El; [|done].
  unfold buildRdmaDevice, set_LinkType in *. cbn [IfName] in *.
  cbn [PciAddress IfName Vendor DeviceID Driver LinkType RdmaDevices DeviceSpecs].
  unfold GetLinkType. rewrite decide_False by done. by rewrite El.
Qed.

(** X20: the diagnostics, run on the host of the discovery, leave a
    device found by [DiscoverByPCI] or listed by [DiscoverAll] as it is:
    its link type already is the encapsulation of the link of its
    interface, empty when there is no interface or no such link. *)
Theorem DiagnoseDevice_keeps_discovered (h : Host) (dev : RdmaDevice) :
  (∃ pciAddress, DiscoverByPCI h pciAddress = Ok dev)
  ∨ (∃ devices, DiscoverAll h = Ok devices ∧ dev ∈ devices) →
  (DiagnoseDevice h dev).2 = dev
  ∧ LinkType dev = GetLinkType h (IfName dev).
Proof.
  intros Hfound.
  assert (∃ pciAddr charDevs, dev = buildRdmaDevice h pciAddr charDevs)
    as (pciAddr & charDevs & ->).
  { destruct Hfound as [[pciAddress Hd]|(devices & Hd & Hin)].
    - apply DiscoverByPCI_built in Hd as (-> & _). by eexists _, _.
    - unfold DiscoverAll in Hd.
      destruct (os_ReadDir h sysBusPci) as [entries|e]; [|done].
      cbn zeta in Hd. case_decide; [done|]. injection Hd as <-.
      rewrite discoverLoop_spec in Hin. cbn [app] in Hin.
      apply list_elem_of_fmap in Hin as (p & -> & _). by eexists _, _. }
  split; [apply DiagnoseDevice_built|done].
Qed.

Lemma DiagnoseDevice_keeps_discovered_witness :
  LinkType (buildRdmaDevice busHost "0000:17:00.0"
              (GetRdmaCharDevices busHost "0000:17:00.0")) = "ether".
Proof.
  destruct (DiagnoseDevice_keeps_discovered busHost
              (buildRdmaDevice busHost "0000:17:00.0"
                 (GetRdmaCharDevices busHost "0000:17:00.0"))) as [_ H].
  - left. exists "0000:17:00.0". reflexivity.
  - rewrite H. reflexivity.
Defined.

End AttributeFacts.

(** ** From discovery to the spec file: the [generate] command *)

Section GenerateFacts.
Import Types Rdma Cdi Main Samples.

Variable CurrentVersion : string.
Variable json_MarshalIndent : CdiSpecs.Spec → result string.
Variable json_Marshal : CdiSpecs.Spec → result string.
Variable yaml_JSONToYAML : string → result string.

Local Abbreviation CreateCDISpec :=
  (Cdi.CreateCDISpec CurrentVersion json_MarshalIndent json_Marshal yaml_JSONToYAML).
Local Abbreviation generateLoop :=
  (Main.generateLoop CurrentVersion json_MarshalIndent json_Marshal yaml_JSONToYAML).
Local Abbreviation generateAll :=
  (Main.generateAll CurrentVersion json_MarshalIndent json_Marshal yaml_JSONToYAML).
Local Abbreviation generateOne :=
  (Main.generateOne CurrentVersion json_MarshalIndent json_Marshal yaml_JSONToYAML).

(** The line the command prints for a written spec, and the path of
    the file of a device in the batch mode. *)
Local Abbreviation written prefix name outputDir format :=
  ("CDI spec written to " +:+ outputDir +:+ "/" +:+ SpecFileName prefix name format).
Local Abbreviation autoPath prefix outputDir format dev :=
  (Filepath.Join [outputDir;
                  SpecFileName prefix (deriveDefaultName (PciAddress dev) "") format]).

Lemma same_files_trans fs1 fs2 fs3 :
  same_files fs1 fs2 → same_files fs2 fs3 → same_files fs1 fs3.
Proof. intros H12 H23 p data. etrans; [apply H23|apply H12]. Qed.

(** A creation removes no file, and on an error changes none. *)
Lemma CreateCDISpec_keeps fs prefix name devices outputDir format :
  let out := CreateCDISpec fs prefix name devices outputDir format in
  (∀ p, OS.is_file fs p → OS.is_file out.1 p)
  ∧ (is_Some out.2 → same_files fs out.1).
Proof.
  cbn zeta. unfold Cdi.CreateCDISpec. cbn zeta.
  destruct (OS.MkdirAll fs outputDir) as [fs1|e] eqn:Em;
    [|split; [done|intros _; apply same_files_refl]].
  pose proof (MkdirAll_Done _ _ _ Em) as (_ & Hsame & _).
  assert (∀ p, OS.is_file fs p → OS.is_file fs1 p) as Hmono.
  { intros p [data Hp]. exists data. by apply Hsame. }
  destruct (validateSpec _); [done|].
  destruct (Cdi.marshalSpec _ _ _ _ _) as [data|err]; [|done].
  set (filePath := Filepath.Join _).
  destruct (OS.WriteFile fs1 filePath data) as [fs2|e] eqn:Ew; [|done].
  apply WriteFile_Done in Ew as (_ & _ & ->). cbn [fst snd OS.nodes].
  split; [|by intros [? ?]].
  intros p Hp. apply Hmono in Hp as [old Hold].
  destruct (decide (p = filePath)) as [->|Hne].
  - exists data. apply lookup_insert_eq.
  - exists old. cbn [OS.nodes]. by rewrite lookup_insert_ne.
Qed.

Lemma generateLoop_spec prefix outputDir format devices : ∀ fs out n,
  let res := generateLoop fs prefix outputDir format devices out n in
  ∃ lines,
    res.1.2 = (out ++ lines)%list
    ∧ (res.2 + length lines = n + length devices)%nat
    ∧ Forall (λ line, ∃ dev, dev ∈ devices
                ∧ line = written prefix (deriveDefaultName (PciAddress dev) "")
                                 outputDir format
                ∧ OS.is_file res.1.1 (autoPath prefix outputDir format dev)) lines
    ∧ (∀ p, OS.is_file fs p → OS.is_file res.1.1 p)
    ∧ (unsupported format → lines = [] ∧ same_files fs res.1.1).
Proof.
  induction devices as [|dev devices IH]; intros fs out n; cbn zeta.
  - exists []. cbn [Main.generateLoop fst snd length]. rewrite app_nil_r.
    repeat split; try done; lia.
  - cbn [Main.generateLoop]. cbn zeta.
    set (name := deriveDefaultName (PciAddress dev) "").
    pose proof (CreateCDISpec_keeps fs prefix name [dev] outputDir format)
      as [Hmono Hfail].
    pose proof (CreateCDISpec_writes CurrentVersion json_MarshalIndent json_Marshal
                  yaml_JSONToYAML fs prefix name [dev] outputDir format) as Hwr.
    pose proof (created_supported CurrentVersion json_MarshalIndent json_Marshal
                  yaml_JSONToYAML fs prefix name [dev] outputDir format) as Hsup.
    destruct (CreateCDISpec fs prefix name [dev] outputDir format) as [fs' [err|]].
    + destruct (IH fs' out (S n)) as (lines & E & Hn & Hl & Hm & Hu).
      exists lines. cbn [fst snd] in *.
      split; [done|]. split; [cbn [length]; lia|]. split; [|split].
      * eapply Forall_impl; [exact Hl|].
        intros line (d & Hd & ? & ?). exists d. split; [by right|done].
      * intros p Hp. by apply Hm, Hmono.
      * intros Hbad. destruct (Hu Hbad) as [-> Hs]. split; [done|].
        eapply same_files_trans; [apply Hfail; by eexists|done].
    + destruct (IH fs' (out ++ [written prefix name outputDir format])%list n)
        as (lines & E & Hn & Hl & Hm & Hu).
      exists (written prefix name outputDir format :: lines). cbn [fst snd] in *.
      split; [by rewrite E, <- (assoc_L (++)%list)|].
      split; [cbn [length]; lia|]. split; [|split].
      * constructor.
        -- exists dev. split; [by left|]. split; [done|]. by apply Hm, Hwr.
        -- eapply Forall_impl; [exact Hl|].
           intros line (d & Hd & ? & ?). exists d. split; [by right|done].
      * intros p Hp. by apply Hm, Hmono.
      * intros Hbad. by destruct (Hsup eq_refl).
Qed.

(** The lines of [generate --all] and the files behind them. *)
Lemma generateAll_lines (h : Host) fs prefix outputDir format devices line :
  DiscoverAll h = Ok devices →
  line ∈ (generateAll h fs prefix outputDir format).1.2 →
  ∃ dev, dev ∈ devices
    ∧ line = written prefix (deriveDefaultName (PciAddress dev) "") outputDir format
    ∧ OS.is_file (generateAll h fs prefix outputDir format).1.1
                 (autoPath prefix outputDir format dev).
Proof.
  intros Hd. unfold Main.generateAll. rewrite Hd.
  rewrite decide_False
    by (intros E; by destruct devices; [apply DiscoverAll_nonempty in Hd|]).
  destruct (generateLoop_spec prefix outputDir format devices fs [] 0)
    as (lines & E & _ & Hl & _).
  destruct (generateLoop fs prefix outputDir format devices [] 0) as [[fs' out] n].
  cbn [fst snd app] in *. subst out. rewrite Forall_forall in Hl.
  destruct (decide (0 < n)); cbn [fst snd]; apply Hl.
Qed.

(** X21: [generate --all].  A failed discovery is reported and nothing
    is written.  Otherwise the command never prints that there are no
    devices ([DiscoverAll] has failed in that case): it prints one line
    for each device whose spec was written, the file being there at the
    end, under the name derived from the PCI address; it returns an
    error exactly when some device failed, counting them; it removes no
    file; and for an unknown format every device fails and no file is
    written or changed. *)
Theorem generateAll_spec (h : Host) (fs : OS.FS) (prefix outputDir format : string) :
  let res := generateAll h fs prefix outputDir format in
  (∀ err, DiscoverAll h = Err err →
          res = (fs, [], Some ("device discovery failed: " +:+ err)))
  ∧ ∀ devices, DiscoverAll h = Ok devices →
      ("No RDMA devices found." ∉ res.1.2)
      ∧ (length res.1.2 ≤ length devices)%nat
      ∧ (res.2 = None ↔ length res.1.2 = length devices)
      ∧ (∀ e, res.2 = Some e →
              e = Fmt.itoa (length devices - length res.1.2)
                  +:+ " device(s) failed to generate")
      ∧ (∀ line, line ∈ res.1.2 →
           ∃ dev, dev ∈ devices
             ∧ line = written prefix (deriveDefaultName (PciAddress dev) "")
                              outputDir format
             ∧ OS.is_file res.1.1 (autoPath prefix outputDir format dev))
      ∧ (∀ p, OS.is_file fs p → OS.is_file res.1.1 p)
      ∧ (unsupported format → res.1.2 = [] ∧ same_files fs res.1.1).
Proof.
  cbn zeta. unfold Main.generateAll. split; [by intros err ->|].
  intros devices Hd. rewrite Hd.
  rewrite decide_False
    by (intros E; by destruct devices; [apply DiscoverAll_nonempty in Hd|]).
  destruct (generateLoop_spec prefix outputDir format devices fs [] 0)
    as (lines & E & Hn & Hl & Hm & Hu).
  destruct (generateLoop fs prefix outputDir format devices [] 0) as [[fs' out] n].
  cbn [fst snd app] in *. subst out.
  rewrite Forall_forall in Hl.
  assert ("No RDMA devices found." ∉ lines) as Hno.
  { intros (dev & _ & Hline & _)%Hl. discriminate Hline. }
  destruct (decide (0 < n)) as [Hpos|Hpos]; cbn [fst snd].
  - split; [done|]. split; [lia|]. split; [split; [done|lia]|].
    split; [|done].
    intros e [= <-]. by replace (length devices - length lines)%nat with n by lia.
  - split; [done|]. split; [lia|]. split; [split; [lia|done]|].
    split; [done|]. done.
Qed.



End GenerateFacts.

Lemma generateAll_spec_witness :
  let res := Main.generateAll "1.0.0" Samples.sampleIndent Samples.sampleMarshal
               Samples.sampleToYAML Samples.busHost Samples.emptyFS "rdma" "/etc/cdi"
               "yaml" in
  res.1.2 = ["CDI spec written to /etc/cdi/rdma-cdi_rdma_pci-0000-17-00-0.yaml"]
  ∧ (length res.1.2 ≤ 1)%nat.
Proof.
  cbn zeta.
  destruct (generateAll_spec "1.0.0" Samples.sampleIndent Samples.sampleMarshal
              Samples.sampleToYAML Samples.busHost Samples.emptyFS "rdma" "/etc/cdi"
              "yaml") as [_ H].
  destruct (H [Rdma.buildRdmaDevice Samples.busHost "0000:17:00.0"
                 (Rdma.GetRdmaCharDevices Samples.busHost "0000:17:00.0")] eq_refl)
    as (_ & Hlen & _).
  split; [vm_compute; reflexivity|exact Hlen].
Defined.



(** ** The CDI device of a discovered device *)

Section DocumentFacts.
Import Types Rdma Cdi Samples.

(** X23: the CDI device written for a device that [DiscoverByPCI]
    returned is named by the PCI address and has one device node for
    each character device of the address, in their order, with the
    host path as container path and read-write permissions; every
    required type is among the nodes. *)
Theorem cdiDevice_of_discovered (h : Host) (pciAddress : string) (dev : RdmaDevice) :
  DiscoverByPCI h pciAddress = Ok dev →
  let nodes := CdiSpecs.DeviceNodes (CdiSpecs.Edits (cdiDevice dev)) in
  CdiSpecs.Name (cdiDevice dev) = pciAddress
  ∧ map CdiSpecs.Path nodes = GetRdmaCharDevices h pciAddress
  ∧ Forall (λ n, CdiSpecs.HostPath n = CdiSpecs.Path n ∧ CdiSpecs.Permissions n = "rw")
           nodes
  ∧ ∀ required, required ∈ RequiredRdmaDevices →
      ∃ n, n ∈ nodes
           ∧ Str.Contains (Filepath.Base (CdiSpecs.Path n)) required = true.
Proof.
  intros (-> & Hne & Hv)%DiscoverByPCI_built. cbn zeta.
  unfold cdiDevice. cbn [CdiSpecs.Name CdiSpecs.Edits CdiSpecs.DeviceNodes
                         PciAddress DeviceSpecs buildRdmaDevice].
  unfold buildDeviceSpecs. rewrite !map_map. cbn [deviceNode CdiSpecs.Path
    ContainerPath HostPath Permissions].
  split; [done|]. split; [apply map_id|]. split.
  - apply Forall_forall. intros n (p & -> & _)%list_elem_of_fmap. done.
  - intros required Hr. unfold VerifyRdmaDevices in Hv.
    rewrite verify_loop_None in Hv. specialize (Hv required Hr).
    apply found_in_spec in Hv as (p & Hp & Hc).
    eexists. split; [apply list_elem_of_fmap; by exists p|]. exact Hc.
Qed.

Lemma cdiDevice_of_discovered_witness :
  CdiSpecs.Name (cdiDevice (buildRdmaDevice busHost "0000:17:00.0"
                              (GetRdmaCharDevices busHost "0000:17:00.0")))
  = "0000:17:00.0".
Proof.
  apply (cdiDevice_of_discovered busHost "0000:17:00.0"). reflexivity.
Defined.

End DocumentFacts.

(** ** The [cleanup] command *)

Section CleanupCommand.
Import Types Filepath Cdi Main Samples.

Lemma CleanupSpecs_removed fs dir prefix name dryRun :
  let out := CleanupSpecs fs dir prefix name dryRun in
  (dryRun = true → out.1.1 = fs)
  ∧ (dryRun = false → ∀ q, q ∈ out.1.2 → OS.nodes out.1.1 !! q = None).
Proof.
  cbn zeta. rewrite CleanupSpecs_candidates.
  destruct (candidates fs dir prefix name) as [paths|err] eqn:Hc.
  - destruct (candidates_spec _ _ _ _ _ Hc) as [Hnd _].
    destruct (cleanupFiles_spec fs paths dryRun Hnd) as (_ & _ & _ & Hrem & _ & Hdry).
    split; [by intros [? _]%Hdry|].
    intros Hfalse q Hq.
    assert (removed_by fs (cleanupFiles fs paths dryRun).1.1 q) as [_ ?]
      by (by apply Hrem).
    done.
  - split; [done|]. cbn [fst snd]. by intros _ q ?%elem_of_nil.
Qed.

(** X24: the [cleanup] command prints nothing when [CleanupSpecs]
    returns an error, also when files were removed before the step that
    failed.  Without error it prints "No matching spec files found."
    exactly when nothing was listed, and otherwise one line for each
    listed file, in order: "Would remove: f" in a dry run, which changes
    nothing, and "Removed: f" in a real run, where every file printed is
    gone. *)
Theorem cleanupRun_spec (fs : OS.FS) (prefix name outputDir : string) (dryRun : bool) :
  let res := cleanupRun fs prefix name outputDir dryRun in
  let out := CleanupSpecs fs outputDir prefix name dryRun in
  res.1.1 = out.1.1 ∧ res.2 = out.2
  ∧ (is_Some res.2 → res.1.2 = [])
  ∧ (res.2 = None →
     (res.1.2 = ["No matching spec files found."] ↔ out.1.2 = [])
     ∧ (out.1.2 ≠ [] →
        res.1.2 = map (λ f, (if dryRun then "Would remove" else "Removed") +:+ ": " +:+ f)
                      out.1.2))
  ∧ (dryRun = true → res.1.1 = fs)
  ∧ (dryRun = false → ∀ f, "Removed: " +:+ f ∈ res.1.2 → OS.nodes res.1.1 !! f = None).
Proof.
  cbn zeta. unfold cleanupRun.
  pose proof (CleanupSpecs_removed fs outputDir prefix name dryRun) as [Hdry Hreal].
  destruct (CleanupSpecs fs outputDir prefix name dryRun) as [[fs' removed] [err|]];
    cbn [fst snd] in *.
  - split; [done|]. split; [done|]. split; [done|]. split; [done|].
    split; [done|]. by intros _ f ?%elem_of_nil.
  - destruct removed as [|f0 removed].
    + rewrite decide_True by done. cbn [fst snd].
      split; [done|]. split; [done|]. split; [by intros [? ?]|].
      split; [done|]. split; [done|].
      intros _ f [Hf|Hf]%elem_of_cons; [discriminate Hf|by apply elem_of_nil in Hf].
    + rewrite decide_False by done. cbn [fst snd].
      split; [done|]. split; [done|]. split; [by intros [? ?]|].
      split; [|split; [done|]].
      * intros _. split; [|done]. split; [|done].
        cbn [map]. intros [= Hline _]. destruct dryRun; discriminate Hline.
      * intros -> f (g & Hg & Hin)%list_elem_of_fmap.
        apply (str_app_inv_head "Removed: ") in Hg as ->. by apply Hreal.
Qed.

Lemma cleanupRun_spec_witness :
  let res := cleanupRun halfLockedFS "rdma" "dev1" "/etc/cdi" false in
  res.1.2 = [] ∧ is_Some res.2
  ∧ OS.nodes res.1.1 !! "/etc/cdi/rdma-cdi_rdma_dev1.json" = None
  ∧ OS.nodes halfLockedFS !! "/etc/cdi/rdma-cdi_rdma_dev1.json" = Some (OS.File "test").
Proof.
  cbn zeta.
  destruct (cleanupRun_spec halfLockedFS "rdma" "dev1" "/etc/cdi" false)
    as (_ & _ & H & _).
  assert (is_Some (cleanupRun halfLockedFS "rdma" "dev1" "/etc/cdi" false).2) as Herr
    by (eexists; vm_compute; reflexivity).
  split; [exact (H Herr)|]. split; [exact Herr|].
  split; vm_compute; reflexivity.
Defined.

End CleanupCommand.
